(** * A same-origin forwarding proxy with link rewriting

    Shallow embedding of the Go program (package [main]): the request
    handler [proxyHandler] in its two variants, and the content rewriters
    [rewriteHTML], [rewriteCSS] and [rewriteJS].

    Go strings and byte slices are lists of 8-bit characters.  The parts
    of the Go standard library that the program calls and that are small
    enough are modelled here ([encoding/base64], the [strings] helpers,
    [net/textproto]'s header canonicalisation, the fragment of [regexp]
    that the six patterns of the program use).  The others ([net/url],
    the HTML parser and printer, the network) are parameters of the
    development. *)

From Stdlib Require Import NArith ZArith List Ascii String Bool Lia ZifyNat.
From stdpp Require Import gmap strings list fin_maps.
Import ListNotations.
Open Scope list_scope.

(** Go string literals. *)
Abbreviation bs := list_ascii_of_string.

(** ** Bytes and the [strings] package *)

Definition byte_eqb (a b : ascii) : bool := Ascii.eqb a b.

Fixpoint bytes_eqb (s t : list ascii) : bool :=
  match s, t with
  | [], [] => true
  | a :: s', b :: t' => byte_eqb a b && bytes_eqb s' t'
  | _, _ => false
  end.

(** [strings.HasPrefix(s, prefix)]: byte-wise, case-sensitive. *)
Fixpoint HasPrefix (s prefix : list ascii) {struct prefix} : bool :=
  match prefix, s with
  | [], _ => true
  | p :: prefix', c :: s' => byte_eqb c p && HasPrefix s' prefix'
  | _ :: _, [] => false
  end.

(** [strings.TrimPrefix(s, prefix)]. *)
Definition TrimPrefix (s prefix : list ascii) : list ascii :=
  if HasPrefix s prefix then drop (length prefix) s else s.

Definition in_range (lo hi c : ascii) : bool :=
  (N_of_ascii lo <=? N_of_ascii c)%N && (N_of_ascii c <=? N_of_ascii hi)%N.

Definition isUpperASCII (c : ascii) : bool := in_range "A" "Z" c.
Definition isLowerASCII (c : ascii) : bool := in_range "a" "z" c.
Definition isDigit (c : ascii) : bool := in_range "0" "9" c.
Definition isASCII (c : ascii) : bool := (N_of_ascii c <? 128)%N.

Definition lowerASCII (c : ascii) : ascii :=
  if isUpperASCII c then ascii_of_N (N_of_ascii c + 32) else c.
Definition upperASCII (c : ascii) : ascii :=
  if isLowerASCII c then ascii_of_N (N_of_ascii c - 32) else c.

Definition isAlnum (c : ascii) : bool :=
  isUpperASCII c || isLowerASCII c || isDigit c.

(** ** [encoding/base64]

    [Encoding] holds the 64-character alphabet and the padding
    character; [StdEncoding] and [URLEncoding] differ in the last two
    characters of the alphabet only.  Both pad with [=] and neither is
    strict. *)

Module base64.

Record Encoding := {
  encode : list ascii;          (* the alphabet, indexed by 6-bit value *)
  padChar : option ascii        (* [None] is Go's [NoPadding] *)
}.

Definition encodeStd : list ascii :=
  bs "ABCDEFGHIJKLMNOPQRSTUVWXYZabcdefghijklmnopqrstuvwxyz0123456789+/".
Definition encodeURL : list ascii :=
  bs "ABCDEFGHIJKLMNOPQRSTUVWXYZabcdefghijklmnopqrstuvwxyz0123456789-_".

Definition StdEncoding : Encoding :=
  {| encode := encodeStd; padChar := Some "="%char |}.
Definition URLEncoding : Encoding :=
  {| encode := encodeURL; padChar := Some "="%char |}.

(** [enc.encode[i]] *)
Definition encodeAt (enc : Encoding) (i : N) : ascii :=
  nth (N.to_nat i) (encode enc) "000"%char.

(** [enc.decodeMap[c]]: the position of [c] in the alphabet; [None]
    stands for the entry [0xff] of an invalid byte. *)
Fixpoint index_of (c : ascii) (l : list ascii) (i : N) : option N :=
  match l with
  | [] => None
  | x :: l' => if byte_eqb x c then Some i else index_of c l' (i + 1)
  end.
Definition decodeMap (enc : Encoding) (c : ascii) : option N :=
  index_of c (encode enc) 0.

Definition is_pad (enc : Encoding) (c : ascii) : bool :=
  match padChar enc with Some p => byte_eqb c p | None => false end.

(** [uint(a)<<16 | uint(b)<<8 | uint(c)] *)
Definition val3 (a b c : N) : N :=
  N.lor (N.lor (N.shiftl a 16) (N.shiftl b 8)) c.

(** [val>>sh & 0x3F] *)
Definition sextet (val sh : N) : N := N.land (N.shiftr val sh) 63.

Definition pad_or_nil (enc : Encoding) : list ascii :=
  match padChar enc with Some p => [p] | None => [] end.

(** [enc.Encode]: three source bytes give four characters; a last
    block of one or two bytes is completed with padding. *)
Fixpoint Encode (enc : Encoding) (src : list ascii) : list ascii :=
  match src with
  | a :: b :: c :: rest =>
      let val := val3 (N_of_ascii a) (N_of_ascii b) (N_of_ascii c) in
      encodeAt enc (sextet val 18) :: encodeAt enc (sextet val 12)
        :: encodeAt enc (sextet val 6) :: encodeAt enc (sextet val 0)
        :: Encode enc rest
  | [a; b] =>
      let val := N.lor (N.shiftl (N_of_ascii a) 16) (N.shiftl (N_of_ascii b) 8) in
      encodeAt enc (sextet val 18) :: encodeAt enc (sextet val 12)
        :: encodeAt enc (sextet val 6) :: pad_or_nil enc
  | [a] =>
      let val := N.shiftl (N_of_ascii a) 16 in
      encodeAt enc (sextet val 18) :: encodeAt enc (sextet val 12)
        :: pad_or_nil enc ++ pad_or_nil enc
  | [] => []
  end.

Definition EncodeToString (enc : Encoding) (src : list ascii) : list ascii :=
  Encode enc src.

(** [byte(x)] *)
Definition to_byte (x : N) : ascii := ascii_of_N (x mod 256).

(** The end of [decodeQuantum]: the sextets read so far ([dlen] of
    them, the missing ones zero) are packed and [dlen - 1] bytes come
    out. *)
Definition quantum_val (d0 d1 d2 d3 : N) : N :=
  N.lor (N.lor (N.lor (N.shiftl d0 18) (N.shiftl d1 12)) (N.shiftl d2 6)) d3.

Definition emit (dbuf : list N) : list ascii :=
  match dbuf with
  | [d0; d1; d2; d3] =>
      let val := quantum_val d0 d1 d2 d3 in
      [to_byte (N.shiftr val 16); to_byte (N.shiftr val 8); to_byte (N.shiftr val 0)]
  | [d0; d1; d2] =>
      let val := quantum_val d0 d1 d2 0 in
      [to_byte (N.shiftr val 16); to_byte (N.shiftr val 8)]
  | [d0; d1] =>
      let val := quantum_val d0 d1 0 0 in
      [to_byte (N.shiftr val 16)]
  | _ => []
  end.

Definition isNewline (c : ascii) : bool :=
  byte_eqb c "010"%char || byte_eqb c "013"%char.

Fixpoint skipNewlines (s : list ascii) : list ascii :=
  match s with
  | c :: s' => if isNewline c then skipNewlines s' else s
  | [] => []
  end.

(** [enc.Decode]: [dbuf] holds the sextets of the quantum being read.
    [None] is a non-nil [CorruptInputError]; the bytes Go returns next
    to the error are dropped, the program never looks at them. *)
Fixpoint decode (enc : Encoding) (dbuf : list N) (src : list ascii)
  : option (list ascii) :=
  match src with
  | [] =>
      match dbuf with
      | [] => Some []
      | [_] => None
      | _ => match padChar enc with
             | Some _ => None
             | None => Some (emit dbuf)
             end
      end
  | c :: rest =>
      match decodeMap enc c with
      | Some out =>
          match dbuf with
          | [d0; d1; d2] =>
              match decode enc [] rest with
              | Some tl => Some (emit [d0; d1; d2; out] ++ tl)
              | None => None
              end
          | _ => decode enc (dbuf ++ [out]) rest
          end
      | None =>
          if isNewline c then decode enc dbuf rest
          else if negb (is_pad enc c) then None
          else
            match dbuf with
            | [] | [_] => None                       (* incorrect padding *)
            | [_; _] =>
                (* "==" is expected, the first "=" is already consumed *)
                match skipNewlines rest with
                | [] => None                          (* not enough padding *)
                | c2 :: rest2 =>
                    if is_pad enc c2 then
                      match skipNewlines rest2 with
                      | [] => Some (emit dbuf)
                      | _ :: _ => None                (* trailing garbage *)
                      end
                    else None
                end
            | _ =>
                match skipNewlines rest with
                | [] => Some (emit dbuf)
                | _ :: _ => None                      (* trailing garbage *)
                end
            end
      end
  end.

Definition DecodeString (enc : Encoding) (s : list ascii) : option (list ascii) :=
  decode enc [] s.

End base64.

(** The characters the URL alphabet and its padding are made of. *)
Definition isURLSafeBase64 (c : ascii) : bool :=
  isAlnum c || byte_eqb c "-" || byte_eqb c "_" || byte_eqb c "=".

(** The two characters of the URL alphabet that the standard alphabet
    does not have. *)
Definition isDashOrUnderscore (c : ascii) : bool :=
  byte_eqb c "-" || byte_eqb c "_".

(** RFC 3986, [pchar] without the percent sign: what may stand as it
    is in a path segment (unreserved characters, sub-delimiters, colon
    and at sign). *)
Definition isPchar (c : ascii) : bool :=
  isAlnum c || existsb (byte_eqb c) (bs "-._~")
  || existsb (byte_eqb c) (bs "!$&'()*+,;=") || existsb (byte_eqb c) (bs ":@").

(** [net/url]'s [shouldEscape(c, encodePathSegment)]: whether a byte
    has to be percent-escaped inside one segment of a path. *)
Definition shouldEscape_pathSegment (c : ascii) : bool :=
  if isAlnum c then false
  else if existsb (byte_eqb c) (bs "-_.~") then false
  else if existsb (byte_eqb c) (bs "$&+,/:;=?@")
       then existsb (byte_eqb c) (bs "/;,?")
  else true.

(** ** [regexp]

    The fragment of RE2 syntax that the six patterns of the program
    use: literal text, a greedy bounded or unbounded repetition of a
    character class, concatenation, and numbered capturing groups.

    The matcher lists, for one start position, every way of matching in
    the order a backtracking search finds them; Go's leftmost-first
    match at that position is the head of the list.

    Go matches runes of UTF-8 text where this model matches bytes.  For
    the patterns below the two agree: every pattern starts with an ASCII
    character, every repeated class is either a set of ASCII characters
    or the complement of one, and what follows a complemented class
    always needs an ASCII character next, which no byte inside a
    multi-byte rune is. *)

Module regexp.

Inductive Regexp :=
| Lit (l : list ascii)                                  (* literal text *)
| Rep (cls : ascii -> bool) (min : nat) (max : option nat)  (* cls{min,max}, greedy *)
| Seq (r1 r2 : Regexp)
| Cap (i : nat) (r : Regexp).                           (* i-th parenthesis *)

Fixpoint stripLit (l s : list ascii) : option (list ascii) :=
  match l, s with
  | [], _ => Some s
  | x :: l', c :: s' => if byte_eqb c x then stripLit l' s' else None
  | _ :: _, [] => None
  end.

Definition can_take (max : option nat) : bool :=
  match max with Some O => false | _ => true end.
Definition dec_max (max : option nat) : option nat :=
  match max with Some n => Some (pred n) | None => None end.

(** The inputs left after a greedy repetition, longest repetition
    first. *)
Fixpoint rep (cls : ascii -> bool) (min : nat) (max : option nat)
         (s : list ascii) : list (list ascii) :=
  match s with
  | c :: s' =>
      if cls c && can_take max then rep cls (pred min) (dec_max max) s' else []
  | [] => []
  end ++ (if Nat.eqb min 0 then [s] else []).

(** [run r s c]: the pairs of remaining input and submatches, in
    priority order, of the matches of [r] at the start of [s]. *)
Fixpoint run (r : Regexp) (s : list ascii) (c : list (list ascii))
  : list (list ascii * list (list ascii)) :=
  match r with
  | Lit l =>
      match stripLit l s with Some s' => [(s', c)] | None => [] end
  | Rep cls mn mx => map (fun s' => (s', c)) (rep cls mn mx s)
  | Seq r1 r2 => flat_map (fun x => run r2 (fst x) (snd x)) (run r1 s c)
  | Cap i r1 =>
      map (fun x => (fst x, <[i := take (length s - length (fst x)) s]> (snd x)))
          (run r1 s c)
  end.

Fixpoint NumSubexp (r : Regexp) : nat :=
  match r with
  | Lit _ | Rep _ _ _ => 0
  | Seq r1 r2 => Nat.max (NumSubexp r1) (NumSubexp r2)
  | Cap i r1 => Nat.max i (NumSubexp r1)
  end.

(** The match at the start of [s]: the matched text, the rest of the
    input, and the submatches (entry 0 is the whole match). *)
Definition match_at (re : Regexp) (s : list ascii)
  : option (list ascii * list ascii * list (list ascii)) :=
  match run re s (replicate (S (NumSubexp re)) []) with
  | (rest, c) :: _ =>
      let m := take (length s - length rest) s in
      Some (m, rest, <[0 := m]> c)
  | [] => None
  end.

(** The leftmost match: the text before it, the match, its submatches,
    the text after it. *)
Fixpoint find (re : Regexp) (s : list ascii)
  : option (list ascii * list ascii * list (list ascii) * list ascii) :=
  match match_at re s with
  | Some (m, rest, sub) => Some ([], m, sub, rest)
  | None =>
      match s with
      | [] => None
      | c :: s' =>
          match find re s' with
          | Some (pre, m, sub, rest) => Some (c :: pre, m, sub, rest)
          | None => None
          end
      end
  end.

(** [re.FindStringSubmatch(s)]; the empty list is Go's [nil]. *)
Definition FindStringSubmatch (re : Regexp) (s : list ascii) : list (list ascii) :=
  match find re s with
  | Some (_, _, sub, _) => sub
  | None => []
  end.

(** [re.ReplaceAllStringFunc(src, repl)].  The scan tries a match at
    every position that is not inside the previous match; [skip] counts
    the characters of the previous match still to pass.  No pattern of
    the program matches the empty string, and an empty match is treated
    here as no match. *)
Fixpoint replaceAll (re : Regexp) (repl : list ascii -> list ascii)
         (skip : nat) (src : list ascii) : list ascii :=
  match src with
  | [] => []
  | c :: src' =>
      match skip with
      | S k => replaceAll re repl k src'
      | O =>
          match match_at re src with
          | Some (m, _, _) =>
              match length m with
              | S k => repl m ++ replaceAll re repl k src'
              | O => c :: replaceAll re repl 0 src'
              end
          | None => c :: replaceAll re repl 0 src'
          end
      end
  end.

Definition ReplaceAllStringFunc (re : Regexp) (src : list ascii)
           (repl : list ascii -> list ascii) : list ascii :=
  replaceAll re repl 0 src.

(** Character classes. *)
Definition isSpace (c : ascii) : bool :=          (* \s is [\t\n\f\r ] *)
  byte_eqb c "009" || byte_eqb c "010" || byte_eqb c "012"
  || byte_eqb c "013" || byte_eqb c " ".
Definition dquote : ascii := "034"%char.
Definition squote : ascii := "039"%char.
(** a double or a single quote *)
Definition isQuote (c : ascii) : bool := byte_eqb c dquote || byte_eqb c squote.
(** anything but a quote *)
Definition notQuote (c : ascii) : bool := negb (isQuote c).
(** anything but a quote or a closing parenthesis *)
Definition notQuoteParen (c : ascii) : bool :=
  negb (isQuote c || byte_eqb c ")").
Definition isDot (c : ascii) : bool := byte_eqb c ".".
Definition isS (c : ascii) : bool := byte_eqb c "s".

(** What a pattern means, without the search order: [sem r w c c']
    holds when [r] matches exactly the text [w] and turns the
    submatches [c] into [c']. *)
Inductive sem : Regexp -> list ascii -> list (list ascii) -> list (list ascii) -> Prop :=
| sem_Lit l c : sem (Lit l) l c c
| sem_Rep cls mn mx w c :
    Forall (fun x => cls x = true) w ->
    mn <= length w ->
    (forall n, mx = Some n -> length w <= n) ->
    sem (Rep cls mn mx) w c c
| sem_Seq r1 r2 w1 w2 c c1 c2 :
    sem r1 w1 c c1 -> sem r2 w2 c1 c2 -> sem (Seq r1 r2) (w1 ++ w2) c c2
| sem_Cap i r w c c1 :
    sem r w c c1 -> sem (Cap i r) w c (<[i := w]> c1).

(** No match starts at a position of [pre] in [pre ++ tail]. *)
Fixpoint unmatched (re : Regexp) (pre tail : list ascii) : Prop :=
  match pre with
  | [] => True
  | _ :: pre' => match_at re (pre ++ tail) = None /\ unmatched re pre' tail
  end.

(** A greedy repetition of [cls] cannot go on at the start of [s]. *)
Definition stops (cls : ascii -> bool) (s : list ascii) : Prop :=
  match s with
  | [] => True
  | x :: _ => cls x = false
  end.

(** The least length of a match. *)
Fixpoint minLen (r : Regexp) : nat :=
  match r with
  | Lit l => length l
  | Rep _ mn _ => mn
  | Seq r1 r2 => minLen r1 + minLen r2
  | Cap _ r1 => minLen r1
  end.

(** Keeps the results that leave at least [rest] unread, with [rest]
    taken off. *)
Definition unliftS (rest s' : list ascii) : option (list ascii) :=
  if length rest <=? length s'
  then Some (take (length s' - length rest) s')
  else None.

Definition unlift (rest : list ascii) (x : list ascii * list (list ascii))
  : option (list ascii * list (list ascii)) :=
  match unliftS rest (fst x) with
  | Some s' => Some (s', snd x)
  | None => None
  end.

End regexp.

Declare Scope regexp_scope.
Delimit Scope regexp_scope with re.
Bind Scope regexp_scope with regexp.Regexp.
Infix "·" := regexp.Seq (at level 60, right associativity) : regexp_scope.

(** ** [net/textproto] and [net/http] headers *)

Abbreviation Header := (gmap (list ascii) (list (list ascii))).

Definition validHeaderFieldByte (c : ascii) : bool :=
  isAlnum c || existsb (byte_eqb c) (bs "!#$%&'*+-.^_`|~").

(** First letter and every letter after a dash in upper case, the
    others in lower case. *)
Fixpoint canonicalize (upper : bool) (s : list ascii) : list ascii :=
  match s with
  | [] => []
  | c :: s' =>
      let c' := if upper then upperASCII c else lowerASCII c in
      c' :: canonicalize (byte_eqb c' "-") s'
  end.

(** [textproto.CanonicalMIMEHeaderKey]: a key with a byte that is not
    allowed in a header name is left as it is. *)
Definition CanonicalMIMEHeaderKey (s : list ascii) : list ascii :=
  if forallb validHeaderFieldByte s then canonicalize true s else s.

(** [h.Add(key, value)] *)
Definition Header_Add (h : Header) (key value : list ascii) : Header :=
  let k := CanonicalMIMEHeaderKey key in
  <[k := default [] (h !! k) ++ [value]]> h.

(** [h.Get(key)] *)
Definition Header_Get (h : Header) (key : list ascii) : list ascii :=
  match h !! CanonicalMIMEHeaderKey key with
  | Some (v :: _) => v
  | _ => []
  end.

(** [url.Values.Get(key)] *)
Definition Values_Get (v : Header) (key : list ascii) : list ascii :=
  match v !! key with
  | Some (x :: _) => x
  | _ => []
  end.

(** ** The data of a request *)

Record Request := {
  Method : list ascii;
  URL_Path : list ascii;            (* r.URL.Path *)
  URL_RawQuery : list ascii;        (* r.URL.RawQuery *)
  ReqHeader : Header;               (* r.Header *)
  ReqHost : list ascii;             (* r.Host *)
  TLS : bool;                       (* r.TLS != nil *)
  ReqBody : list ascii              (* r.Body *)
}.

(** The body of an upstream response is a stream: the bytes it
    delivers and whether it then ends with an error instead of EOF. *)
Record BodyStream := { delivered : list ascii; broken : bool }.

Record Response := {
  StatusCode : Z;
  RespHeader : Header;
  Body : BodyStream
}.

(** The request sent upstream. *)
Record OutRequest := {
  oMethod : list ascii;
  oURL : list ascii;
  oHeader : Header;
  oBody : list ascii
}.

(** What the handler does with its [http.ResponseWriter]: either one
    call of [http.Error(w, msg, code)], or the headers it added, the
    status it wrote and the body it wrote.  Of a message that the
    source completes with [err.Error()] only the fixed part is kept. *)
Inductive Reply :=
| HttpError (msg : list ascii) (code : Z)
| Written (hdr : Header) (status : Z) (body : list ascii).

Definition status_of (rp : Reply) : Z :=
  match rp with
  | HttpError _ code => code
  | Written _ status _ => status
  end.

Definition StatusBadRequest : Z := 400.
Definition StatusInternalServerError : Z := 500.

(** [io.ReadAll(body)] *)
Definition io_ReadAll (b : BodyStream) : option (list ascii) :=
  if broken b then None else Some (delivered b).

(** ** [golang.org/x/net/html] nodes *)

Inductive NodeType :=
| ErrorNode | TextNode | DocumentNode | ElementNode | CommentNode
| DoctypeNode | RawNode.

Definition NodeType_eqb (a b : NodeType) : bool :=
  match a, b with
  | ErrorNode, ErrorNode | TextNode, TextNode | DocumentNode, DocumentNode
  | ElementNode, ElementNode | CommentNode, CommentNode
  | DoctypeNode, DoctypeNode | RawNode, RawNode => true
  | _, _ => false
  end.

Record Attribute := {
  Namespace : list ascii;
  Key : list ascii;
  Val : list ascii
}.

#[local] Set Warnings "-register-all".

(** A node with its children in document order (the sibling and parent
    pointers of [html.Node] are this tree). *)
Inductive Node :=
| mkNode (type : NodeType) (data : list ascii) (namespace : list ascii)
         (attr : list Attribute) (children : list Node).

Definition Type_ (n : Node) : NodeType := let (t, _, _, _, _) := n in t.
Definition Data (n : Node) : list ascii := let (_, d, _, _, _) := n in d.
Definition Attr (n : Node) : list Attribute := let (_, _, _, a, _) := n in a.
Definition Children (n : Node) : list Node := let (_, _, _, _, c) := n in c.

(** The node reached from [n] by following child positions. *)
Fixpoint subnode (path : list nat) (n : Node) : option Node :=
  match path with
  | [] => Some n
  | i :: path' =>
      match Children n !! i with
      | Some c => subnode path' c
      | None => None
      end
  end.

(** ** The patterns of the rewriters *)

Import regexp.

(** No quote, a double quote, or a single quote. *)
Definition quoteOrNone (q : list ascii) : Prop :=
  q = [] \/ (q = [dquote] \/ q = [squote]).

(** [urlRegex] of [rewriteCSS]: the text url and an opening
    parenthesis, white space, group 1 an optional quote, group 2 one
    or more characters other than a quote or a closing parenthesis,
    group 3 an optional quote, white space, a closing parenthesis. *)
Definition urlRegex : Regexp :=
  (Lit (bs "url(") · Rep isSpace 0 None
   · Cap 1 (Rep isQuote 0 (Some 1))
   · Cap 2 (Rep notQuoteParen 1 None)
   · Cap 3 (Rep isQuote 0 (Some 1))
   · Rep isSpace 0 None · Lit (bs ")"))%re.

(** [importRegex] of [rewriteCSS]: the text @import, at least one
    white space, group 1 a quote, group 2 one or more characters other
    than a quote, group 3 a quote. *)
Definition importRegex : Regexp :=
  (Lit (bs "@import") · Rep isSpace 1 None
   · Cap 1 (Rep isQuote 1 (Some 1))
   · Cap 2 (Rep notQuote 1 None)
   · Cap 3 (Rep isQuote 1 (Some 1)))%re.

(** [absRegex] of [rewriteJS]: group 1 a quote, group 2 the text
    http, an optional s, the text ://, and one or more characters
    other than a quote, group 3 a quote. *)
Definition absRegex : Regexp :=
  (Cap 1 (Rep isQuote 1 (Some 1))
   · Cap 2 (Lit (bs "http") · Rep isS 0 (Some 1) · Lit (bs "://")
            · Rep notQuote 1 None)
   · Cap 3 (Rep isQuote 1 (Some 1)))%re.

(** [relImportRegex] of [rewriteJS]: the text import and an opening
    parenthesis, white space, group 1 a quote, group 2 one or two
    dots, a slash and one or more characters other than a quote,
    group 3 a quote. *)
Definition relImportRegex : Regexp :=
  (Lit (bs "import(") · Rep isSpace 0 None
   · Cap 1 (Rep isQuote 1 (Some 1))
   · Cap 2 (Rep isDot 1 (Some 2) · Lit (bs "/") · Rep notQuote 1 None)
   · Cap 3 (Rep isQuote 1 (Some 1)))%re.

(** [staticImportRegex] of [rewriteJS]: the text from, white space,
    then the three groups of [relImportRegex]. *)
Definition staticImportRegex : Regexp :=
  (Lit (bs "from") · Rep isSpace 0 None
   · Cap 1 (Rep isQuote 1 (Some 1))
   · Cap 2 (Rep isDot 1 (Some 2) · Lit (bs "/") · Rep notQuote 1 None)
   · Cap 3 (Rep isQuote 1 (Some 1)))%re.

(** [urlFuncRegex] of [rewriteJS]: the text URL and an opening
    parenthesis, white space, group 1 a quote, group 2 a slash and any
    number of characters other than a quote, group 3 a quote, white
    space, a closing parenthesis. *)
Definition urlFuncRegex : Regexp :=
  (Lit (bs "URL(") · Rep isSpace 0 None
   · Cap 1 (Rep isQuote 1 (Some 1))
   · Cap 2 (Lit (bs "/") · Rep notQuote 0 None)
   · Cap 3 (Rep isQuote 1 (Some 1))
   · Rep isSpace 0 None · Lit (bs ")"))%re.

(** ** Stand-ins for the parameters

    Small functions to run the program on examples.  They are not
    models of the Go libraries: [Sample.url_Parse] knows a scheme, an
    optional authority and the rest; [Sample.URL_Parse] resolves
    references that have a scheme, to themselves, and absolute paths,
    against the scheme and host of the base, and reports every other
    reference as an error; the HTML parser makes one text node of its
    input. *)

Module Sample.

Record URL := {
  Scheme : list ascii;
  Slashes : bool;                 (* the scheme is followed by // *)
  Host : list ascii;
  Tail : list ascii               (* path, query and fragment, or opaque part *)
}.

Definition isCTL (c : ascii) : bool :=
  (N_of_ascii c <? 32)%N || (N_of_ascii c =? 127)%N.

Definition isSchemeChar (c : ascii) : bool :=
  isAlnum c || existsb (byte_eqb c) (bs "+-.").

(** The scheme before the first colon, if the text starts with one. *)
Fixpoint getScheme (acc s : list ascii) : option (list ascii * list ascii) :=
  match s with
  | c :: s' =>
      if byte_eqb c ":" then
        match acc with [] => None | _ => Some (rev acc, s') end
      else if isSchemeChar c then getScheme (c :: acc) s'
      else None
  | [] => None
  end.

(** The host, up to the next slash, question mark or hash. *)
Fixpoint getHost (acc s : list ascii) : list ascii * list ascii :=
  match s with
  | c :: s' =>
      if existsb (byte_eqb c) (bs "/?#") then (rev acc, s)
      else getHost (c :: acc) s'
  | [] => (rev acc, [])
  end.

Definition url_Parse (s : list ascii) : option URL :=
  if existsb isCTL s then None
  else
    match getScheme [] s with
    | Some (scheme, rest) =>
        if HasPrefix rest (bs "//") then
          let (host, tail) := getHost [] (drop 2 rest) in
          Some {| Scheme := scheme; Slashes := true; Host := host; Tail := tail |}
        else
          Some {| Scheme := scheme; Slashes := false; Host := []; Tail := rest |}
    | None => Some {| Scheme := []; Slashes := false; Host := []; Tail := s |}
    end.

Definition URL_String (u : URL) : list ascii :=
  match Scheme u with
  | [] => Tail u
  | _ => Scheme u ++ bs ":" ++ (if Slashes u then bs "//" ++ Host u else []) ++ Tail u
  end.

Definition URL_Parse (base : URL) (ref : list ascii) : option URL :=
  match url_Parse ref with
  | None => None
  | Some r =>
      match Scheme r with
      | _ :: _ => Some r
      | [] =>
          if HasPrefix ref (bs "//") then None
          else if HasPrefix ref (bs "/") then
            Some {| Scheme := Scheme base; Slashes := Slashes base;
                    Host := Host base; Tail := ref |}
          else None
      end
  end.

(** Splitting a query string at the ampersands and at the first equals
    sign of each part, without unescaping. *)
Fixpoint splitOn (sep : ascii) (acc s : list ascii) : list (list ascii) :=
  match s with
  | c :: s' =>
      if byte_eqb c sep then rev acc :: splitOn sep [] s'
      else splitOn sep (c :: acc) s'
  | [] => [rev acc]
  end.

Fixpoint cutAt (sep : ascii) (acc s : list ascii) : list ascii * list ascii :=
  match s with
  | c :: s' => if byte_eqb c sep then (rev acc, s') else cutAt sep (c :: acc) s'
  | [] => (rev acc, [])
  end.

Definition URL_Query (raw : list ascii) : gmap (list ascii) (list (list ascii)) :=
  foldl (fun (m : gmap (list ascii) (list (list ascii))) part =>
           match part with
           | [] => m
           | _ => let (k, v) := cutAt "=" [] part in
                  <[k := default [] (m !! k) ++ [v]]> m
           end)
        ∅ (splitOn "&" [] raw).

Definition unicode_ToLower (s : list ascii) : list ascii := map lowerASCII s.

Definition html_Parse (s : list ascii) : option Node :=
  Some (mkNode DocumentNode [] [] [] [mkNode TextNode s [] [] []]).

Fixpoint html_text (n : Node) : list ascii :=
  match n with
  | mkNode _ data _ _ children => data ++ concat (map html_text children)
  end.

Definition html_Render (n : Node) : option (list ascii) := Some (html_text n).

Definition http_NewRequest (method url : list ascii) : bool := true.

(** An upstream that gives the same answer to every request. *)
Definition upstream (answer : option Response) : OutRequest -> option Response :=
  fun _ => answer.

Definition range (h : gmap (list ascii) (list (list ascii)))
  : list (list ascii * list (list ascii)) := map_to_list h.

(** The proxy is reached at http://proxy.test and the page comes from
    https://example.org/a/b. *)
Definition origin : list ascii := bs "http://proxy.test".
Definition base : URL :=
  {| Scheme := bs "https"; Slashes := true; Host := bs "example.org";
     Tail := bs "/a/b" |}.

End Sample.

(** ** The program

    [Env] gathers the library functions that are not modelled:
    [net/url], Unicode case mapping, the HTML parser and printer, the
    HTTP client, and the order in which Go visits the entries of a
    map. *)

Class Env := {
  URL : Type;                                     (* *url.URL *)
  url_Parse : list ascii -> option URL;           (* url.Parse(s) *)
  URL_Scheme : URL -> list ascii;                 (* u.Scheme *)
  URL_Host : URL -> list ascii;                   (* u.Host *)
  URL_Parse : URL -> list ascii -> option URL;    (* u.Parse(ref) *)
  URL_String : URL -> list ascii;                 (* u.String() *)
  URL_Query : list ascii -> Header;               (* r.URL.Query() *)
  unicode_ToLower : list ascii -> list ascii;
    (* strings.Map(unicode.ToLower, s), for a string that is not all ASCII *)
  html_Parse : list ascii -> option Node;         (* html.Parse *)
  html_Render : Node -> option (list ascii);      (* html.Render *)
  http_NewRequest : list ascii -> list ascii -> bool;
    (* whether http.NewRequest(method, url, body) succeeds *)
  client_Do : OutRequest -> option Response;      (* http.DefaultClient.Do *)
  range : Header -> list (list ascii * list (list ascii));
    (* the entries of a map in the order one range loop visits them *)
  range_visits : forall h : Header, range h ≡ₚ map_to_list h
    (* a range loop visits every entry of the map once *)
}.

Section Proxy.

Context {env : Env}.

(** [strings.ToLower] *)
Definition ToLower (s : list ascii) : list ascii :=
  if forallb isASCII s then map lowerASCII s else unicode_ToLower s.

(** [base64.URLEncoding.EncodeToString([]byte(resolved.String()))] *)
Definition encoded (resolved : URL) : list ascii :=
  base64.EncodeToString base64.URLEncoding (URL_String resolved).

(** *** rewrite.go: [rewriteCSS] *)

Definition cssUrlRepl (base : URL) (origin match_ : list ascii) : list ascii :=
  let submatches := FindStringSubmatch urlRegex match_ in
  if length submatches <? 3 then match_
  else
    let quote := nth 1 submatches [] in
    let urlPart := nth 2 submatches [] in
    match URL_Parse base urlPart with
    | None => match_
    | Some resolved =>
        bs "url(" ++ quote ++ origin ++ bs "/" ++ encoded resolved
          ++ bs "?browse=1" ++ quote ++ bs ")"
    end.

Definition cssImportRepl (base : URL) (origin match_ : list ascii) : list ascii :=
  let submatches := FindStringSubmatch importRegex match_ in
  if length submatches <? 3 then match_
  else
    let quote := nth 1 submatches [] in
    let urlPart := nth 2 submatches [] in
    match URL_Parse base urlPart with
    | None => match_
    | Some resolved =>
        bs "@import " ++ quote ++ origin ++ bs "/" ++ encoded resolved
          ++ bs "?browse=1" ++ quote
    end.

(** The two passes of [rewriteCSS]. *)
Definition cssUrlPass (base : URL) (origin text : list ascii) : list ascii :=
  ReplaceAllStringFunc urlRegex text (cssUrlRepl base origin).
Definition cssImportPass (base : URL) (origin text : list ascii) : list ascii :=
  ReplaceAllStringFunc importRegex text (cssImportRepl base origin).

Definition rewriteCSS (content : list ascii) (base : URL) (origin : list ascii)
  : option (list ascii) :=
  let text := content in
  (* Rewrite url(...) references. *)
  let text := cssUrlPass base origin text in
  (* Rewrite @import statements. *)
  let text := cssImportPass base origin text in
  Some text.

(** *** rewrite.go: [rewriteJS] *)

Definition jsAbsRepl (base : URL) (origin match_ : list ascii) : list ascii :=
  let submatches := FindStringSubmatch absRegex match_ in
  if length submatches <? 4 then match_
  else
    let openQuote := nth 1 submatches [] in
    let urlPart := nth 2 submatches [] in
    let closeQuote := nth 3 submatches [] in
    match URL_Parse base urlPart with
    | None => match_
    | Some resolved =>
        openQuote ++ origin ++ bs "/" ++ encoded resolved ++ bs "?browse=1"
          ++ closeQuote
    end.

Definition jsRelImportRepl (base : URL) (origin match_ : list ascii) : list ascii :=
  let submatches := FindStringSubmatch relImportRegex match_ in
  if length submatches <? 4 then match_
  else
    let openQuote := nth 1 submatches [] in
    let relPath := nth 2 submatches [] in
    let closeQuote := nth 3 submatches [] in
    match URL_Parse base relPath with
    | None => match_
    | Some resolved =>
        bs "import(" ++ openQuote ++ origin ++ bs "/" ++ encoded resolved
          ++ bs "?browse=1" ++ closeQuote
    end.

Definition jsStaticImportRepl (base : URL) (origin match_ : list ascii) : list ascii :=
  let submatches := FindStringSubmatch staticImportRegex match_ in
  if length submatches <? 4 then match_
  else
    let openQuote := nth 1 submatches [] in
    let importPath := nth 2 submatches [] in
    let closeQuote := nth 3 submatches [] in
    match URL_Parse base importPath with
    | None => match_
    | Some resolved =>
        let newURL := origin ++ bs "/" ++ encoded resolved ++ bs "?browse=1" in
        bs "from " ++ openQuote ++ newURL ++ closeQuote
    end.

Definition jsUrlFuncRepl (origin match_ : list ascii) : list ascii :=
  let submatches := FindStringSubmatch urlFuncRegex match_ in
  if length submatches <? 4 then match_
  else
    let openQuote := nth 1 submatches [] in
    let relPath := nth 2 submatches [] in
    let closeQuote := nth 3 submatches [] in
    bs "URL(" ++ openQuote ++ origin ++ relPath ++ closeQuote ++ bs ")".

(** The four passes of [rewriteJS]. *)
Definition jsAbsPass (base : URL) (origin text : list ascii) : list ascii :=
  ReplaceAllStringFunc absRegex text (jsAbsRepl base origin).
Definition jsRelImportPass (base : URL) (origin text : list ascii) : list ascii :=
  ReplaceAllStringFunc relImportRegex text (jsRelImportRepl base origin).
Definition jsStaticImportPass (base : URL) (origin text : list ascii) : list ascii :=
  ReplaceAllStringFunc staticImportRegex text (jsStaticImportRepl base origin).
Definition jsUrlFuncPass (origin text : list ascii) : list ascii :=
  ReplaceAllStringFunc urlFuncRegex text (jsUrlFuncRepl origin).

Definition rewriteJS (content : list ascii) (base : URL) (origin : list ascii)
  : option (list ascii) :=
  let text := content in
  (* string literals starting with http or https *)
  let text := jsAbsPass base origin text in
  (* Rewrite dynamic imports with relative paths. *)
  let text := jsRelImportPass base origin text in
  (* Rewrite static import statements *)
  let text := jsStaticImportPass base origin text in
  (* Rewrite URL function calls *)
  let text := jsUrlFuncPass origin text in
  Some text.

(** *** rewrite.go: [rewriteHTML] *)

(** Attributes to rewrite. *)
Definition rewriteAttrs : gmap (list ascii) bool :=
  <[bs "href" := true]> (<[bs "src" := true]> (<[bs "action" := true]>
    (<[bs "formaction" := true]> ∅))).

(** [rewriteAttrs[strings.ToLower(key)]]; a missing key reads [false]. *)
Definition inRewriteSet (key : list ascii) : bool :=
  default false (rewriteAttrs !! ToLower key).

(** One turn of the loop over [n.Attr]. *)
Definition rewriteAttr (base : URL) (origin : list ascii) (attr : Attribute)
  : Attribute :=
  if inRewriteSet (Key attr) then
    (* Do not rewrite data URIs. *)
    if HasPrefix (Val attr) (bs "data:") then attr
    else
      (* Resolve attribute value relative to the base URL. *)
      match URL_Parse base (Val attr) with
      | Some resolved =>
          {| Namespace := Namespace attr; Key := Key attr;
             Val := origin ++ bs "/" ++ encoded resolved ++ bs "?browse=1" |}
      | None => attr
      end
  else attr.

Definition hasSrc (attrs : list Attribute) : bool :=
  existsb (fun attr => bytes_eqb (ToLower (Key attr)) (bs "src")) attrs.

(** [traverse].  [inScript] tells that the parent is an inline script
    element, whose loop over its children rewrites the text of this
    node, if it is a text node, before the node is visited. *)
Fixpoint traverse (base : URL) (origin : list ascii) (inScript : bool) (n : Node)
  : Node :=
  match n with
  | mkNode type data namespace attr children =>
      let data :=
        if inScript && NodeType_eqb type TextNode then
          match rewriteJS data base origin with
          | Some rewritten => rewritten
          | None => data
          end
        else data in
      if NodeType_eqb type ElementNode then
        let inline := bytes_eqb data (bs "script") && negb (hasSrc attr) in
        mkNode type data namespace (map (rewriteAttr base origin) attr)
               (map (traverse base origin inline) children)
      else
        mkNode type data namespace attr (map (traverse base origin false) children)
  end.

Definition rewriteHTML (htmlContent : list ascii) (base : URL) (origin : list ascii)
  : option (list ascii) :=
  match html_Parse htmlContent with
  | None => None
  | Some doc =>
      (* Render the modified HTML back to bytes. *)
      html_Render (traverse base origin false doc)
  end.

(** *** The handler with rewriting ([proxyHandler], second variant) *)

(** Copy all headers except Host, and Accept-Encoding when browsing:
    the loop over [r.Header], into the empty header of the new
    request. *)
Definition forwardHeaders (browseEnabled : bool) (h : Header) : Header :=
  foldl (fun (out : Header) (entry : list ascii * list (list ascii)) =>
           let key := fst entry in
           let keyLower := ToLower key in
           if bytes_eqb keyLower (bs "host") then out
           else if browseEnabled && bytes_eqb keyLower (bs "accept-encoding") then out
           else foldl (fun (out : Header) value => Header_Add out key value)
                      out (snd entry))
        ∅ (range h).

(** [copyHeaders]: the loop over [resp.Header], into the header of
    the response writer, empty until then. *)
Definition copyHeaders (browseEnabled : bool) (h : Header) : Header :=
  foldl (fun (out : Header) (entry : list ascii * list (list ascii)) =>
           let key := fst entry in
           if browseEnabled && bytes_eqb (ToLower key) (bs "content-length") then out
           else foldl (fun (out : Header) value => Header_Add out key value)
                      out (snd entry))
        ∅ (range h).

(** The end of the handler, from the upstream response on. *)
Definition respond (browseEnabled : bool) (parsedURL : URL) (origin : list ascii)
           (resp : Response) : Reply :=
  (* Conditionally rewrite content if browsing is enabled. *)
  let contentType := Header_Get (RespHeader resp) (bs "Content-Type") in
  if browseEnabled && HasPrefix contentType (bs "text/html") then
    match io_ReadAll (Body resp) with
    | None => HttpError (bs "Error reading upstream HTML") StatusInternalServerError
    | Some bodyBytes =>
        match rewriteHTML bodyBytes parsedURL origin with
        | None => HttpError (bs "Error rewriting HTML: ") StatusInternalServerError
        | Some rewritten =>
            Written (copyHeaders browseEnabled (RespHeader resp))
                    (StatusCode resp) rewritten
        end
    end
  else if browseEnabled && HasPrefix contentType (bs "text/css") then
    match io_ReadAll (Body resp) with
    | None => HttpError (bs "Error reading upstream CSS") StatusInternalServerError
    | Some bodyBytes =>
        match rewriteCSS bodyBytes parsedURL origin with
        | None => HttpError (bs "Error rewriting CSS: ") StatusInternalServerError
        | Some rewritten =>
            Written (copyHeaders browseEnabled (RespHeader resp))
                    (StatusCode resp) rewritten
        end
    end
  else if browseEnabled
          && (HasPrefix contentType (bs "application/javascript")
              || HasPrefix contentType (bs "text/javascript")) then
    match io_ReadAll (Body resp) with
    | None =>
        HttpError (bs "Error reading upstream JavaScript") StatusInternalServerError
    | Some bodyBytes =>
        match rewriteJS bodyBytes parsedURL origin with
        | None => HttpError (bs "Error rewriting JavaScript: ") StatusInternalServerError
        | Some rewritten =>
            Written (copyHeaders browseEnabled (RespHeader resp))
                    (StatusCode resp) rewritten
        end
    end
  else
    (* For non-rewritten content, simply copy the response headers and
       stream the body; an error of the copy is only logged. *)
    Written (copyHeaders browseEnabled (RespHeader resp))
            (StatusCode resp) (delivered (Body resp)).

(** Determine if the browse query parameter is set. *)
Definition browseEnabled (r : Request) : bool :=
  negb (bytes_eqb (Values_Get (URL_Query (URL_RawQuery r)) (bs "browse")) []).

(** Build the proxy origin. *)
Definition proxyOrigin (r : Request) : list ascii :=
  if TLS r then bs "https://" ++ ReqHost r else bs "http://" ++ ReqHost r.

(** The request sent upstream. *)
Definition upstreamRequest (r : Request) (upstreamURL : list ascii) : OutRequest :=
  {| oMethod := Method r; oURL := upstreamURL;
     oHeader := forwardHeaders (browseEnabled r) (ReqHeader r);
     oBody := ReqBody r |}.

Definition proxyHandler (r : Request) : Reply :=
  (* Expect the encoded URL in the first path segment. *)
  let encodedURL := TrimPrefix (URL_Path r) (bs "/") in
  if bytes_eqb encodedURL [] then
    HttpError (bs "Missing encoded URL") StatusBadRequest
  else
    (* Decode the base64-encoded URL. *)
    match base64.DecodeString base64.URLEncoding encodedURL with
    | None => HttpError (bs "Invalid base64 encoding: ") StatusBadRequest
    | Some upstreamURL =>
        (* Validate the upstream URL. *)
        match url_Parse upstreamURL with
        | None => HttpError (bs "Invalid upstream URL") StatusBadRequest
        | Some parsedURL =>
            if bytes_eqb (URL_Scheme parsedURL) []
               || bytes_eqb (URL_Host parsedURL) [] then
              HttpError (bs "Invalid upstream URL") StatusBadRequest
            else if negb (http_NewRequest (Method r) upstreamURL) then
              HttpError (bs "Failed to create upstream request: ")
                        StatusInternalServerError
            else
              (* Send the request upstream. *)
              match client_Do (upstreamRequest r upstreamURL) with
              | None =>
                  HttpError (bs "Upstream request failed: ")
                            StatusInternalServerError
              | Some resp =>
                  respond (browseEnabled r) parsedURL (proxyOrigin r) resp
              end
        end
    end.

(** *** The plain handler ([proxyHandler] of main.go) *)

(** Copy all headers except Host. *)
Definition forwardHeaders_plain (h : Header) : Header :=
  foldl (fun (out : Header) (entry : list ascii * list (list ascii)) =>
           let key := fst entry in
           if bytes_eqb (ToLower key) (bs "host") then out
           else foldl (fun (out : Header) value => Header_Add out key value)
                      out (snd entry))
        ∅ (range h).

(** Copy upstream response headers. *)
Definition copyHeaders_plain (h : Header) : Header :=
  foldl (fun (out : Header) (entry : list ascii * list (list ascii)) =>
           foldl (fun (out : Header) value => Header_Add out (fst entry) value)
                 out (snd entry))
        ∅ (range h).

Definition proxyHandler_plain (r : Request) : Reply :=
  let encodedURL := TrimPrefix (URL_Path r) (bs "/") in
  if bytes_eqb encodedURL [] then
    HttpError (bs "Missing encoded URL") StatusBadRequest
  else
    match base64.DecodeString base64.StdEncoding encodedURL with
    | None => HttpError (bs "Invalid base64 encoding: ") StatusBadRequest
    | Some upstreamURL =>
        match url_Parse upstreamURL with
        | None => HttpError (bs "Invalid upstream URL") StatusBadRequest
        | Some parsedURL =>
            if bytes_eqb (URL_Scheme parsedURL) []
               || bytes_eqb (URL_Host parsedURL) [] then
              HttpError (bs "Invalid upstream URL") StatusBadRequest
            else if negb (http_NewRequest (Method r) upstreamURL) then
              HttpError (bs "Failed to create upstream request: ")
                        StatusInternalServerError
            else
              match client_Do {| oMethod := Method r; oURL := upstreamURL;
                                 oHeader := forwardHeaders_plain (ReqHeader r);
                                 oBody := ReqBody r |} with
              | None =>
                  HttpError (bs "Upstream request failed: ")
                            StatusInternalServerError
              | Some resp =>
                  Written (copyHeaders_plain (RespHeader resp))
                          (StatusCode resp) (delivered (Body resp))
              end
        end
    end.

(** *** Headers as the server and the client hand them over

    The keys of [r.Header] and of [resp.Header] are in canonical form
    and every key present has at least one value. *)
Definition canonicalHeader (h : Header) : Prop :=
  forall k vs, h !! k = Some vs -> CanonicalMIMEHeaderKey k = k /\ vs <> [].

(** The same, as a test on the entries of the map. *)
Definition canonicalHeaderb (h : Header) : bool :=
  forallb (fun entry : list ascii * list (list ascii) =>
             bytes_eqb (CanonicalMIMEHeaderKey (fst entry)) (fst entry)
             && negb (Nat.eqb (length (snd entry)) 0))
          (map_to_list h).

(** The request headers the handler does not forward. *)
Definition requestHeaderDropped (browseEnabled : bool) (key : list ascii) : bool :=
  bytes_eqb (ToLower key) (bs "host")
  || browseEnabled && bytes_eqb (ToLower key) (bs "accept-encoding").

(** The response headers the handler does not forward. *)
Definition responseHeaderDropped (browseEnabled : bool) (key : list ascii) : bool :=
  browseEnabled && bytes_eqb (ToLower key) (bs "content-length").

(** The loop that copies the entries whose key [skip] does not hold
    of. *)
Definition copyExcept (skip : list ascii -> bool) (out : Header)
           (entries : list (list ascii * list (list ascii))) : Header :=
  foldl (fun (out : Header) (entry : list ascii * list (list ascii)) =>
           if skip (fst entry) then out
           else foldl (fun (out : Header) value => Header_Add out (fst entry) value)
                      out (snd entry))
        out entries.

(** *** The classifier of the specification

    The strategy of the specification's Content Classifier.  The
    handler has no such function; [Strategy] names the four branches
    of [respond]. *)

Inductive Strategy := PassThrough | RewriteHtml | RewriteCss | RewriteJs.

(** The branch [respond] takes, read off its conditions. *)
Definition classify (contentType : list ascii) (rewrite_mode : bool) : Strategy :=
  if rewrite_mode && HasPrefix contentType (bs "text/html") then RewriteHtml
  else if rewrite_mode && HasPrefix contentType (bs "text/css") then RewriteCss
  else if rewrite_mode
          && (HasPrefix contentType (bs "application/javascript")
              || HasPrefix contentType (bs "text/javascript")) then RewriteJs
  else PassThrough.

(** What each strategy does with the response. *)
Definition respond_by (st : Strategy) (browseEnabled : bool) (parsedURL : URL)
           (origin : list ascii) (resp : Response) : Reply :=
  let rewritten_reply (what : list ascii) (rewrite : list ascii -> option (list ascii)) :=
    match io_ReadAll (Body resp) with
    | None => HttpError (bs "Error reading upstream " ++ what) StatusInternalServerError
    | Some bodyBytes =>
        match rewrite bodyBytes with
        | None => HttpError (bs "Error rewriting " ++ what ++ bs ": ")
                            StatusInternalServerError
        | Some rewritten =>
            Written (copyHeaders browseEnabled (RespHeader resp))
                    (StatusCode resp) rewritten
        end
    end in
  match st with
  | RewriteHtml =>
      rewritten_reply (bs "HTML") (fun b => rewriteHTML b parsedURL origin)
  | RewriteCss =>
      rewritten_reply (bs "CSS") (fun b => rewriteCSS b parsedURL origin)
  | RewriteJs =>
      rewritten_reply (bs "JavaScript") (fun b => rewriteJS b parsedURL origin)
  | PassThrough =>
      Written (copyHeaders browseEnabled (RespHeader resp))
              (StatusCode resp) (delivered (Body resp))
  end.

(** Case-insensitive prefix match, as the specification words the
    classifier. *)
Definition HasPrefixFold (s prefix : list ascii) : bool :=
  HasPrefix (map lowerASCII s) (map lowerASCII prefix).

Definition classify_spec (contentType : list ascii) (rewrite_mode : bool) : Strategy :=
  if negb rewrite_mode then PassThrough
  else if HasPrefixFold contentType (bs "text/html") then RewriteHtml
  else if HasPrefixFold contentType (bs "text/css") then RewriteCss
  else if HasPrefixFold contentType (bs "application/javascript")
          || HasPrefixFold contentType (bs "text/javascript") then RewriteJs
  else PassThrough.

(** *** The runs of the handler, for the statements about status codes *)

(** The encoded URL in the first path segment. *)
Definition encodedTarget (r : Request) : list ascii :=
  TrimPrefix (URL_Path r) (bs "/").

(** The encoded target is missing, does not decode, or decodes to a
    URL that does not parse or has an empty scheme or an empty host. *)
Definition targetInvalid (r : Request) : Prop :=
  encodedTarget r = []
  \/ base64.DecodeString base64.URLEncoding (encodedTarget r) = None
  \/ (exists u, base64.DecodeString base64.URLEncoding (encodedTarget r) = Some u
                /\ url_Parse u = None)
  \/ (exists u p, base64.DecodeString base64.URLEncoding (encodedTarget r) = Some u
                  /\ url_Parse u = Some p
                  /\ (URL_Scheme p = [] \/ URL_Host p = [])).

(** The request has the valid target [u], which parses to [p]. *)
Definition targetOf (r : Request) (u : list ascii) (p : URL) : Prop :=
  encodedTarget r <> []
  /\ base64.DecodeString base64.URLEncoding (encodedTarget r) = Some u
  /\ url_Parse u = Some p
  /\ URL_Scheme p <> [] /\ URL_Host p <> [].

(** The rewriter of a strategy. *)
Definition rewriterOf (st : Strategy) (body : list ascii) (p : URL)
           (origin : list ascii) : option (list ascii) :=
  match st with
  | RewriteHtml => rewriteHTML body p origin
  | RewriteCss => rewriteCSS body p origin
  | RewriteJs => rewriteJS body p origin
  | PassThrough => Some body
  end.

(** The strategy the handler follows for a response. *)
Definition strategyFor (r : Request) (resp : Response) : Strategy :=
  classify (Header_Get (RespHeader resp) (bs "Content-Type")) (browseEnabled r).

(** Under a rewrite strategy, reading the whole body fails or the
    rewriter fails. *)
Definition bufferedFailure (r : Request) (p : URL) (resp : Response) : Prop :=
  strategyFor r resp <> PassThrough
  /\ (io_ReadAll (Body resp) = None
      \/ exists b, io_ReadAll (Body resp) = Some b
                   /\ rewriterOf (strategyFor r resp) b p (proxyOrigin r) = None).

(** Building the upstream request fails, the upstream transport
    fails, or the buffered read or the rewrite fails. *)
Definition serverFailure (r : Request) : Prop :=
  exists u p,
    targetOf r u p
    /\ (http_NewRequest (Method r) u = false
        \/ (http_NewRequest (Method r) u = true
            /\ client_Do (upstreamRequest r u) = None)
        \/ (exists resp,
              http_NewRequest (Method r) u = true
              /\ client_Do (upstreamRequest r u) = Some resp
              /\ bufferedFailure r p resp)).

(** *** The runs of the plain handler *)

(** The request the plain handler sends upstream. *)
Definition upstreamRequest_plain (r : Request) (upstreamURL : list ascii)
  : OutRequest :=
  {| oMethod := Method r; oURL := upstreamURL;
     oHeader := forwardHeaders_plain (ReqHeader r);
     oBody := ReqBody r |}.

(** For the plain handler the request has the valid target [u], which
    parses to [p]. *)
Definition targetOf_plain (r : Request) (u : list ascii) (p : URL) : Prop :=
  encodedTarget r <> []
  /\ base64.DecodeString base64.StdEncoding (encodedTarget r) = Some u
  /\ url_Parse u = Some p
  /\ URL_Scheme p <> [] /\ URL_Host p <> [].

(** For the plain handler the encoded target is missing, does not
    decode, or decodes to a URL that does not parse or has an empty
    scheme or an empty host. *)
Definition targetInvalid_plain (r : Request) : Prop :=
  encodedTarget r = []
  \/ base64.DecodeString base64.StdEncoding (encodedTarget r) = None
  \/ (exists u, base64.DecodeString base64.StdEncoding (encodedTarget r) = Some u
                /\ url_Parse u = None)
  \/ (exists u p, base64.DecodeString base64.StdEncoding (encodedTarget r) = Some u
                  /\ url_Parse u = Some p
                  /\ (URL_Scheme p = [] \/ URL_Host p = [])).

(** *** The addresses the two alphabets read alike *)

(** The two characters of the standard alphabet that the URL alphabet
    does not have. *)
Definition isPlusOrSlash (c : ascii) : bool :=
  byte_eqb c "+" || byte_eqb c "/".

(** The characters of an address that the decoder counts: all but
    carriage return and line feed. *)
Definition countedChars (s : list ascii) : list ascii :=
  filter (fun c => base64.isNewline c = false) s.

(** What the two alphabets of the program have in common: the padding
    sign, and no line break among their characters. *)
Definition paddedAlphabet (enc : base64.Encoding) : Prop :=
  base64.padChar enc = Some "="%char
  /\ forall c out, base64.decodeMap enc c = Some out -> base64.isNewline c = false.

(** *** The inline scripts of [traverse] *)

(** The test [traverse] makes before it rewrites the text children of
    a node: an element named script without a src attribute. *)
Definition inlineScript (n : Node) : bool :=
  NodeType_eqb (Type_ n) ElementNode
  && bytes_eqb (Data n) (bs "script") && negb (hasSrc (Attr n)).

(** *** The patterns that look for a quoted text after a keyword *)

(** Every match of [re] starts with the text [lit0 ++ [l]], white
    space, a quote, a text [y] without quotes that [ok] holds of, and
    a quote. *)
Definition quotedMatch (re : Regexp) (lit0 : list ascii) (l : ascii)
           (ok : list ascii -> bool) : Prop :=
  forall t m rest sub,
    match_at re t = Some (m, rest, sub) ->
    exists ws0 q0 y q1 z,
      t = (lit0 ++ [l]) ++ ws0 ++ q0 :: y ++ q1 :: z
      /\ Forall (fun x => isSpace x = true) ws0
      /\ isQuote q0 = true
      /\ Forall (fun x => notQuote x = true) y
      /\ isQuote q1 = true
      /\ ok y = true.

(** *** The status code the response writer takes *)

(** [net/http]'s [checkWriteHeaderCode]: [w.WriteHeader(code)] takes a
    code of three digits and panics on any other, in which case the
    handler writes nothing more. *)
Definition checkWriteHeaderCode (code : Z) : bool :=
  (100 <=? code)%Z && (code <=? 999)%Z.

(** *** The rewrite set in the words of the specification *)

(** The four names. *)
Definition rewriteNames : list (list ascii) :=
  [bs "href"; bs "src"; bs "action"; bs "formaction"].

(** A name is one of the four, matched without regard to the case of
    its letters A to Z. *)
Definition specRewriteSet (key : list ascii) : bool :=
  existsb (bytes_eqb (map lowerASCII key)) rewriteNames.

(** *** The characters that end the value of a [url(...)] construct *)

(** A quote or a closing parenthesis: what the class of group 2 of
    [urlRegex] leaves out. *)
Definition quoteOrClose (a : ascii) : bool := isQuote a || byte_eqb a ")".

End Proxy.

(** The stand-ins as an environment, with a given answer of the
    upstream. *)
Definition sampleEnv (answer : option Response) : Env :=
  {| URL := Sample.URL;
     url_Parse := Sample.url_Parse;
     URL_Scheme := Sample.Scheme;
     URL_Host := Sample.Host;
     URL_Parse := Sample.URL_Parse;
     URL_String := Sample.URL_String;
     URL_Query := Sample.URL_Query;
     unicode_ToLower := Sample.unicode_ToLower;
     html_Parse := Sample.html_Parse;
     html_Render := Sample.html_Render;
     http_NewRequest := Sample.http_NewRequest;
     client_Do := Sample.upstream answer;
     range := Sample.range;
     range_visits := fun h => Permutation_refl (map_to_list h) |}.

(** Requests and upstream answers for the examples.  The target of
    the requests is http://h. *)
Module SampleData.

Definition header (entries : list (list ascii * list (list ascii))) : Header :=
  list_to_map entries.

Definition request (query : list ascii) : Request :=
  {| Method := bs "GET";
     URL_Path := bs "/aHR0cDovL2g=";
     URL_RawQuery := query;
     ReqHeader := header [(bs "Accept", [bs "text/css"; bs "*/*"]);
                          (bs "Accept-Encoding", [bs "gzip"]);
                          (bs "Host", [bs "proxy.test"])];
     ReqHost := bs "proxy.test";
     TLS := false;
     ReqBody := [] |}.

(** The request for what the rewriters make of a link to
    https://example.com/?q=1. *)
Definition request_for_rewritten_link : Request :=
  {| Method := bs "GET"; URL_Path := bs "/aHR0cHM6Ly9leGFtcGxlLmNvbS8_cT0x";
     URL_RawQuery := bs "browse=1"; ReqHeader := header [];
     ReqHost := bs "proxy.test"; TLS := false; ReqBody := [] |}.

Definition request_without_target : Request :=
  {| Method := bs "GET"; URL_Path := bs "/"; URL_RawQuery := [];
     ReqHeader := header []; ReqHost := bs "proxy.test"; TLS := false;
     ReqBody := [] |}.

(** A style sheet. *)
Definition css_answer : Response :=
  {| StatusCode := 200;
     RespHeader := header [(bs "Content-Type", [bs "text/css"]);
                           (bs "Content-Length", [bs "25"])];
     Body := {| delivered := bs "a{background:url(/x.png)}"; broken := false |} |}.

(** A page whose media type is written in upper case. *)
Definition upper_case_html_answer : Response :=
  {| StatusCode := 200;
     RespHeader := header [(bs "Content-Type", [bs "TEXT/HTML"])];
     Body := {| delivered := bs "<a href=/page>"; broken := false |} |}.

(** An image whose body breaks after seven bytes. *)
Definition broken_answer : Response :=
  {| StatusCode := 200;
     RespHeader := header [(bs "Content-Type", [bs "image/png"])];
     Body := {| delivered := bs "partial"; broken := true |} |}.

Definition attribute (key val : list ascii) : Attribute :=
  {| Namespace := []; Key := key; Val := val |}.

(** A document with one link and one inline script. *)
Definition link : Node :=
  mkNode ElementNode (bs "a") []
         [attribute (bs "href") (bs "mailto:a@b.test");
          attribute (bs "alt") (bs "/x");
          attribute (bs "src") (bs "data:image/png;base64,AAAA")]
         [].

Definition script : Node :=
  mkNode ElementNode (bs "script") [] []
         [mkNode TextNode (bs "import('https://cdn.test/app.js')") [] [] []].

Definition document : Node :=
  mkNode DocumentNode [] [] [] [link; script].

End SampleData.

(** A second environment for the examples: its resolver also takes a
    reference that starts with ./ and puts it after the directory of
    the base. *)
Module SampleRel.

(** The text up to and including the last slash. *)
Fixpoint directory (s : list ascii) : list ascii :=
  match s with
  | [] => []
  | c :: s' =>
      if existsb (byte_eqb "/") s' then c :: directory s'
      else if byte_eqb c "/" then [c] else []
  end.

Definition URL_Parse (base : Sample.URL) (ref : list ascii) : option Sample.URL :=
  match Sample.URL_Parse base ref with
  | Some r => Some r
  | None =>
      if HasPrefix ref (bs "./") then
        Some {| Sample.Scheme := Sample.Scheme base;
                Sample.Slashes := Sample.Slashes base;
                Sample.Host := Sample.Host base;
                Sample.Tail := directory (Sample.Tail base) ++ drop 2 ref |}
      else None
  end.

End SampleRel.

Definition sampleEnvRel : Env :=
  {| URL := Sample.URL;
     url_Parse := Sample.url_Parse;
     URL_Scheme := Sample.Scheme;
     URL_Host := Sample.Host;
     URL_Parse := SampleRel.URL_Parse;
     URL_String := Sample.URL_String;
     URL_Query := Sample.URL_Query;
     unicode_ToLower := Sample.unicode_ToLower;
     html_Parse := Sample.html_Parse;
     html_Render := Sample.html_Render;
     http_NewRequest := Sample.http_NewRequest;
     client_Do := Sample.upstream None;
     range := Sample.range;
     range_visits := fun h => Permutation_refl (map_to_list h) |}.

(** More requests, answers and documents for the examples. *)
Module SampleMore.

(** The target http://h in an address with a slash in it, and in an
    address without its padding. *)
Definition request_with_slash : Request :=
  {| Method := bs "GET"; URL_Path := bs "/aHR0cDov/L2g="; URL_RawQuery := [];
     ReqHeader := SampleData.header []; ReqHost := bs "proxy.test"; TLS := false;
     ReqBody := [] |}.

Definition request_without_padding : Request :=
  {| Method := bs "GET"; URL_Path := bs "/aHR0cDovL2g"; URL_RawQuery := [];
     ReqHeader := SampleData.header []; ReqHost := bs "proxy.test"; TLS := false;
     ReqBody := [] |}.

(** An answer without a Content-Type. *)
Definition untyped_answer : Response :=
  {| StatusCode := 200;
     RespHeader := SampleData.header [(bs "Content-Length", [bs "2"])];
     Body := {| delivered := bs "ok"; broken := false |} |}.

(** A document with a script that has a src attribute and text, and a
    link that does not resolve. *)
Definition external_script : Node :=
  mkNode ElementNode (bs "script") []
         [SampleData.attribute (bs "src") (bs "/app.js")]
         [mkNode TextNode (bs "import('https://cdn.test/app.js')") [] [] []].

Definition broken_link : Node :=
  mkNode ElementNode (bs "a") []
         [SampleData.attribute (bs "href") (bs "%zz")] [].

Definition document : Node :=
  mkNode DocumentNode [] [] [] [SampleData.script; external_script; broken_link].

End SampleMore.

(** A third environment for the examples.  Its [unicode_ToLower] does
    what [strings.Map(unicode.ToLower, s)] does on the letters A to Z
    and on the capital I with a dot above, U+0130, whose two bytes
    (196 and 176) become the letter i; it leaves every other byte.  Its
    parser reads back the printing of [SampleData.document] and makes
    one text node of anything else; its printer writes an element with
    its attributes between angle brackets. *)
Module SamplePage.

Fixpoint unicode_ToLower (s : list ascii) : list ascii :=
  match s with
  | [] => []
  | c1 :: s1 =>
      match s1 with
      | c2 :: s2 =>
          if byte_eqb c1 "196" && byte_eqb c2 "176" then "i"%char :: unicode_ToLower s2
          else lowerASCII c1 :: unicode_ToLower s1
      | [] => [lowerASCII c1]
      end
  end.

Definition html_attribute (a : Attribute) : list ascii :=
  bs " " ++ Key a ++ bs "='" ++ Val a ++ bs "'".

Fixpoint html_Render (n : Node) : list ascii :=
  match n with
  | mkNode type data _ attr children =>
      if NodeType_eqb type ElementNode then
        bs "<" ++ data ++ concat (map html_attribute attr) ++ bs ">"
          ++ concat (map html_Render children) ++ bs "</" ++ data ++ bs ">"
      else data ++ concat (map html_Render children)
  end.

Definition page : list ascii := html_Render SampleData.document.

Definition html_Parse (s : list ascii) : option Node :=
  if bytes_eqb s page then Some SampleData.document else Sample.html_Parse s.

(** An element with an attribute whose name has the capital I with a
    dot above. *)
Definition dotted_name : list ascii :=
  bs "act" ++ ["196"%char; "176"%char] ++ bs "on".

Definition dotted_form : Node :=
  mkNode ElementNode (bs "form") []
         [SampleData.attribute dotted_name (bs "/send")] [].

End SamplePage.

Definition samplePageEnv : Env :=
  {| URL := Sample.URL;
     url_Parse := Sample.url_Parse;
     URL_Scheme := Sample.Scheme;
     URL_Host := Sample.Host;
     URL_Parse := Sample.URL_Parse;
     URL_String := Sample.URL_String;
     URL_Query := Sample.URL_Query;
     unicode_ToLower := SamplePage.unicode_ToLower;
     html_Parse := SamplePage.html_Parse;
     html_Render := fun n => Some (SamplePage.html_Render n);
     http_NewRequest := Sample.http_NewRequest;
     client_Do := Sample.upstream None;
     range := Sample.range;
     range_visits := fun h => Permutation_refl (map_to_list h) |}.
(* ================================================================== *)
(** * Properties *)
(* ================================================================== *)

(** ** Bytes *)

Lemma bytes_eqb_eq (s t : list ascii) : bytes_eqb s t = true <-> s = t.
Proof.
  revert t. induction s as [| a s IH]; intros [| b t]; cbn [bytes_eqb];
    try (split; [discriminate | intros H; inversion H]); [split; reflexivity |].
  rewrite andb_true_iff, IH. unfold byte_eqb.
  split.
  - intros [Ha ->]. apply Ascii.eqb_eq in Ha as ->. reflexivity.
  - intros [= -> ->]. split; [apply Ascii.eqb_refl | reflexivity].
Qed.

Lemma bytes_eqb_nil (s : list ascii) : bytes_eqb s [] = false <-> s <> [].
Proof. destruct s; cbn; split; congruence. Qed.

(** ** Base64: bit arithmetic *)

Ltac Zify.zify_post_hook ::= Z.to_euclidean_division_equations.

Lemma land_shiftl_small (a b n : N) :
  (b < 2 ^ n)%N -> N.land (N.shiftl a n) b = 0%N.
Proof.
  intros Hb. apply N.bits_inj. intros i.
  rewrite N.land_spec, N.bits_0.
  destruct (N.lt_ge_cases i n) as [Hi | Hi].
  - rewrite N.shiftl_spec_low by exact Hi. reflexivity.
  - rewrite <- (N.mod_small b (2 ^ n)) by exact Hb.
    rewrite N.mod_pow2_bits_high by exact Hi.
    apply andb_false_r.
Qed.

Lemma lor_shiftl_add (a b n : N) :
  (b < 2 ^ n)%N -> N.lor (N.shiftl a n) b = (a * 2 ^ n + b)%N.
Proof.
  intros Hb.
  rewrite <- N.lxor_lor by (apply land_shiftl_small; exact Hb).
  rewrite <- N.add_nocarry_lxor by (apply land_shiftl_small; exact Hb).
  rewrite N.shiftl_mul_pow2. reflexivity.
Qed.

Lemma sextet_arith (val sh : N) :
  base64.sextet val sh = ((val / 2 ^ sh) mod 64)%N.
Proof.
  unfold base64.sextet. rewrite N.shiftr_div_pow2.
  change 63%N with (N.ones 6). rewrite N.land_ones. reflexivity.
Qed.

Lemma sextet_lt (val sh : N) : (base64.sextet val sh < 64)%N.
Proof. rewrite sextet_arith. apply N.mod_lt. discriminate. Qed.

Lemma val3_arith (a b c : N) :
  (a < 256)%N -> (b < 256)%N -> (c < 256)%N ->
  base64.val3 a b c = (a * 65536 + b * 256 + c)%N.
Proof.
  intros Ha Hb Hc. unfold base64.val3.
  rewrite (N.shiftl_mul_pow2 b 8).
  replace (N.shiftl a 16) with (N.shiftl (a * 256) 8)
    by (rewrite !N.shiftl_mul_pow2; change (2 ^ 8)%N with 256%N;
        change (2 ^ 16)%N with 65536%N; lia).
  rewrite <- (N.shiftl_mul_pow2 b 8), <- N.shiftl_lor.
  rewrite lor_shiftl_add by (change (2 ^ 8)%N with 256%N; lia).
  rewrite <- (N.shiftl_mul_pow2 _ 8) at 1.
  change (N.lor (a * 256) b) with (N.lor (a * 2 ^ 8) b).
  rewrite <- (N.shiftl_mul_pow2 a 8).
  rewrite lor_shiftl_add by (change (2 ^ 8)%N with 256%N; lia).
  rewrite N.shiftl_mul_pow2.
  change (2 ^ 8)%N with 256%N. lia.
Qed.

Lemma quantum_val_arith (d0 d1 d2 d3 : N) :
  (d0 < 64)%N -> (d1 < 64)%N -> (d2 < 64)%N -> (d3 < 64)%N ->
  base64.quantum_val d0 d1 d2 d3
  = (d0 * 262144 + d1 * 4096 + d2 * 64 + d3)%N.
Proof.
  intros H0 H1 H2 H3. unfold base64.quantum_val.
  replace (N.shiftl d0 18) with (N.shiftl (N.shiftl (d0 * 64) 6) 6)
    by (rewrite !N.shiftl_mul_pow2; change (2 ^ 6)%N with 64%N;
        change (2 ^ 18)%N with 262144%N; lia).
  replace (N.shiftl d1 12) with (N.shiftl (N.shiftl d1 6) 6)
    by (rewrite !N.shiftl_mul_pow2; change (2 ^ 6)%N with 64%N;
        change (2 ^ 12)%N with 4096%N; lia).
  rewrite <- !N.shiftl_lor.
  rewrite (lor_shiftl_add _ d3 6) by (change (2 ^ 6)%N with 64%N; lia).
  rewrite (lor_shiftl_add _ d2 6) by (change (2 ^ 6)%N with 64%N; lia).
  change (d0 * 64)%N with (d0 * 2 ^ 6)%N.
  rewrite <- (N.shiftl_mul_pow2 d0 6).
  rewrite (lor_shiftl_add d0 d1 6) by (change (2 ^ 6)%N with 64%N; lia).
  change (2 ^ 6)%N with 64%N. lia.
Qed.

Lemma N_of_ascii_lt (a : ascii) : (N_of_ascii a < 256)%N.
Proof. apply N_ascii_bounded. Qed.

Lemma to_byte_N_of_ascii (x : N) (a : ascii) :
  (x mod 256)%N = N_of_ascii a -> base64.to_byte x = a.
Proof.
  intros H. unfold base64.to_byte. rewrite H. apply ascii_N_embedding.
Qed.

(** Packing the four sextets of three bytes gives the three bytes back. *)
Lemma emit_full (a b c : ascii) :
  let val := base64.val3 (N_of_ascii a) (N_of_ascii b) (N_of_ascii c) in
  base64.emit [base64.sextet val 18; base64.sextet val 12;
               base64.sextet val 6; base64.sextet val 0] = [a; b; c].
Proof.
  intros val. unfold base64.emit.
  pose proof (N_of_ascii_lt a) as Ha. pose proof (N_of_ascii_lt b) as Hb.
  pose proof (N_of_ascii_lt c) as Hc.
  rewrite quantum_val_arith by apply sextet_lt.
  rewrite !sextet_arith, !N.shiftr_div_pow2.
  subst val. rewrite val3_arith by assumption.
  change (2 ^ 18)%N with 262144%N. change (2 ^ 16)%N with 65536%N.
  change (2 ^ 12)%N with 4096%N. change (2 ^ 8)%N with 256%N.
  change (2 ^ 6)%N with 64%N. change (2 ^ 0)%N with 1%N.
  f_equal; [| f_equal; [| f_equal]]; apply to_byte_N_of_ascii; lia.
Qed.

Lemma emit_two (a b : ascii) :
  let val := N.lor (N.shiftl (N_of_ascii a) 16) (N.shiftl (N_of_ascii b) 8) in
  base64.emit [base64.sextet val 18; base64.sextet val 12; base64.sextet val 6]
  = [a; b].
Proof.
  intros val. unfold base64.emit.
  pose proof (N_of_ascii_lt a) as Ha. pose proof (N_of_ascii_lt b) as Hb.
  assert (Hval : val = (N_of_ascii a * 65536 + N_of_ascii b * 256)%N).
  { subst val.
    rewrite <- (N.lor_0_r (N.lor _ _)).
    change (N.lor (N.lor (N.shiftl (N_of_ascii a) 16) (N.shiftl (N_of_ascii b) 8)) 0)
      with (base64.val3 (N_of_ascii a) (N_of_ascii b) 0).
    rewrite val3_arith by lia. lia. }
  rewrite quantum_val_arith by (try apply sextet_lt; lia).
  rewrite !sextet_arith, !N.shiftr_div_pow2, Hval.
  change (2 ^ 18)%N with 262144%N. change (2 ^ 16)%N with 65536%N.
  change (2 ^ 12)%N with 4096%N. change (2 ^ 8)%N with 256%N.
  change (2 ^ 6)%N with 64%N.
  f_equal; [| f_equal]; apply to_byte_N_of_ascii; lia.
Qed.

Lemma emit_one (a : ascii) :
  let val := N.shiftl (N_of_ascii a) 16 in
  base64.emit [base64.sextet val 18; base64.sextet val 12] = [a].
Proof.
  intros val. unfold base64.emit.
  pose proof (N_of_ascii_lt a) as Ha.
  assert (Hval : val = (N_of_ascii a * 65536)%N).
  { subst val. rewrite N.shiftl_mul_pow2. reflexivity. }
  rewrite quantum_val_arith by (try apply sextet_lt; lia).
  rewrite !sextet_arith, !N.shiftr_div_pow2, Hval.
  change (2 ^ 18)%N with 262144%N. change (2 ^ 16)%N with 65536%N.
  change (2 ^ 12)%N with 4096%N.
  f_equal; apply to_byte_N_of_ascii; lia.
Qed.

(** ** Base64: the alphabet *)

Lemma N_lt_64_Forall (P : N -> Prop) :
  Forall P (map N.of_nat (seq 0 64)) -> forall i, (i < 64)%N -> P i.
Proof.
  intros HP i Hi. rewrite Forall_forall in HP. apply HP.
  apply list_elem_of_In, in_map_iff. exists (N.to_nat i). split; [lia |].
  apply in_seq. lia.
Qed.

Lemma decodeMap_encodeAt_URL (i : N) :
  (i < 64)%N ->
  base64.decodeMap base64.URLEncoding (base64.encodeAt base64.URLEncoding i)
  = Some i.
Proof.
  revert i. apply N_lt_64_Forall.
  repeat (apply Forall_cons; split; [vm_compute; reflexivity |]).
  apply Forall_nil. exact I.
Qed.

(** ** Base64: decoding inverts encoding *)

Lemma list_ind3 {A : Type} (P : list A -> Prop) :
  P [] -> (forall a, P [a]) -> (forall a b, P [a; b]) ->
  (forall a b c l, P l -> P (a :: b :: c :: l)) ->
  forall l, P l.
Proof.
  intros H0 H1 H2 H3.
  fix IH 1. intros [| a [| b [| c l]]].
  - exact H0.
  - apply H1.
  - apply H2.
  - apply H3, IH.
Qed.

Lemma decode_valid (enc : base64.Encoding) dbuf c out rest :
  base64.decodeMap enc c = Some out ->
  base64.decode enc dbuf (c :: rest)
  = match dbuf with
    | [d0; d1; d2] =>
        match base64.decode enc [] rest with
        | Some tl => Some (base64.emit [d0; d1; d2; out] ++ tl)
        | None => None
        end
    | _ => base64.decode enc (dbuf ++ [out]) rest
    end.
Proof. intros H. cbn [base64.decode]. rewrite H. reflexivity. Qed.

Lemma decode_quantum_URL (s0 s1 s2 s3 : N) (rest : list ascii) :
  (s0 < 64)%N -> (s1 < 64)%N -> (s2 < 64)%N -> (s3 < 64)%N ->
  base64.decode base64.URLEncoding []
    (base64.encodeAt base64.URLEncoding s0
     :: base64.encodeAt base64.URLEncoding s1
     :: base64.encodeAt base64.URLEncoding s2
     :: base64.encodeAt base64.URLEncoding s3 :: rest)
  = match base64.decode base64.URLEncoding [] rest with
    | Some tl => Some (base64.emit [s0; s1; s2; s3] ++ tl)
    | None => None
    end.
Proof.
  intros H0 H1 H2 H3.
  rewrite (decode_valid _ _ _ s0) by (apply decodeMap_encodeAt_URL; exact H0).
  cbn [app].
  rewrite (decode_valid _ _ _ s1) by (apply decodeMap_encodeAt_URL; exact H1).
  cbn [app].
  rewrite (decode_valid _ _ _ s2) by (apply decodeMap_encodeAt_URL; exact H2).
  cbn [app].
  rewrite (decode_valid _ _ _ s3) by (apply decodeMap_encodeAt_URL; exact H3).
  reflexivity.
Qed.

(** The decoder of the URL alphabet inverts its encoder, on every byte
    string. *)
Lemma URLEncoding_roundtrip (u : list ascii) :
  base64.DecodeString base64.URLEncoding
    (base64.EncodeToString base64.URLEncoding u) = Some u.
Proof.
  unfold base64.DecodeString, base64.EncodeToString.
  induction u as [| a | a b | a b c rest IH] using list_ind3.
  - reflexivity.
  - cbn [base64.Encode base64.pad_or_nil base64.padChar base64.URLEncoding app].
    rewrite (decode_valid _ _ _ _ _ (decodeMap_encodeAt_URL _ (sextet_lt _ 18))).
    cbn [app].
    rewrite (decode_valid _ _ _ _ _ (decodeMap_encodeAt_URL _ (sextet_lt _ 12))).
    cbn [app].
    change (base64.decode base64.URLEncoding [?x; ?y] ["="%char; "="%char])
      with (Some (base64.emit [x; y])).
    f_equal. apply emit_one.
  - cbn [base64.Encode base64.pad_or_nil base64.padChar base64.URLEncoding app].
    rewrite (decode_valid _ _ _ _ _ (decodeMap_encodeAt_URL _ (sextet_lt _ 18))).
    cbn [app].
    rewrite (decode_valid _ _ _ _ _ (decodeMap_encodeAt_URL _ (sextet_lt _ 12))).
    cbn [app].
    rewrite (decode_valid _ _ _ _ _ (decodeMap_encodeAt_URL _ (sextet_lt _ 6))).
    cbn [app].
    change (base64.decode base64.URLEncoding [?x; ?y; ?z] ["="%char])
      with (Some (base64.emit [x; y; z])).
    f_equal. apply emit_two.
  - cbn [base64.Encode].
    rewrite decode_quantum_URL by apply sextet_lt.
    rewrite IH, emit_full. reflexivity.
Qed.

(** ** Base64: the characters of an encoded address *)

Lemma encodeAt_URL_safe (i : N) :
  (i < 64)%N -> isURLSafeBase64 (base64.encodeAt base64.URLEncoding i) = true.
Proof.
  revert i. apply N_lt_64_Forall.
  repeat (apply Forall_cons; split; [vm_compute; reflexivity |]).
  apply Forall_nil. exact I.
Qed.

Lemma Encode_URL_safe (u : list ascii) :
  Forall (fun c => isURLSafeBase64 c = true)
         (base64.EncodeToString base64.URLEncoding u).
Proof.
  unfold base64.EncodeToString.
  induction u as [| a | a b | a b c rest IH] using list_ind3;
    cbn [base64.Encode base64.pad_or_nil base64.padChar base64.URLEncoding app];
    repeat (apply Forall_cons; split;
            [first [apply encodeAt_URL_safe, sextet_lt | reflexivity] |]);
    first [exact IH | apply Forall_nil; exact I].
Qed.

(** ** Base64: the standard decoder on addresses of the URL alphabet *)

Lemma Std_on_URL_char (i : N) :
  (i < 64)%N ->
  base64.decodeMap base64.StdEncoding (base64.encodeAt base64.URLEncoding i)
  = (if (i <? 62)%N then Some i else None)
  /\ base64.isNewline (base64.encodeAt base64.URLEncoding i) = false
  /\ base64.is_pad base64.StdEncoding (base64.encodeAt base64.URLEncoding i) = false
  /\ isDashOrUnderscore (base64.encodeAt base64.URLEncoding i) = negb (i <? 62)%N.
Proof.
  revert i. apply N_lt_64_Forall.
  repeat (apply Forall_cons; split; [vm_compute; repeat split; reflexivity |]).
  apply Forall_nil. exact I.
Qed.

Lemma decode_Std_step (dbuf : list N) (i : N) (rest : list ascii) :
  (i < 64)%N ->
  base64.decode base64.StdEncoding dbuf (base64.encodeAt base64.URLEncoding i :: rest)
  = if (i <? 62)%N then
      match dbuf with
      | [d0; d1; d2] =>
          match base64.decode base64.StdEncoding [] rest with
          | Some tl => Some (base64.emit [d0; d1; d2; i] ++ tl)
          | None => None
          end
      | _ => base64.decode base64.StdEncoding (dbuf ++ [i]) rest
      end
    else None.
Proof.
  intros Hi. destruct (Std_on_URL_char i Hi) as (Hmap & Hnl & Hpad & _).
  cbn [base64.decode]. rewrite Hmap.
  destruct (i <? 62)%N; [reflexivity |]. rewrite Hnl, Hpad. reflexivity.
Qed.

(** The standard decoder gives the URL back when its address has
    neither a dash nor an underscore, and rejects the address when it
    has one. *)
Lemma StdEncoding_on_URL_address (u : list ascii) :
  base64.DecodeString base64.StdEncoding
    (base64.EncodeToString base64.URLEncoding u)
  = if existsb isDashOrUnderscore (base64.EncodeToString base64.URLEncoding u)
    then None else Some u.
Proof.
  unfold base64.DecodeString, base64.EncodeToString.
  induction u as [| a | a b | a b c rest IH] using list_ind3.
  - reflexivity.
  - cbn [base64.Encode base64.pad_or_nil base64.padChar base64.URLEncoding app existsb].
    set (val := N.shiftl (N_of_ascii a) 16).
    destruct (Std_on_URL_char _ (sextet_lt val 18)) as (_ & _ & _ & ->).
    destruct (Std_on_URL_char _ (sextet_lt val 12)) as (_ & _ & _ & ->).
    rewrite decode_Std_step by apply sextet_lt.
    destruct (base64.sextet val 18 <? 62)%N; [| reflexivity]. cbn [negb orb app].
    rewrite decode_Std_step by apply sextet_lt.
    destruct (base64.sextet val 12 <? 62)%N; [| reflexivity]. cbn [negb orb app].
    change (base64.decode base64.StdEncoding [?x; ?y] ["="%char; "="%char])
      with (Some (base64.emit [x; y])).
    change (isDashOrUnderscore "=" || (isDashOrUnderscore "=" || false)) with false.
    cbv iota. f_equal. apply emit_one.
  - cbn [base64.Encode base64.pad_or_nil base64.padChar base64.URLEncoding app existsb].
    set (val := N.lor (N.shiftl (N_of_ascii a) 16) (N.shiftl (N_of_ascii b) 8)).
    destruct (Std_on_URL_char _ (sextet_lt val 18)) as (_ & _ & _ & ->).
    destruct (Std_on_URL_char _ (sextet_lt val 12)) as (_ & _ & _ & ->).
    destruct (Std_on_URL_char _ (sextet_lt val 6)) as (_ & _ & _ & ->).
    rewrite decode_Std_step by apply sextet_lt.
    destruct (base64.sextet val 18 <? 62)%N; [| reflexivity]. cbn [negb orb app].
    rewrite decode_Std_step by apply sextet_lt.
    destruct (base64.sextet val 12 <? 62)%N; [| reflexivity]. cbn [negb orb app].
    rewrite decode_Std_step by apply sextet_lt.
    destruct (base64.sextet val 6 <? 62)%N; [| reflexivity]. cbn [negb orb app].
    change (base64.decode base64.StdEncoding [?x; ?y; ?z] ["="%char])
      with (Some (base64.emit [x; y; z])).
    change (isDashOrUnderscore "=" || false) with false.
    cbv iota. f_equal. apply emit_two.
  - cbn [base64.Encode existsb].
    set (val := base64.val3 (N_of_ascii a) (N_of_ascii b) (N_of_ascii c)).
    destruct (Std_on_URL_char _ (sextet_lt val 18)) as (_ & _ & _ & ->).
    destruct (Std_on_URL_char _ (sextet_lt val 12)) as (_ & _ & _ & ->).
    destruct (Std_on_URL_char _ (sextet_lt val 6)) as (_ & _ & _ & ->).
    destruct (Std_on_URL_char _ (sextet_lt val 0)) as (_ & _ & _ & ->).
    rewrite decode_Std_step by apply sextet_lt.
    destruct (base64.sextet val 18 <? 62)%N; [| reflexivity]. cbn [negb orb app].
    rewrite decode_Std_step by apply sextet_lt.
    destruct (base64.sextet val 12 <? 62)%N; [| reflexivity]. cbn [negb orb app].
    rewrite decode_Std_step by apply sextet_lt.
    destruct (base64.sextet val 6 <? 62)%N; [| reflexivity]. cbn [negb orb app].
    rewrite decode_Std_step by apply sextet_lt.
    destruct (base64.sextet val 0 <? 62)%N; [| reflexivity]. cbn [negb orb app].
    rewrite IH.
    destruct (existsb isDashOrUnderscore _); [reflexivity |].
    subst val. rewrite emit_full. reflexivity.
Qed.

(** ** Base64: what the decoder rejects *)

Lemma skipNewlines_In (x : ascii) (s : list ascii) :
  In x s -> base64.isNewline x = false -> In x (base64.skipNewlines s).
Proof.
  intros Hin Hx. induction s as [| c s IH]; [destruct Hin |].
  cbn [base64.skipNewlines]. destruct (base64.isNewline c) eqn:Hc.
  - destruct Hin as [-> | Hin]; [congruence | apply IH, Hin].
  - exact Hin.
Qed.

Lemma decode_illegal (enc : base64.Encoding) (x : ascii) (s : list ascii) :
  In x s -> base64.decodeMap enc x = None -> base64.isNewline x = false ->
  base64.is_pad enc x = false ->
  forall dbuf, base64.decode enc dbuf s = None.
Proof.
  intros Hin Hmap Hnl Hpad.
  induction s as [| c s IH]; intros dbuf; [destruct Hin |].
  cbn [base64.decode].
  destruct Hin as [-> | Hin].
  { rewrite Hmap, Hnl, Hpad. reflexivity. }
  specialize (IH Hin).
  destruct (base64.decodeMap enc c) as [out |].
  { destruct dbuf as [| d0 [| d1 [| d2 [| d3 dbuf]]]]; rewrite ?IH; reflexivity. }
  destruct (base64.isNewline c); [apply IH |].
  destruct (base64.is_pad enc c) eqn:Hc; [| reflexivity]. cbn [negb].
  assert (Hrest : In x (base64.skipNewlines s)) by (apply skipNewlines_In; assumption).
  destruct dbuf as [| d0 [| d1 [| d2 dbuf]]]; [reflexivity | reflexivity | |].
  - destruct (base64.skipNewlines s) as [| c2 rest2]; [reflexivity |].
    destruct (base64.is_pad enc c2) eqn:Hc2; [| reflexivity].
    destruct Hrest as [-> | Hrest]; [congruence |].
    apply skipNewlines_In in Hrest; [| exact Hnl].
    destruct (base64.skipNewlines rest2); [destruct Hrest | reflexivity].
  - destruct (base64.skipNewlines s); [destruct Hrest | reflexivity].
Qed.

(** ** Base64: the length of an address *)

Lemma countedChars_cons (c : ascii) (s : list ascii) :
  countedChars (c :: s)
  = if base64.isNewline c then countedChars s else c :: countedChars s.
Proof.
  unfold countedChars. destruct (base64.isNewline c) eqn:Hc.
  - apply filter_cons_False. congruence.
  - apply filter_cons_True. exact Hc.
Qed.

Lemma countedChars_skipNewlines (s : list ascii) :
  countedChars (base64.skipNewlines s) = countedChars s.
Proof.
  induction s as [| c s IH]; [reflexivity |].
  cbn [base64.skipNewlines]. rewrite (countedChars_cons c s).
  destruct (base64.isNewline c) eqn:Hc; [exact IH |].
  rewrite countedChars_cons, Hc. reflexivity.
Qed.

Lemma decode_counts (enc : base64.Encoding) :
  paddedAlphabet enc ->
  forall s dbuf u,
  base64.decode enc dbuf s = Some u -> length dbuf <= 3 ->
  (length dbuf + length (countedChars s)) mod 4 = 0.
Proof.
  intros [Hpad Hnl]. induction s as [| c s IH]; intros dbuf u H Hlen.
  - cbn [base64.decode] in H. rewrite Hpad in H.
    destruct dbuf as [| d0 [| d1 dbuf]]; [reflexivity | discriminate ..].
  - cbn [base64.decode] in H. rewrite countedChars_cons.
    destruct (base64.decodeMap enc c) as [out |] eqn:Hc.
    + rewrite (Hnl _ _ Hc). cbn [length].
      destruct dbuf as [| d0 [| d1 [| d2 [| d3 dbuf]]]]; cbn [length] in *; try lia.
      * apply IH in H; cbn [length app] in *; lia.
      * apply IH in H; cbn [length app] in *; lia.
      * apply IH in H; cbn [length app] in *; lia.
      * destruct (base64.decode enc [] s) as [tl |] eqn:Htl; [| discriminate].
        apply IH in Htl; cbn [length] in *; lia.
    + destruct (base64.isNewline c) eqn:Hc'; [apply (IH _ _ H Hlen) |].
      destruct (base64.is_pad enc c); [| discriminate]. cbn [negb] in H.
      rewrite <- countedChars_skipNewlines.
      destruct dbuf as [| d0 [| d1 [| d2 [| d3 dbuf]]]]; cbn [length] in *;
        try discriminate; try lia.
      * destruct (base64.skipNewlines s) as [| c2 rest2]; [discriminate |].
        destruct (base64.is_pad enc c2) eqn:Hc2; [| discriminate].
        assert (Hn2 : base64.isNewline c2 = false).
        { unfold base64.is_pad in Hc2. rewrite Hpad in Hc2.
          apply Ascii.eqb_eq in Hc2 as ->. reflexivity. }
        rewrite countedChars_cons, Hn2, <- countedChars_skipNewlines.
        destruct (base64.skipNewlines rest2); [reflexivity | discriminate].
      * destruct (base64.skipNewlines s); [reflexivity | discriminate].
Qed.

Lemma ascii_forall (P : ascii -> bool) :
  forallb P (map (fun n => ascii_of_nat n) (seq 0 256)) = true ->
  forall c, P c = true.
Proof.
  intros H c. rewrite forallb_forall in H.
  rewrite <- (ascii_nat_embedding c). apply H, in_map_iff.
  exists (nat_of_ascii c). split; [reflexivity |].
  apply in_seq. pose proof (nat_ascii_bounded c). lia.
Qed.

Lemma URLEncoding_padded : paddedAlphabet base64.URLEncoding.
Proof.
  split; [reflexivity |]. intros c out H.
  pose proof (ascii_forall
    (fun c => match base64.decodeMap base64.URLEncoding c with
              | Some _ => negb (base64.isNewline c) | None => true end)
    ltac:(vm_compute; reflexivity) c) as Hc.
  cbv beta in Hc. rewrite H in Hc. apply negb_true_iff, Hc.
Qed.

Lemma StdEncoding_padded : paddedAlphabet base64.StdEncoding.
Proof.
  split; [reflexivity |]. intros c out H.
  pose proof (ascii_forall
    (fun c => match base64.decodeMap base64.StdEncoding c with
              | Some _ => negb (base64.isNewline c) | None => true end)
    ltac:(vm_compute; reflexivity) c) as Hc.
  cbv beta in Hc. rewrite H in Hc. apply negb_true_iff, Hc.
Qed.

Lemma decodeMap_agree (c : ascii) :
  isDashOrUnderscore c = false -> isPlusOrSlash c = false ->
  base64.decodeMap base64.URLEncoding c = base64.decodeMap base64.StdEncoding c.
Proof.
  intros H1 H2.
  pose proof (ascii_forall
    (fun c => isDashOrUnderscore c || isPlusOrSlash c
              || match base64.decodeMap base64.URLEncoding c,
                       base64.decodeMap base64.StdEncoding c with
                 | Some x, Some y => N.eqb x y
                 | None, None => true
                 | _, _ => false
                 end)
    ltac:(vm_compute; reflexivity) c) as Hc.
  cbv beta in Hc. rewrite H1, H2 in Hc. cbn [orb] in Hc.
  destruct (base64.decodeMap base64.URLEncoding c),
           (base64.decodeMap base64.StdEncoding c); cbn in Hc; try discriminate;
    [apply N.eqb_eq in Hc as ->; reflexivity | reflexivity].
Qed.

Lemma decode_agree (s : list ascii) :
  existsb isDashOrUnderscore s = false -> existsb isPlusOrSlash s = false ->
  forall dbuf,
  base64.decode base64.URLEncoding dbuf s = base64.decode base64.StdEncoding dbuf s.
Proof.
  induction s as [| c s IH]; intros H1 H2 dbuf; [reflexivity |].
  cbn [existsb] in H1, H2.
  apply orb_false_iff in H1 as [Hc1 H1]. apply orb_false_iff in H2 as [Hc2 H2].
  specialize (IH H1 H2).
  cbn [base64.decode]. rewrite (decodeMap_agree c Hc1 Hc2).
  destruct (base64.decodeMap base64.StdEncoding c).
  - destruct dbuf as [| d0 [| d1 [| d2 [| d3 dbuf]]]]; rewrite ?IH; reflexivity.
  - rewrite IH. reflexivity.
Qed.

Lemma Encode_length (enc : base64.Encoding) (u : list ascii) :
  base64.padChar enc <> None ->
  length (base64.Encode enc u) = 4 * ((length u + 2) / 3).
Proof.
  intros Hpad. destruct (base64.padChar enc) as [p |] eqn:Hp; [| contradiction].
  induction u as [| a | a b | a b c rest IH] using list_ind3.
  - reflexivity.
  - cbn [base64.Encode]. unfold base64.pad_or_nil. rewrite Hp. reflexivity.
  - cbn [base64.Encode]. unfold base64.pad_or_nil. rewrite Hp. reflexivity.
  - cbn [base64.Encode length]. rewrite IH.
    replace (S (S (S (length rest))) + 2) with (length rest + 2 + 1 * 3) by lia.
    rewrite Nat.div_add by discriminate. lia.
Qed.

(** ** Base64: line breaks in an address *)

Lemma skipNewlines_cases (s : list ascii) :
  (base64.skipNewlines s = [] /\ countedChars s = [])
  \/ (exists c rest, base64.skipNewlines s = c :: rest
                     /\ base64.isNewline c = false
                     /\ countedChars s = c :: countedChars rest).
Proof.
  induction s as [| c s IH]; [left; split; reflexivity |].
  cbn [base64.skipNewlines]. rewrite countedChars_cons.
  destruct (base64.isNewline c) eqn:Hc; [exact IH |].
  right. exists c, s. auto.
Qed.

Lemma skipNewlines_counted (s : list ascii) :
  base64.skipNewlines (countedChars s) = countedChars s.
Proof.
  induction s as [| c s IH]; [reflexivity |].
  rewrite countedChars_cons. destruct (base64.isNewline c) eqn:Hc; [exact IH |].
  cbn [base64.skipNewlines]. rewrite Hc. reflexivity.
Qed.

Lemma countedChars_idemp (s : list ascii) :
  countedChars (countedChars s) = countedChars s.
Proof.
  induction s as [| c s IH]; [reflexivity |].
  rewrite countedChars_cons. destruct (base64.isNewline c) eqn:Hc; [exact IH |].
  rewrite countedChars_cons, Hc, IH. reflexivity.
Qed.

(** The decoder reads an address as it reads the address without its
    line breaks. *)
Lemma decode_countedChars (enc : base64.Encoding) :
  paddedAlphabet enc ->
  forall s dbuf,
  base64.decode enc dbuf s = base64.decode enc dbuf (countedChars s).
Proof.
  intros [Hpad Hnl]. induction s as [| c s IH]; intros dbuf; [reflexivity |].
  rewrite countedChars_cons.
  destruct (base64.isNewline c) eqn:Hc.
  - cbn [base64.decode].
    destruct (base64.decodeMap enc c) as [out |] eqn:Hm;
      [rewrite (Hnl _ _ Hm) in Hc; discriminate |].
    rewrite Hc. apply IH.
  - cbn [base64.decode].
    destruct (base64.decodeMap enc c) as [out |].
    + destruct dbuf as [| d0 [| d1 [| d2 [| d3 dbuf]]]]; rewrite <- ?IH; reflexivity.
    + rewrite Hc. destruct (negb (base64.is_pad enc c)); [reflexivity |].
      rewrite skipNewlines_counted.
      destruct dbuf as [| d0 [| d1 [| d2 dbuf]]]; [reflexivity | reflexivity | |].
      * destruct (skipNewlines_cases s) as [[-> ->] | (c2 & rest2 & -> & Hc2 & ->)];
          [reflexivity |].
        destruct (base64.is_pad enc c2); [| reflexivity].
        rewrite skipNewlines_counted.
        destruct (skipNewlines_cases rest2) as [[-> ->] | (c3 & rest3 & -> & _ & ->)];
          reflexivity.
      * destruct (skipNewlines_cases s) as [[-> ->] | (c2 & rest2 & -> & _ & ->)];
          reflexivity.
Qed.

(** ** The matcher: what a reported match is *)

Lemma stripLit_spec (l s s' : list ascii) :
  stripLit l s = Some s' <-> s = l ++ s'.
Proof.
  revert s. induction l as [| x l IH]; intros s; cbn [stripLit app].
  - split; intros H; [injection H as ->; reflexivity | subst; reflexivity].
  - destruct s as [| c s]; [split; intros H; discriminate |].
    unfold byte_eqb. destruct (Ascii.eqb_spec c x) as [-> | Hne].
    + rewrite IH. split; intros H; [subst; reflexivity | injection H as ->; reflexivity].
    + split; intros H; [discriminate | injection H as H1 _; contradiction].
Qed.

Lemma rep_sound (cls : ascii -> bool) (s s' : list ascii) :
  forall mn mx, In s' (rep cls mn mx s) ->
  exists w, s = w ++ s' /\ Forall (fun x => cls x = true) w
            /\ mn <= length w /\ (forall n, mx = Some n -> length w <= n).
Proof.
  induction s as [| c s IH]; intros mn mx Hin; cbn [rep] in Hin;
    apply in_app_iff in Hin as [Hin | Hin].
  - destruct Hin.
  - destruct (Nat.eqb_spec mn 0) as [-> | _]; [| destruct Hin].
    destruct Hin as [<- | []]. exists []. repeat split; auto. intros; cbn; lia.
  - destruct (cls c) eqn:Hc; [| destruct Hin].
    destruct (can_take mx) eqn:Hmx; [| destruct Hin].
    cbn [andb] in Hin. apply IH in Hin as (w & -> & Hw & Hmn & Hmax).
    exists (c :: w). repeat split.
    + constructor; assumption.
    + cbn [length]. lia.
    + intros n ->. cbn [length]. specialize (Hmax (pred n) eq_refl).
      destruct n; [discriminate | cbn in Hmax; lia].
  - destruct (Nat.eqb_spec mn 0) as [-> | _]; [| destruct Hin].
    destruct Hin as [<- | []]. exists []. repeat split; auto. intros; cbn; lia.
Qed.

Lemma run_sound (r : Regexp) :
  forall s c s' c', In (s', c') (run r s c) ->
  exists w, s = w ++ s' /\ sem r w c c'.
Proof.
  induction r as [l | cls mn mx | r1 IH1 r2 IH2 | i r1 IH1];
    intros s c s' c' Hin; cbn [run] in Hin.
  - destruct (stripLit l s) as [s0 |] eqn:Hl; [| destruct Hin].
    destruct Hin as [[= <- <-] | []].
    apply stripLit_spec in Hl. exists l. split; [exact Hl | constructor].
  - apply in_map_iff in Hin as (s0 & [= <- <-] & Hin).
    apply rep_sound in Hin as (w & -> & Hw & Hmn & Hmx).
    exists w. split; [reflexivity | constructor; assumption].
  - apply in_flat_map in Hin as ([s1 c1] & Hin1 & Hin2). cbn [fst snd] in Hin2.
    apply IH1 in Hin1 as (w1 & -> & Hs1).
    apply IH2 in Hin2 as (w2 & -> & Hs2).
    exists (w1 ++ w2). split; [apply app_assoc | econstructor; eassumption].
  - apply in_map_iff in Hin as ([s1 c1] & [= <- <-] & Hin).
    apply IH1 in Hin as (w & -> & Hs). exists w. split; [reflexivity |].
    rewrite length_app, Nat.add_sub, take_app_length.
    constructor. exact Hs.
Qed.

Lemma run_length (r : Regexp) s c s' c' :
  In (s', c') (run r s c) -> length s' <= length s.
Proof.
  intros H. apply run_sound in H as (w & -> & _). rewrite length_app. lia.
Qed.

Lemma match_at_sound (re : Regexp) s m rest sub :
  match_at re s = Some (m, rest, sub) ->
  s = m ++ rest
  /\ exists c, sem re m (replicate (S (NumSubexp re)) []) c /\ sub = <[0 := m]> c.
Proof.
  unfold match_at. intros H.
  destruct (run re s _) as [| [rest0 c] tl] eqn:Hrun; [discriminate |].
  injection H as <- <- <-.
  assert (Hin : In (rest0, c) (run re s (replicate (S (NumSubexp re)) [])))
    by (rewrite Hrun; left; reflexivity).
  apply run_sound in Hin as (w & -> & Hsem).
  rewrite length_app, Nat.add_sub, take_app_length.
  split; [reflexivity | exists c; split; [exact Hsem | reflexivity]].
Qed.

Lemma sem_minLen r w c c' : sem r w c c' -> minLen r <= length w.
Proof.
  induction 1; cbn [minLen]; rewrite ?length_app; lia.
Qed.

Lemma match_at_nonempty (re : Regexp) s m rest sub :
  0 < minLen re -> match_at re s = Some (m, rest, sub) -> m <> [].
Proof.
  intros Hmin H. apply match_at_sound in H as (_ & c & Hsem & _).
  apply sem_minLen in Hsem. intros ->. cbn in Hsem. lia.
Qed.

(** ** The matcher: every match is found *)

Lemma rep_eq (cls : ascii -> bool) mn mx (s : list ascii) :
  rep cls mn mx s
  = match s with
    | c :: s' =>
        if cls c && can_take mx then rep cls (pred mn) (dec_max mx) s' else []
    | [] => []
    end ++ (if Nat.eqb mn 0 then [s] else []).
Proof. destruct s; reflexivity. Qed.

Lemma rep_complete (cls : ascii -> bool) (w s' : list ascii) :
  forall mn mx,
  Forall (fun x => cls x = true) w -> mn <= length w ->
  (forall n, mx = Some n -> length w <= n) ->
  In s' (rep cls mn mx (w ++ s')).
Proof.
  induction w as [| c w IH]; intros mn mx Hw Hmn Hmx;
    rewrite rep_eq; apply in_app_iff.
  - right. cbn in Hmn. assert (mn = 0) as -> by lia. left. reflexivity.
  - left. apply Forall_cons in Hw as [Hc Hw]. cbn [app]. rewrite Hc.
    assert (Hcan : can_take mx = true).
    { destruct mx as [[| n] |]; try reflexivity.
      specialize (Hmx 0 eq_refl). cbn in Hmx. lia. }
    rewrite Hcan. cbn [andb]. apply IH; [exact Hw | cbn in Hmn; lia |].
    intros n Hn. destruct mx as [m |]; [| discriminate].
    injection Hn as <-. specialize (Hmx m eq_refl). cbn in Hmx. lia.
Qed.

Lemma run_complete (r : Regexp) w c c' :
  sem r w c c' -> forall s', In (s', c') (run r (w ++ s') c).
Proof.
  induction 1 as [l c | cls mn mx w c Hw Hmn Hmx
                  | r1 r2 w1 w2 c c1 c2 _ IH1 _ IH2 | i r w c c1 _ IH];
    intros s'; cbn [run].
  - replace (stripLit l (l ++ s')) with (Some s')
      by (symmetry; apply stripLit_spec; reflexivity).
    left. reflexivity.
  - apply in_map_iff. exists s'. split; [reflexivity |].
    apply rep_complete; assumption.
  - apply in_flat_map. exists (w2 ++ s', c1). split.
    + rewrite <- app_assoc. apply IH1.
    + apply IH2.
  - apply in_map_iff. exists (s', c1). split; [| apply IH].
    cbn [fst snd]. rewrite length_app, Nat.add_sub, take_app_length. reflexivity.
Qed.

(** Where the pattern has a match there is a reported match, maybe a
    match of higher priority. *)
Lemma match_at_complete (re : Regexp) (w s' : list ascii) c :
  sem re w (replicate (S (NumSubexp re)) []) c ->
  exists m rest sub, match_at re (w ++ s') = Some (m, rest, sub).
Proof.
  intros H. pose proof (run_complete _ _ _ _ H s') as Hin.
  unfold match_at.
  destruct (run re (w ++ s') _) as [| [rest0 c0] tl]; [destruct Hin |].
  eexists _, _, _. reflexivity.
Qed.

(** ** The matcher: a match does not depend on what follows it

    Running a pattern on [s ++ rest] and keeping the results that stop
    inside [s] is running it on [s]. *)

Lemma unliftS_app (rest s : list ascii) : unliftS rest (s ++ rest) = Some s.
Proof.
  unfold unliftS. rewrite length_app.
  destruct (Nat.leb_spec (length rest) (length s + length rest)) as [_ | H]; [| lia].
  rewrite Nat.add_sub, take_app_length. reflexivity.
Qed.

Lemma unliftS_short (rest s' : list ascii) :
  length s' < length rest -> unliftS rest s' = None.
Proof.
  intros H. unfold unliftS.
  destruct (Nat.leb_spec (length rest) (length s')); [lia | reflexivity].
Qed.

Lemma omap_all_None {A B : Type} (f : A -> option B) (l : list A) :
  (forall x, In x l -> f x = None) -> omap f l = [].
Proof.
  induction l as [| x l IH]; intros H; [reflexivity |].
  cbn. rewrite (H x) by (left; reflexivity).
  apply IH. intros y Hy. apply H. right. exact Hy.
Qed.

Lemma rep_restrict (cls : ascii -> bool) (rest s : list ascii) :
  forall mn mx,
  omap (unliftS rest) (rep cls mn mx (s ++ rest)) = rep cls mn mx s.
Proof.
  induction s as [| c s IH]; intros mn mx.
  - cbn [app]. destruct rest as [| c rest]; [destruct mn; reflexivity |].
    cbn [rep]. rewrite omap_app. f_equal.
    + apply omap_all_None. intros s' Hin.
      destruct (cls c && can_take mx); [| destruct Hin].
      apply rep_sound in Hin as (w & -> & _).
      apply unliftS_short. cbn [length]. rewrite length_app. lia.
    + destruct (Nat.eqb mn 0); [| reflexivity].
      pose proof (unliftS_app (c :: rest) []) as E. cbn [app] in E.
      cbn [omap list_omap]. rewrite E. reflexivity.
  - cbn [app rep]. rewrite omap_app. f_equal.
    + destruct (cls c && can_take mx); [apply IH | reflexivity].
    + destruct (Nat.eqb mn 0); [| reflexivity].
      pose proof (unliftS_app rest (c :: s)) as E. cbn [app] in E.
      cbn [omap list_omap]. rewrite E. reflexivity.
Qed.

Lemma stripLit_restrict (l rest s : list ascii) :
  match stripLit l (s ++ rest) with
  | Some s' => unliftS rest s'
  | None => None
  end = stripLit l s.
Proof.
  revert s. induction l as [| x l IH]; intros s.
  - cbn [stripLit]. apply unliftS_app.
  - destruct s as [| c s].
    + cbn [app]. destruct (stripLit (x :: l) rest) as [s' |] eqn:H; [| reflexivity].
      apply stripLit_spec in H. cbn [stripLit].
      apply unliftS_short. rewrite H. cbn [app length]. rewrite length_app. lia.
    + cbn [app stripLit]. destruct (byte_eqb c x); [apply IH | reflexivity].
Qed.

Lemma unlift_app (rest s : list ascii) c : unlift rest (s ++ rest, c) = Some (s, c).
Proof. unfold unlift. cbn [fst snd]. rewrite unliftS_app. reflexivity. Qed.

Lemma unlift_short (rest : list ascii) x :
  length (fst x) < length rest -> unlift rest x = None.
Proof. intros H. unfold unlift. rewrite unliftS_short by exact H. reflexivity. Qed.

(** A remaining input of a run on [s ++ rest] is shorter than [rest]
    or ends with [rest]. *)
Lemma suffix_cases (w s rest s1 : list ascii) :
  s ++ rest = w ++ s1 ->
  length s1 < length rest \/ exists s1', s1 = s1' ++ rest.
Proof.
  intros H.
  destruct (Nat.lt_ge_cases (length s1) (length rest)) as [Hlt | Hge]; [left; exact Hlt |].
  right. exists (drop (length w) s).
  assert (Hlen : length s + length rest = length w + length s1)
    by (rewrite <- !length_app, H; reflexivity).
  apply (f_equal (drop (length w))) in H.
  rewrite drop_app_length in H. rewrite <- H.
  rewrite drop_app_le by lia. reflexivity.
Qed.

Lemma omap_flat_map_restrict {A B : Type} (u : A -> option A) (v : B -> option B)
      (f : A -> list B) (l : list A) :
  (forall x, In x l ->
     omap v (f x) = match u x with Some y => f y | None => [] end) ->
  omap v (flat_map f l) = flat_map f (omap u l).
Proof.
  induction l as [| x l IH]; intros H; [reflexivity |].
  cbn [flat_map]. rewrite omap_app, (H x) by (left; reflexivity).
  rewrite IH by (intros y Hy; apply H; right; exact Hy).
  cbn [omap list_omap]. destruct (u x); reflexivity.
Qed.

Lemma run_restrict (r : Regexp) (rest : list ascii) :
  forall s c, omap (unlift rest) (run r (s ++ rest) c) = run r s c.
Proof.
  induction r as [l | cls mn mx | r1 IH1 r2 IH2 | i r1 IH1]; intros s c; cbn [run].
  - rewrite <- (stripLit_restrict l rest s).
    destruct (stripLit l (s ++ rest)) as [s' |]; [| reflexivity].
    cbn [omap list_omap]. unfold unlift. cbn [fst snd].
    destruct (unliftS rest s'); reflexivity.
  - rewrite <- (rep_restrict cls rest s mn mx).
    induction (rep cls mn mx (s ++ rest)) as [| s' L IHL]; [reflexivity |].
    cbn [map omap list_omap]. unfold unlift at 1. cbn [fst snd].
    rewrite IHL. destruct (unliftS rest s'); reflexivity.
  - rewrite <- (IH1 s c).
    apply omap_flat_map_restrict. intros [s1 c1] Hin. cbn [fst snd].
    apply run_sound in Hin as (w & Hw & _).
    destruct (suffix_cases _ _ _ _ Hw) as [Hlt | [s1' ->]].
    + rewrite unlift_short by exact Hlt.
      apply omap_all_None. intros [s2 c2] Hin2.
      apply run_length in Hin2. apply unlift_short. cbn [fst]. lia.
    + rewrite unlift_app. cbn [fst snd]. apply IH2.
  - rewrite <- (IH1 s c).
    assert (Hs : forall x, In x (run r1 (s ++ rest) c) ->
                 length (fst x) < length rest \/ exists s1', fst x = s1' ++ rest).
    { intros [s1 c1] Hin. apply run_sound in Hin as (w & Hw & _).
      exact (suffix_cases _ _ _ _ Hw). }
    induction (run r1 (s ++ rest) c) as [| [s1 c1] L IHL]; [reflexivity |].
    cbn [map omap list_omap fst snd].
    rewrite IHL by (intros y Hy; apply Hs; right; exact Hy).
    destruct (Hs (s1, c1) (or_introl eq_refl)) as [Hlt | [s1' Heq]]; cbn [fst] in *.
    + rewrite !unlift_short by (cbn [fst]; exact Hlt). reflexivity.
    + subst s1. rewrite !unlift_app. cbn [map fst snd]. f_equal. f_equal. f_equal.
      rewrite !length_app.
      replace (length s + length rest - (length s1' + length rest))
        with (length s - length s1') by lia.
      apply take_app_le. lia.
Qed.

(** The match found at the start of an input is the match of the
    pattern on the matched text alone, with the same submatches. *)
Lemma match_at_stable (re : Regexp) s m rest sub :
  match_at re s = Some (m, rest, sub) -> match_at re m = Some (m, [], sub).
Proof.
  intros H. destruct (match_at_sound _ _ _ _ _ H) as (-> & _).
  unfold match_at in *.
  rewrite <- (run_restrict re rest m).
  destruct (run re (m ++ rest) _) as [| [rest0 c] tl]; [discriminate |].
  injection H as Hm Hr Hs. subst rest0 sub.
  rewrite Hm.
  cbn [omap list_omap]. unfold unlift, unliftS. cbn [fst snd].
  rewrite Nat.leb_refl, Nat.sub_diag. cbn [take length].
  rewrite Nat.sub_0_r, firstn_all. reflexivity.
Qed.

(** ** The leftmost match and the replacement scan *)

Lemma find_sound (re : Regexp) s pre m sub rest :
  find re s = Some (pre, m, sub, rest) ->
  s = pre ++ m ++ rest
  /\ match_at re (m ++ rest) = Some (m, rest, sub)
  /\ unmatched re pre (m ++ rest).
Proof.
  revert pre. induction s as [| c s IH]; intros pre H; cbn [find] in H.
  - destruct (match_at re []) as [[[m0 rest0] sub0] |] eqn:Hm; [| discriminate].
    injection H as <- <- <- <-.
    destruct (match_at_sound _ _ _ _ _ Hm) as (Heq & _).
    cbn [app]. rewrite <- Heq. split; [reflexivity | split; [exact Hm | exact I]].
  - destruct (match_at re (c :: s)) as [[[m0 rest0] sub0] |] eqn:Hm.
    + injection H as <- <- <- <-.
      destruct (match_at_sound _ _ _ _ _ Hm) as (Heq & _).
      cbn [app]. rewrite <- Heq. split; [reflexivity | split; [exact Hm | exact I]].
    + destruct (find re s) as [[[[pre0 m0] sub0] rest0] |]; [| discriminate].
      injection H as <- <- <- <-.
      destruct (IH pre0 eq_refl) as (-> & Hmatch & Hun).
      split; [reflexivity | split; [exact Hmatch | split; [exact Hm | exact Hun]]].
Qed.

Lemma find_at_start (re : Regexp) s m rest sub :
  match_at re s = Some (m, rest, sub) -> find re s = Some ([], m, sub, rest).
Proof. intros H. destruct s; cbn [find]; rewrite H; reflexivity. Qed.

(** Inside the replacement function, [FindStringSubmatch] on the
    matched text gives the submatches of the match being replaced. *)
Lemma FindStringSubmatch_match (re : Regexp) s m rest sub :
  match_at re s = Some (m, rest, sub) -> FindStringSubmatch re m = sub.
Proof.
  intros H. apply match_at_stable in H.
  unfold FindStringSubmatch. rewrite (find_at_start _ _ _ _ _ H). reflexivity.
Qed.

Lemma replaceAll_skip (re : Regexp) repl (w s : list ascii) :
  replaceAll re repl (length w) (w ++ s) = replaceAll re repl 0 s.
Proof. induction w as [| c w IH]; [reflexivity | exact IH]. Qed.

Lemma replaceAll_unmatched (re : Regexp) repl (pre tail : list ascii) :
  unmatched re pre tail ->
  replaceAll re repl 0 (pre ++ tail) = pre ++ replaceAll re repl 0 tail.
Proof.
  induction pre as [| c pre IH]; intros H; [reflexivity |].
  destruct H as [Hm Hun]. cbn [app] in *. cbn [replaceAll].
  rewrite Hm, IH by exact Hun. reflexivity.
Qed.

Lemma replaceAll_match (re : Regexp) repl s m rest sub :
  match_at re s = Some (m, rest, sub) -> m <> [] ->
  replaceAll re repl 0 s = repl m ++ replaceAll re repl 0 rest.
Proof.
  intros H Hne. destruct (match_at_sound _ _ _ _ _ H) as (-> & _).
  destruct m as [| c m]; [contradiction |].
  cbn [app] in *. cbn [replaceAll]. rewrite H. cbn [length].
  rewrite replaceAll_skip. reflexivity.
Qed.

(** The scan replaces the leftmost match and goes on after it. *)
Lemma ReplaceAll_find (re : Regexp) repl s pre m sub rest :
  0 < minLen re ->
  find re s = Some (pre, m, sub, rest) ->
  ReplaceAllStringFunc re s repl
  = pre ++ repl m ++ ReplaceAllStringFunc re rest repl.
Proof.
  intros Hmin H. destruct (find_sound _ _ _ _ _ _ H) as (-> & Hm & Hun).
  unfold ReplaceAllStringFunc.
  rewrite replaceAll_unmatched by exact Hun.
  rewrite (replaceAll_match _ _ _ _ _ _ Hm (match_at_nonempty _ _ _ _ _ Hmin Hm)).
  reflexivity.
Qed.

Lemma ReplaceAll_no_match (re : Regexp) repl s :
  find re s = None -> ReplaceAllStringFunc re s repl = s.
Proof.
  unfold ReplaceAllStringFunc.
  induction s as [| c s IH]; intros H; [reflexivity |].
  cbn [find] in H. cbn [replaceAll].
  destruct (match_at re (c :: s)) as [[[m0 rest0] sub0] |]; [discriminate |].
  destruct (find re s) as [[[[pre0 m0] sub0] rest0] |]; [discriminate |].
  rewrite IH by reflexivity. reflexivity.
Qed.

(** ** The patterns of the rewriters *)

Ltac inv_sem :=
  repeat match goal with
  | H : sem (Seq _ _) _ _ _ |- _ => inversion H; subst; clear H
  | H : sem (Cap _ _) _ _ _ |- _ => inversion H; subst; clear H
  | H : sem (Lit _) _ _ _ |- _ => inversion H; subst; clear H
  | H : sem (Rep _ _ _) _ _ _ |- _ => inversion H; subst; clear H
  end.

Lemma isQuote_cases (c : ascii) : isQuote c = true <-> c = dquote \/ c = squote.
Proof.
  unfold isQuote, byte_eqb. rewrite orb_true_iff.
  split; (intros [H | H]; [left | right]).
  - apply Ascii.eqb_eq, H.
  - apply Ascii.eqb_eq, H.
  - apply Ascii.eqb_eq, H.
  - apply Ascii.eqb_eq, H.
Qed.

Lemma one_quote (q : list ascii) :
  Forall (fun x => isQuote x = true) q -> 1 <= length q -> length q <= 1 ->
  q = [dquote] \/ q = [squote].
Proof.
  intros Hq H1 H2. destruct q as [| c [| c' q]]; cbn in H1, H2; try lia.
  apply Forall_cons in Hq as [Hc _]. apply isQuote_cases in Hc as [-> | ->]; auto.
Qed.

Lemma opt_quote (q : list ascii) :
  Forall (fun x => isQuote x = true) q -> length q <= 1 -> quoteOrNone q.
Proof.
  intros Hq H. destruct q as [| c q]; [left; reflexivity |].
  right. apply one_quote; [exact Hq | cbn; lia | exact H].
Qed.

Lemma nonempty_length {A : Type} (l : list A) : 1 <= length l -> l <> [].
Proof. intros H ->. cbn in H. lia. Qed.

(** What [urlRegex] matches, and the submatches it reports. *)
Lemma urlRegex_shape s m rest sub :
  match_at urlRegex s = Some (m, rest, sub) ->
  exists ws1 q v q' ws2,
    m = bs "url(" ++ ws1 ++ q ++ v ++ q' ++ ws2 ++ bs ")"
    /\ sub = [m; q; v; q']
    /\ Forall (fun x => isSpace x = true) ws1
    /\ quoteOrNone q
    /\ v <> [] /\ Forall (fun x => notQuoteParen x = true) v
    /\ quoteOrNone q'
    /\ Forall (fun x => isSpace x = true) ws2.
Proof.
  intros H. apply match_at_sound in H as (_ & c & Hsem & ->).
  unfold urlRegex in Hsem. inv_sem.
  eexists _, _, _, _, _. split; [reflexivity |].
  split; [reflexivity |].
  repeat split; auto using opt_quote, nonempty_length.
Qed.

Lemma importRegex_shape s m rest sub :
  match_at importRegex s = Some (m, rest, sub) ->
  exists ws q v q',
    m = bs "@import" ++ ws ++ q ++ v ++ q'
    /\ sub = [m; q; v; q']
    /\ ws <> [] /\ Forall (fun x => isSpace x = true) ws
    /\ (q = [dquote] \/ q = [squote])
    /\ v <> [] /\ Forall (fun x => notQuote x = true) v
    /\ (q' = [dquote] \/ q' = [squote]).
Proof.
  intros H. apply match_at_sound in H as (_ & c & Hsem & ->).
  unfold importRegex in Hsem. inv_sem.
  eexists _, _, _, _. split; [reflexivity |].
  split; [reflexivity |].
  repeat split; auto using one_quote, nonempty_length.
Qed.

Lemma opt_s (w : list ascii) :
  Forall (fun x => isS x = true) w -> length w <= 1 -> w = [] \/ w = bs "s".
Proof.
  intros Hw H. destruct w as [| c [| c' w]]; cbn in H; try lia; [left; reflexivity |].
  right. apply Forall_cons in Hw as [Hc _].
  apply Ascii.eqb_eq in Hc as ->. reflexivity.
Qed.

Lemma absRegex_shape s m rest sub :
  match_at absRegex s = Some (m, rest, sub) ->
  exists q scheme d q',
    m = q ++ (scheme ++ d) ++ q'
    /\ sub = [m; q; scheme ++ d; q']
    /\ (q = [dquote] \/ q = [squote])
    /\ (scheme = bs "http://" \/ scheme = bs "https://")
    /\ d <> [] /\ Forall (fun x => notQuote x = true) d
    /\ (q' = [dquote] \/ q' = [squote]).
Proof.
  intros H. apply match_at_sound in H as (_ & c & Hsem & ->).
  unfold absRegex in Hsem. inv_sem.
  match goal with
  | Hs : Forall (fun x => isS x = true) ?w, Hl : forall n, Some 1 = Some n -> length ?w <= n |- _ =>
      destruct (opt_s w Hs (Hl 1 eq_refl)) as [-> | ->]
  end.
  - eexists _, (bs "http://"), _, _. split; [reflexivity |].
    split; [reflexivity |].
    repeat split; auto using one_quote, nonempty_length.
  - eexists _, (bs "https://"), _, _. split; [reflexivity |].
    split; [reflexivity |].
    repeat split; auto using one_quote, nonempty_length.
Qed.

Lemma minLen_urlRegex : 0 < minLen urlRegex.
Proof. cbn. lia. Qed.
Lemma minLen_importRegex : 0 < minLen importRegex.
Proof. cbn. lia. Qed.
Lemma minLen_absRegex : 0 < minLen absRegex.
Proof. cbn. lia. Qed.
Lemma minLen_relImportRegex : 0 < minLen relImportRegex.
Proof. cbn. lia. Qed.
Lemma minLen_staticImportRegex : 0 < minLen staticImportRegex.
Proof. cbn. lia. Qed.
Lemma minLen_urlFuncRegex : 0 < minLen urlFuncRegex.
Proof. cbn. lia. Qed.

(** ** The matcher: the first result, when no backtracking is needed *)

Lemma hd_error_app_Some {A : Type} (l l' : list A) x :
  hd_error l = Some x -> hd_error (l ++ l') = Some x.
Proof. destruct l; [discriminate | intros H; exact H]. Qed.

Lemma rep_greedy (cls : ascii -> bool) (w s : list ascii) :
  forall mn, Forall (fun x => cls x = true) w -> mn <= length w -> stops cls s ->
  hd_error (rep cls mn None (w ++ s)) = Some s.
Proof.
  induction w as [| c w IH]; intros mn Hw Hmn Hs.
  - cbn in Hmn. assert (mn = 0) as -> by lia. cbn [app].
    destruct s as [| x s]; [reflexivity |].
    cbn in Hs. cbn [rep]. rewrite Hs. reflexivity.
  - apply Forall_cons in Hw as [Hc Hw]. cbn [app rep]. rewrite Hc. cbn [andb can_take dec_max].
    apply hd_error_app_Some, IH; [exact Hw | cbn in Hmn; lia | exact Hs].
Qed.

Lemma rep_max0 (cls : ascii -> bool) (s : list ascii) : rep cls 0 (Some 0) s = [s].
Proof. destruct s; cbn [rep can_take]; rewrite ?andb_false_r; reflexivity. Qed.

Lemma rep_one (cls : ascii -> bool) (x : ascii) (s : list ascii) mn :
  cls x = true -> mn <= 1 -> hd_error (rep cls mn (Some 1) (x :: s)) = Some s.
Proof.
  intros Hx Hmn. cbn [rep]. rewrite Hx. cbn [andb can_take dec_max pred].
  assert (pred mn = 0) as -> by lia. rewrite rep_max0. reflexivity.
Qed.

Lemma rep_zero (cls : ascii -> bool) mx (s : list ascii) :
  stops cls s -> hd_error (rep cls 0 mx s) = Some s.
Proof.
  intros Hs. destruct s as [| x s]; [reflexivity |].
  cbn in Hs. cbn [rep]. rewrite Hs. reflexivity.
Qed.

Lemma hd_Lit (l s : list ascii) c : hd_error (run (Lit l) (l ++ s) c) = Some (s, c).
Proof.
  cbn [run]. replace (stripLit l (l ++ s)) with (Some s); [reflexivity |].
  symmetry. apply stripLit_spec. reflexivity.
Qed.

Lemma hd_Rep (cls : ascii -> bool) mn mx (s s' : list ascii) c :
  hd_error (rep cls mn mx s) = Some s' ->
  hd_error (run (Rep cls mn mx) s c) = Some (s', c).
Proof.
  cbn [run]. destruct (rep cls mn mx s); [discriminate |].
  intros [= ->]. reflexivity.
Qed.

Lemma hd_Seq (r1 r2 : Regexp) s c s1 c1 x :
  hd_error (run r1 s c) = Some (s1, c1) ->
  hd_error (run r2 s1 c1) = Some x ->
  hd_error (run (Seq r1 r2) s c) = Some x.
Proof.
  intros H1 H2. cbn [run].
  destruct (run r1 s c) as [| y tl]; [discriminate |].
  injection H1 as ->. cbn [flat_map fst snd].
  apply hd_error_app_Some, H2.
Qed.

Lemma hd_Cap (i : nat) (r : Regexp) (w s1 : list ascii) c c1 :
  hd_error (run r (w ++ s1) c) = Some (s1, c1) ->
  hd_error (run (Cap i r) (w ++ s1) c) = Some (s1, <[i := w]> c1).
Proof.
  intros H. cbn [run].
  destruct (run r (w ++ s1) c) as [| y tl]; [discriminate |].
  injection H as ->. cbn [map hd_error fst snd].
  rewrite length_app, Nat.add_sub, take_app_length. reflexivity.
Qed.

Lemma match_at_hd (re : Regexp) (m rest : list ascii) c :
  hd_error (run re (m ++ rest) (replicate (S (NumSubexp re)) [])) = Some (rest, c) ->
  match_at re (m ++ rest) = Some (m, rest, <[0 := m]> c).
Proof.
  intros H. unfold match_at.
  destruct (run re (m ++ rest) _) as [| y tl]; [discriminate |].
  injection H as ->.
  rewrite length_app, Nat.add_sub, take_app_length. reflexivity.
Qed.

Lemma quote_stops_space (q : ascii) (s : list ascii) :
  isQuote q = true -> stops isSpace (q :: s).
Proof. intros H. apply isQuote_cases in H as [-> | ->]; reflexivity. Qed.

Lemma quote_stops_value (q : ascii) (s : list ascii) :
  isQuote q = true -> stops notQuoteParen (q :: s).
Proof. intros H. cbn. unfold notQuoteParen. rewrite H. reflexivity. Qed.

Lemma quote_stops_notQuote (q : ascii) (s : list ascii) :
  isQuote q = true -> stops notQuote (q :: s).
Proof. intros H. cbn. unfold notQuote. rewrite H. reflexivity. Qed.

(** A quoted [url(...)] construct without inner white space is matched
    whole. *)
Lemma urlRegex_quoted (q : ascii) (v post : list ascii) :
  isQuote q = true -> v <> [] -> Forall (fun x => notQuoteParen x = true) v ->
  let m := bs "url(" ++ [q] ++ v ++ [q] ++ bs ")" in
  match_at urlRegex (m ++ post) = Some (m, post, [m; [q]; v; [q]]).
Proof.
  intros Hq Hv Hcls m.
  assert (Hlen : 1 <= length v) by (destruct v; [contradiction | cbn; lia]).
  change [m; [q]; v; [q]]
    with (<[0 := m]> (<[3 := [q]]> (<[2 := v]> (<[1 := [q]]> [[]; []; []; []])))).
  apply match_at_hd. subst m. rewrite <- !app_assoc. unfold urlRegex.
  eapply hd_Seq; [apply hd_Lit |].
  eapply hd_Seq; [apply hd_Rep, rep_zero, quote_stops_space, Hq |].
  eapply hd_Seq; [apply (hd_Cap 1 _ [q]), hd_Rep, rep_one; [exact Hq | lia] |].
  eapply hd_Seq; [apply (hd_Cap 2 _ v), hd_Rep, rep_greedy;
                  [exact Hcls | exact Hlen | apply quote_stops_value, Hq] |].
  eapply hd_Seq; [apply (hd_Cap 3 _ [q]), hd_Rep, rep_one; [exact Hq | lia] |].
  eapply hd_Seq; [apply hd_Rep, rep_zero; reflexivity |].
  apply hd_Lit.
Qed.

(** So is an unquoted one whose value does not start with white
    space. *)
Lemma urlRegex_unquoted (v post : list ascii) :
  v <> [] -> Forall (fun x => notQuoteParen x = true) v -> stops isSpace v ->
  let m := bs "url(" ++ v ++ bs ")" in
  match_at urlRegex (m ++ post) = Some (m, post, [m; []; v; []]).
Proof.
  intros Hv Hcls Hsp m.
  assert (Hlen : 1 <= length v) by (destruct v; [contradiction | cbn; lia]).
  assert (Hnq : stops isQuote (v ++ bs ")" ++ post)).
  { destruct v as [| x v]; [contradiction |]. apply Forall_cons in Hcls as [Hx _].
    cbn. unfold notQuoteParen in Hx. apply negb_true_iff, orb_false_iff in Hx as [Hx _].
    exact Hx. }
  assert (Hns : stops isSpace (v ++ bs ")" ++ post))
    by (destruct v; [contradiction | exact Hsp]).
  change [m; []; v; []]
    with (<[0 := m]> (<[3 := []]> (<[2 := v]> (<[1 := []]> [[]; []; []; []])))).
  apply match_at_hd. subst m. rewrite <- !app_assoc. unfold urlRegex.
  eapply hd_Seq; [apply hd_Lit |].
  eapply hd_Seq; [apply hd_Rep, rep_zero, Hns |].
  eapply hd_Seq; [apply (hd_Cap 1 _ []), hd_Rep, rep_zero, Hnq |].
  eapply hd_Seq; [apply (hd_Cap 2 _ v), hd_Rep, rep_greedy;
                  [exact Hcls | exact Hlen | reflexivity] |].
  eapply hd_Seq; [apply (hd_Cap 3 _ []), hd_Rep, rep_zero; reflexivity |].
  eapply hd_Seq; [apply hd_Rep, rep_zero; reflexivity |].
  apply (hd_Lit (bs ")") post).
Qed.

(** A quoted literal that starts with a scheme and goes on is matched
    whole by [absRegex]. *)
Lemma absRegex_literal (q q' : ascii) (scheme d post : list ascii) :
  isQuote q = true -> isQuote q' = true ->
  scheme = bs "http://" \/ scheme = bs "https://" ->
  d <> [] -> Forall (fun x => notQuote x = true) d ->
  let m := [q] ++ (scheme ++ d) ++ [q'] in
  match_at absRegex (m ++ post) = Some (m, post, [m; [q]; scheme ++ d; [q']]).
Proof.
  intros Hq Hq' Hscheme Hd Hcls m.
  assert (Hlen : 1 <= length d) by (destruct d; [contradiction | cbn; lia]).
  change [m; [q]; scheme ++ d; [q']]
    with (<[0 := m]> (<[3 := [q']]> (<[2 := scheme ++ d]> (<[1 := [q]]> [[]; []; []; []])))).
  apply match_at_hd. subst m. unfold absRegex.
  replace (([q] ++ (scheme ++ d) ++ [q']) ++ post)
    with ([q] ++ ((scheme ++ d) ++ ([q'] ++ post)))
    by (rewrite <- !app_assoc; reflexivity).
  eapply hd_Seq; [apply (hd_Cap 1 _ [q]), hd_Rep, rep_one; [exact Hq | lia] |].
  eapply hd_Seq; [| apply (hd_Cap 3 _ [q']), hd_Rep, rep_one; [exact Hq' | lia]].
  apply (hd_Cap 2 _ (scheme ++ d)).
  destruct Hscheme as [-> | ->].
  - replace ((bs "http://" ++ d) ++ [q'] ++ post)
      with (bs "http" ++ (bs "://" ++ (d ++ q' :: post)))
      by (rewrite <- !app_assoc; reflexivity).
    eapply hd_Seq; [apply hd_Lit |].
    eapply hd_Seq; [apply hd_Rep, rep_zero; reflexivity |].
    eapply hd_Seq; [apply hd_Lit |].
    apply hd_Rep, rep_greedy; [exact Hcls | exact Hlen | apply quote_stops_notQuote, Hq'].
  - replace ((bs "https://" ++ d) ++ [q'] ++ post)
      with (bs "http" ++ ("s"%char :: (bs "://" ++ (d ++ q' :: post))))
      by (rewrite <- !app_assoc; reflexivity).
    eapply hd_Seq; [apply hd_Lit |].
    eapply hd_Seq; [apply hd_Rep, rep_one; [reflexivity | lia] |].
    eapply hd_Seq; [apply hd_Lit |].
    apply hd_Rep, rep_greedy; [exact Hcls | exact Hlen | apply quote_stops_notQuote, Hq'].
Qed.

(** ** Where [absRegex] cannot match *)

Lemma absRegex_needs (s m rest : list ascii) sub :
  match_at absRegex s = Some (m, rest, sub) ->
  exists q s' d q' rest',
    s = q :: s' /\ isQuote q = true
    /\ (s' = bs "http://" ++ d ++ q' :: rest' \/ s' = bs "https://" ++ d ++ q' :: rest')
    /\ isQuote q' = true.
Proof.
  intros H. destruct (match_at_sound _ _ _ _ _ H) as (-> & _).
  destruct (absRegex_shape _ _ _ _ H) as (q & scheme & d & q' & -> & _ & Hq & Hs & _ & _ & Hq').
  assert (Hq1 : exists c, q = [c] /\ isQuote c = true)
    by (destruct Hq as [-> | ->]; eexists; split; reflexivity).
  assert (Hq2 : exists c, q' = [c] /\ isQuote c = true)
    by (destruct Hq' as [-> | ->]; eexists; split; reflexivity).
  destruct Hq1 as (c1 & -> & Hc1). destruct Hq2 as (c2 & -> & Hc2).
  exists c1, ((scheme ++ d) ++ [c2] ++ rest), d, c2, rest.
  split; [rewrite <- !app_assoc; reflexivity |].
  split; [exact Hc1 |]. split; [| exact Hc2].
  destruct Hs as [-> | ->]; [left | right]; rewrite <- !app_assoc; reflexivity.
Qed.

Lemma absRegex_not_at_nonquote (x : ascii) (s : list ascii) :
  isQuote x = false -> match_at absRegex (x :: s) = None.
Proof.
  intros Hx. destruct (match_at absRegex (x :: s)) as [[[m rest] sub] |] eqn:H; [| reflexivity].
  apply absRegex_needs in H as (q & s' & _ & _ & _ & [= <- _] & Hq & _).
  congruence.
Qed.

Lemma find_abs_skip (pre s : list ascii) :
  Forall (fun x => notQuote x = true) pre ->
  find absRegex s = None -> find absRegex (pre ++ s) = None.
Proof.
  induction pre as [| x pre IH]; intros Hpre Hs; [exact Hs |].
  apply Forall_cons in Hpre as [Hx Hpre]. cbn [app find].
  rewrite absRegex_not_at_nonquote
    by (unfold notQuote in Hx; apply negb_true_iff in Hx; exact Hx).
  rewrite IH by assumption. reflexivity.
Qed.

(** A prefix without quotes of a text that continues with a quote
    after [c] lies inside [c]. *)
Lemma HasPrefix_before_quote (p c t : list ascii) (x : ascii) :
  Forall (fun y => notQuote y = true) p -> isQuote x = true ->
  forall d, c ++ x :: t = p ++ d -> HasPrefix c p = true.
Proof.
  intros Hp Hx. revert c. induction p as [| y p IH]; intros c d H; [destruct c; reflexivity |].
  apply Forall_cons in Hp as [Hy Hp].
  destruct c as [| z c]; cbn [app] in H; injection H as H1 H2.
  - subst y. unfold notQuote in Hy. rewrite Hx in Hy. discriminate.
  - subst z. cbn [HasPrefix]. unfold byte_eqb. rewrite Ascii.eqb_refl.
    cbn [andb]. eapply IH; eassumption.
Qed.

(** ** The scan around a match *)

Lemma ReplaceAll_at (re : Regexp) repl (pre m post : list ascii) sub :
  0 < minLen re -> unmatched re pre (m ++ post) ->
  match_at re (m ++ post) = Some (m, post, sub) ->
  ReplaceAllStringFunc re (pre ++ m ++ post) repl
  = pre ++ repl m ++ ReplaceAllStringFunc re post repl.
Proof.
  intros Hmin Hun Hm. unfold ReplaceAllStringFunc.
  rewrite replaceAll_unmatched by exact Hun.
  rewrite (replaceAll_match _ _ _ _ _ _ Hm (match_at_nonempty _ _ _ _ _ Hmin Hm)).
  reflexivity.
Qed.

(** With a replacement function that changes nothing, the scan
    changes nothing. *)
Lemma replaceAll_id (re : Regexp) repl (s : list ascii) :
  (forall m, repl m = m) -> forall k, replaceAll re repl k s = drop k s.
Proof.
  intros Hid. induction s as [| c s IH]; intros k; [destruct k; reflexivity |].
  cbn [replaceAll]. destruct k as [| k]; [| apply IH].
  cbn [drop]. destruct (match_at re (c :: s)) as [[[m rest] sub] |] eqn:Hm.
  - destruct (match_at_sound _ _ _ _ _ Hm) as (Heq & _).
    destruct m as [| c' m]; cbn [length].
    + rewrite IH. reflexivity.
    + cbn [app] in Heq. injection Heq as <- ->.
      rewrite Hid, IH, drop_app_length. reflexivity.
  - rewrite IH. reflexivity.
Qed.

Lemma unmatched_abs_nonquote (pre tail : list ascii) :
  Forall (fun x => notQuote x = true) pre -> unmatched absRegex pre tail.
Proof.
  induction pre as [| x pre IH]; intros H; [exact I |].
  apply Forall_cons in H as [Hx H]. split; [| apply IH, H].
  cbn [app]. apply absRegex_not_at_nonquote.
  unfold notQuote in Hx. apply negb_true_iff in Hx. exact Hx.
Qed.

Lemma absRegex_no_scheme (q q' : ascii) (c post : list ascii) :
  Forall (fun x => notQuote x = true) c ->
  HasPrefix c (bs "http://") = false -> HasPrefix c (bs "https://") = false ->
  isQuote q' = true ->
  match_at absRegex (q :: c ++ q' :: post) = None.
Proof.
  intros Hc H1 H2 Hq'.
  destruct (match_at absRegex _) as [[[m rest] sub] |] eqn:H; [| reflexivity].
  apply absRegex_needs in H as (q0 & s' & d & q1 & rest' & [= <- <-] & _ & [Hs | Hs] & _).
  - assert (Hp : Forall (fun y => notQuote y = true) (bs "http://"))
      by (repeat constructor).
    rewrite (HasPrefix_before_quote _ c post q' Hp Hq' _ Hs) in H1. discriminate.
  - assert (Hp : Forall (fun y => notQuote y = true) (bs "https://"))
      by (repeat constructor).
    rewrite (HasPrefix_before_quote _ c post q' Hp Hq' _ Hs) in H2. discriminate.
Qed.

Lemma absRegex_needs_closing_quote (q : ascii) (post : list ascii) :
  Forall (fun x => notQuote x = true) post -> match_at absRegex (q :: post) = None.
Proof.
  intros Hpost.
  destruct (match_at absRegex _) as [[[m rest] sub] |] eqn:H; [| reflexivity].
  apply absRegex_needs in H as (q0 & s' & d & q1 & rest' & [= <- <-] & _ & Hs & Hq1).
  assert (Hin : In q1 post)
    by (destruct Hs as [-> | ->]; rewrite !in_app_iff; right; right; left; reflexivity).
  rewrite Forall_forall in Hpost. apply list_elem_of_In, Hpost in Hin.
  unfold notQuote in Hin. rewrite Hq1 in Hin. discriminate.
Qed.

Lemma find_abs_no_scheme (pre c post : list ascii) (q q' : ascii) :
  Forall (fun x => notQuote x = true) pre ->
  Forall (fun x => notQuote x = true) c ->
  HasPrefix c (bs "http://") = false -> HasPrefix c (bs "https://") = false ->
  isQuote q' = true ->
  Forall (fun x => notQuote x = true) post ->
  find absRegex (pre ++ [q] ++ c ++ [q'] ++ post) = None.
Proof.
  intros Hpre Hc H1 H2 Hq' Hpost.
  apply find_abs_skip; [exact Hpre |].
  cbn [app find]. rewrite absRegex_no_scheme by assumption.
  rewrite find_abs_skip; [reflexivity | exact Hc |].
  cbn [find]. rewrite absRegex_needs_closing_quote by exact Hpost.
  rewrite <- (app_nil_r post), find_abs_skip; [reflexivity | exact Hpost | reflexivity].
Qed.

(** ** The other patterns *)

Lemma one_or_two_dots (w : list ascii) :
  Forall (fun x => isDot x = true) w -> 1 <= length w -> length w <= 2 ->
  w = bs "." \/ w = bs "..".
Proof.
  intros Hw H1 H2.
  destruct w as [| a [| b [| c w]]]; cbn in H1, H2; try lia.
  - apply Forall_cons in Hw as [Ha _]. apply Ascii.eqb_eq in Ha as ->. left. reflexivity.
  - apply Forall_cons in Hw as [Ha Hw]. apply Forall_cons in Hw as [Hb _].
    apply Ascii.eqb_eq in Ha as ->. apply Ascii.eqb_eq in Hb as ->. right. reflexivity.
Qed.

(** What [relImportRegex] matches, and the submatches it reports. *)
Lemma relImportRegex_shape s m rest sub :
  match_at relImportRegex s = Some (m, rest, sub) ->
  exists ws q dots d q',
    m = bs "import(" ++ ws ++ q ++ (dots ++ bs "/" ++ d) ++ q'
    /\ sub = [m; q; dots ++ bs "/" ++ d; q']
    /\ Forall (fun x => isSpace x = true) ws
    /\ (q = [dquote] \/ q = [squote])
    /\ (dots = bs "." \/ dots = bs "..")
    /\ d <> [] /\ Forall (fun x => notQuote x = true) d
    /\ (q' = [dquote] \/ q' = [squote]).
Proof.
  intros H. apply match_at_sound in H as (_ & c & Hsem & ->).
  unfold relImportRegex in Hsem. inv_sem.
  eexists _, _, _, _, _. split; [reflexivity |].
  split; [reflexivity |].
  repeat split; auto using one_quote, nonempty_length, one_or_two_dots.
Qed.

Lemma staticImportRegex_shape s m rest sub :
  match_at staticImportRegex s = Some (m, rest, sub) ->
  exists ws q dots d q',
    m = bs "from" ++ ws ++ q ++ (dots ++ bs "/" ++ d) ++ q'
    /\ sub = [m; q; dots ++ bs "/" ++ d; q']
    /\ Forall (fun x => isSpace x = true) ws
    /\ (q = [dquote] \/ q = [squote])
    /\ (dots = bs "." \/ dots = bs "..")
    /\ d <> [] /\ Forall (fun x => notQuote x = true) d
    /\ (q' = [dquote] \/ q' = [squote]).
Proof.
  intros H. apply match_at_sound in H as (_ & c & Hsem & ->).
  unfold staticImportRegex in Hsem. inv_sem.
  eexists _, _, _, _, _. split; [reflexivity |].
  split; [reflexivity |].
  repeat split; auto using one_quote, nonempty_length, one_or_two_dots.
Qed.

Lemma urlFuncRegex_shape s m rest sub :
  match_at urlFuncRegex s = Some (m, rest, sub) ->
  exists ws1 q d q' ws2,
    m = bs "URL(" ++ ws1 ++ q ++ (bs "/" ++ d) ++ q' ++ ws2 ++ bs ")"
    /\ sub = [m; q; bs "/" ++ d; q']
    /\ Forall (fun x => isSpace x = true) ws1
    /\ (q = [dquote] \/ q = [squote])
    /\ Forall (fun x => notQuote x = true) d
    /\ (q' = [dquote] \/ q' = [squote])
    /\ Forall (fun x => isSpace x = true) ws2.
Proof.
  intros H. apply match_at_sound in H as (_ & c & Hsem & ->).
  unfold urlFuncRegex in Hsem. inv_sem.
  eexists _, _, _, _, _. split; [reflexivity |].
  split; [reflexivity |].
  repeat split; auto using one_quote, nonempty_length.
Qed.

(** ** Matches need their delimiters *)

(** A pattern all of whose matches contain a character of [p] has no
    match in a text without such characters. *)
Lemma find_none_without (re : Regexp) (p : ascii -> bool) :
  (forall s m rest sub, match_at re s = Some (m, rest, sub) ->
     exists x, In x m /\ p x = true) ->
  forall s, Forall (fun x => p x = false) s -> find re s = None.
Proof.
  intros Hneed.
  assert (Hat : forall s, Forall (fun x => p x = false) s -> match_at re s = None).
  { intros s Hs. destruct (match_at re s) as [[[m rest] sub] |] eqn:H; [| reflexivity].
    destruct (Hneed _ _ _ _ H) as (x & Hx & Hp).
    apply match_at_sound in H as (-> & _).
    rewrite Forall_forall in Hs.
    rewrite (Hs x) in Hp; [discriminate |].
    apply list_elem_of_In, in_app_iff. left. exact Hx. }
  induction s as [| c s IH]; intros Hs.
  - cbn [find]. rewrite Hat by exact Hs. reflexivity.
  - cbn [find]. rewrite Hat by exact Hs.
    apply Forall_cons in Hs as [_ Hs]. rewrite IH by exact Hs. reflexivity.
Qed.

Lemma quote_in (q : list ascii) (a b : list ascii) :
  q = [dquote] \/ q = [squote] ->
  exists x, In x (a ++ q ++ b) /\ isQuote x = true.
Proof.
  intros [-> | ->]; eexists; (split; [apply in_app_iff; right; left; reflexivity | reflexivity]).
Qed.

Lemma absRegex_has_quote s m rest sub :
  match_at absRegex s = Some (m, rest, sub) -> exists x, In x m /\ isQuote x = true.
Proof.
  intros H. apply absRegex_shape in H as (q & scheme & d & q' & -> & _ & Hq & _).
  apply (quote_in q [] _ Hq).
Qed.

Lemma relImportRegex_has_quote s m rest sub :
  match_at relImportRegex s = Some (m, rest, sub) -> exists x, In x m /\ isQuote x = true.
Proof.
  intros H. apply relImportRegex_shape in H as (ws & q & dots & d & q' & -> & _ & _ & Hq & _).
  rewrite (app_assoc (bs "import(") ws). apply quote_in, Hq.
Qed.

Lemma staticImportRegex_has_quote s m rest sub :
  match_at staticImportRegex s = Some (m, rest, sub) -> exists x, In x m /\ isQuote x = true.
Proof.
  intros H. apply staticImportRegex_shape in H as (ws & q & dots & d & q' & -> & _ & _ & Hq & _).
  rewrite (app_assoc (bs "from") ws). apply quote_in, Hq.
Qed.

Lemma urlFuncRegex_has_quote s m rest sub :
  match_at urlFuncRegex s = Some (m, rest, sub) -> exists x, In x m /\ isQuote x = true.
Proof.
  intros H. apply urlFuncRegex_shape in H as (ws1 & q & d & q' & ws2 & -> & _ & _ & Hq & _).
  rewrite (app_assoc (bs "URL(") ws1). apply quote_in, Hq.
Qed.

Lemma urlRegex_has_paren s m rest sub :
  match_at urlRegex s = Some (m, rest, sub) ->
  exists x, In x m /\ byte_eqb x "(" = true.
Proof.
  intros H. apply urlRegex_shape in H as (ws1 & q & v & q' & ws2 & -> & _).
  exists "("%char. split; [| reflexivity]. cbn. auto.
Qed.

Lemma importRegex_has_at s m rest sub :
  match_at importRegex s = Some (m, rest, sub) ->
  exists x, In x m /\ byte_eqb x "@" = true.
Proof.
  intros H. apply importRegex_shape in H as (ws & q & v & q' & -> & _).
  exists "@"%char. split; [| reflexivity]. cbn. auto.
Qed.

(** ** The first result, for the other patterns *)

Lemma rep_dots (dots s : list ascii) :
  dots = bs "." \/ dots = bs ".." -> stops isDot s ->
  hd_error (rep isDot 1 (Some 2) (dots ++ s)) = Some s.
Proof.
  intros [-> | ->] Hs; cbn [app list_ascii_of_string].
  - cbn [rep isDot byte_eqb Ascii.eqb Bool.eqb andb can_take dec_max pred Nat.eqb].
    rewrite app_nil_r. apply rep_zero, Hs.
  - cbn [rep isDot byte_eqb Ascii.eqb Bool.eqb andb can_take dec_max pred Nat.eqb].
    rewrite rep_max0. reflexivity.
Qed.

Lemma space_run (ws : list ascii) (q : ascii) (s : list ascii) c :
  Forall (fun x => isSpace x = true) ws -> isQuote q = true ->
  hd_error (run (Rep isSpace 0 None) (ws ++ q :: s) c) = Some (q :: s, c).
Proof.
  intros Hws Hq. apply hd_Rep, rep_greedy; [exact Hws | lia | apply quote_stops_space, Hq].
Qed.

(** The path of a relative import between quotes, at the start of
    [post]. *)
Lemma relPath_run (dots d : list ascii) (q' : ascii) (post : list ascii) c :
  dots = bs "." \/ dots = bs ".." ->
  d <> [] -> Forall (fun x => notQuote x = true) d -> isQuote q' = true ->
  hd_error (run (Rep isDot 1 (Some 2) · Lit (bs "/") · Rep notQuote 1 None)%re
                ((dots ++ bs "/" ++ d) ++ q' :: post) c)
  = Some (q' :: post, c).
Proof.
  intros Hdots Hd Hcls Hq'.
  assert (Hlen : 1 <= length d) by (destruct d; [contradiction | cbn; lia]).
  rewrite <- !app_assoc.
  eapply hd_Seq; [apply hd_Rep, rep_dots; [exact Hdots | reflexivity] |].
  eapply hd_Seq; [apply hd_Lit |].
  apply hd_Rep, rep_greedy; [exact Hcls | exact Hlen | apply quote_stops_notQuote, Hq'].
Qed.

Lemma relImportRegex_construct (ws : list ascii) (q q' : ascii) (dots d post : list ascii) :
  Forall (fun x => isSpace x = true) ws ->
  isQuote q = true -> isQuote q' = true ->
  dots = bs "." \/ dots = bs ".." ->
  d <> [] -> Forall (fun x => notQuote x = true) d ->
  let m := bs "import(" ++ ws ++ [q] ++ (dots ++ bs "/" ++ d) ++ [q'] in
  match_at relImportRegex (m ++ post)
  = Some (m, post, [m; [q]; dots ++ bs "/" ++ d; [q']]).
Proof.
  intros Hws Hq Hq' Hdots Hd Hcls m.
  change [m; [q]; dots ++ bs "/" ++ d; [q']]
    with (<[0 := m]> (<[3 := [q']]> (<[2 := dots ++ bs "/" ++ d]>
            (<[1 := [q]]> [[]; []; []; []])))).
  apply match_at_hd. subst m. unfold relImportRegex.
  replace ((bs "import(" ++ ws ++ [q] ++ (dots ++ bs "/" ++ d) ++ [q']) ++ post)
    with (bs "import(" ++ (ws ++ q :: ([] ++ (dots ++ bs "/" ++ d) ++ ([q'] ++ post))))
    by (rewrite <- !app_assoc; reflexivity).
  eapply hd_Seq; [apply hd_Lit |].
  eapply hd_Seq; [apply space_run; assumption |].
  eapply hd_Seq; [apply (hd_Cap 1 _ [q]), hd_Rep, rep_one; [exact Hq | lia] |].
  eapply hd_Seq; [| apply (hd_Cap 3 _ [q']), hd_Rep, rep_one; [exact Hq' | lia]].
  cbn [app]. apply (hd_Cap 2 _ (dots ++ bs "/" ++ d)).
  apply relPath_run; assumption.
Qed.

Lemma staticImportRegex_construct (ws : list ascii) (q q' : ascii) (dots d post : list ascii) :
  Forall (fun x => isSpace x = true) ws ->
  isQuote q = true -> isQuote q' = true ->
  dots = bs "." \/ dots = bs ".." ->
  d <> [] -> Forall (fun x => notQuote x = true) d ->
  let m := bs "from" ++ ws ++ [q] ++ (dots ++ bs "/" ++ d) ++ [q'] in
  match_at staticImportRegex (m ++ post)
  = Some (m, post, [m; [q]; dots ++ bs "/" ++ d; [q']]).
Proof.
  intros Hws Hq Hq' Hdots Hd Hcls m.
  change [m; [q]; dots ++ bs "/" ++ d; [q']]
    with (<[0 := m]> (<[3 := [q']]> (<[2 := dots ++ bs "/" ++ d]>
            (<[1 := [q]]> [[]; []; []; []])))).
  apply match_at_hd. subst m. unfold staticImportRegex.
  replace ((bs "from" ++ ws ++ [q] ++ (dots ++ bs "/" ++ d) ++ [q']) ++ post)
    with (bs "from" ++ (ws ++ q :: ([] ++ (dots ++ bs "/" ++ d) ++ ([q'] ++ post))))
    by (rewrite <- !app_assoc; reflexivity).
  eapply hd_Seq; [apply hd_Lit |].
  eapply hd_Seq; [apply space_run; assumption |].
  eapply hd_Seq; [apply (hd_Cap 1 _ [q]), hd_Rep, rep_one; [exact Hq | lia] |].
  eapply hd_Seq; [| apply (hd_Cap 3 _ [q']), hd_Rep, rep_one; [exact Hq' | lia]].
  cbn [app]. apply (hd_Cap 2 _ (dots ++ bs "/" ++ d)).
  apply relPath_run; assumption.
Qed.

Lemma urlFuncRegex_construct (ws1 ws2 : list ascii) (q q' : ascii) (d post : list ascii) :
  Forall (fun x => isSpace x = true) ws1 ->
  Forall (fun x => isSpace x = true) ws2 ->
  isQuote q = true -> isQuote q' = true ->
  Forall (fun x => notQuote x = true) d ->
  let m := bs "URL(" ++ ws1 ++ [q] ++ (bs "/" ++ d) ++ [q'] ++ ws2 ++ bs ")" in
  match_at urlFuncRegex (m ++ post)
  = Some (m, post, [m; [q]; bs "/" ++ d; [q']]).
Proof.
  intros Hws1 Hws2 Hq Hq' Hcls m.
  change [m; [q]; bs "/" ++ d; [q']]
    with (<[0 := m]> (<[3 := [q']]> (<[2 := bs "/" ++ d]>
            (<[1 := [q]]> [[]; []; []; []])))).
  apply match_at_hd. subst m. unfold urlFuncRegex.
  replace ((bs "URL(" ++ ws1 ++ [q] ++ (bs "/" ++ d) ++ [q'] ++ ws2 ++ bs ")") ++ post)
    with (bs "URL(" ++ (ws1 ++ q :: ([] ++ (bs "/" ++ d)
            ++ ([q'] ++ (ws2 ++ (bs ")" ++ post))))))
    by (rewrite <- !app_assoc; reflexivity).
  eapply hd_Seq; [apply hd_Lit |].
  eapply hd_Seq; [apply space_run; assumption |].
  eapply hd_Seq; [apply (hd_Cap 1 _ [q]), hd_Rep, rep_one; [exact Hq | lia] |].
  eapply hd_Seq.
  { cbn [app]. apply (hd_Cap 2 _ (bs "/" ++ d)). rewrite <- app_assoc.
    eapply hd_Seq; [apply hd_Lit |].
    apply hd_Rep, rep_greedy; [exact Hcls | lia | apply quote_stops_notQuote, Hq']. }
  eapply hd_Seq; [apply (hd_Cap 3 _ [q']), hd_Rep, rep_one; [exact Hq' | lia] |].
  eapply hd_Seq; [apply hd_Rep, rep_greedy; [exact Hws2 | lia | reflexivity] |].
  apply hd_Lit.
Qed.

Lemma importRegex_construct (ws : list ascii) (q q' : ascii) (v post : list ascii) :
  ws <> [] -> Forall (fun x => isSpace x = true) ws ->
  isQuote q = true -> isQuote q' = true ->
  v <> [] -> Forall (fun x => notQuote x = true) v ->
  let m := bs "@import" ++ ws ++ [q] ++ v ++ [q'] in
  match_at importRegex (m ++ post) = Some (m, post, [m; [q]; v; [q']]).
Proof.
  intros Hne Hws Hq Hq' Hv Hcls m.
  assert (Hlen : 1 <= length v) by (destruct v; [contradiction | cbn; lia]).
  assert (Hlws : 1 <= length ws) by (destruct ws; [contradiction | cbn; lia]).
  change [m; [q]; v; [q']]
    with (<[0 := m]> (<[3 := [q']]> (<[2 := v]> (<[1 := [q]]> [[]; []; []; []])))).
  apply match_at_hd. subst m. unfold importRegex.
  replace ((bs "@import" ++ ws ++ [q] ++ v ++ [q']) ++ post)
    with (bs "@import" ++ (ws ++ q :: ([] ++ v ++ ([q'] ++ post))))
    by (rewrite <- !app_assoc; reflexivity).
  eapply hd_Seq; [apply hd_Lit |].
  eapply hd_Seq; [apply hd_Rep, rep_greedy;
                  [exact Hws | exact Hlws | apply quote_stops_space, Hq] |].
  eapply hd_Seq; [apply (hd_Cap 1 _ [q]), hd_Rep, rep_one; [exact Hq | lia] |].
  eapply hd_Seq; [| apply (hd_Cap 3 _ [q']), hd_Rep, rep_one; [exact Hq' | lia]].
  cbn [app]. apply (hd_Cap 2 _ v).
  apply hd_Rep, rep_greedy; [exact Hcls | exact Hlen | apply quote_stops_notQuote, Hq'].
Qed.

(** ** Splitting a text at its first or last character of a kind *)

Lemma first_split_unique (p : ascii -> bool) (x x' y y' : list ascii) (c c' : ascii) :
  Forall (fun a => p a = false) x -> Forall (fun a => p a = false) x' ->
  p c = true -> p c' = true ->
  x ++ c :: y = x' ++ c' :: y' -> x = x' /\ c = c' /\ y = y'.
Proof.
  intros Hx Hx' Hc Hc'. revert x' Hx'.
  induction x as [| a x IH]; intros [| a' x'] Hx' H; cbn [app] in H.
  - injection H as -> ->. auto.
  - injection H as -> _. apply Forall_cons in Hx' as [Ha _]. congruence.
  - injection H as -> _. apply Forall_cons in Hx as [Ha _]. congruence.
  - injection H as -> H. apply Forall_cons in Hx as [_ Hx].
    apply Forall_cons in Hx' as [_ Hx'].
    destruct (IH Hx x' Hx' H) as (-> & -> & ->). auto.
Qed.

Lemma last_split_unique (p : ascii -> bool) (x x' y y' : list ascii) (c c' : ascii) :
  Forall (fun a => p a = true) y -> Forall (fun a => p a = true) y' ->
  p c = false -> p c' = false ->
  x ++ c :: y = x' ++ c' :: y' -> x = x' /\ c = c' /\ y = y'.
Proof.
  intros Hy Hy' Hc Hc' H.
  apply (f_equal (@rev ascii)) in H.
  rewrite !rev_app_distr in H. cbn [rev] in H. rewrite <- !app_assoc in H.
  cbn [app] in H.
  apply (first_split_unique (fun a => negb (p a))) in H.
  - destruct H as (H1 & -> & H2).
    apply (f_equal (@rev ascii)) in H1, H2. rewrite !rev_involutive in H1, H2.
    auto.
  - apply Forall_rev. eapply Forall_impl; [exact Hy |].
    intros a Ha. cbv beta in *. rewrite Ha. reflexivity.
  - apply Forall_rev. eapply Forall_impl; [exact Hy' |].
    intros a Ha. cbv beta in *. rewrite Ha. reflexivity.
  - rewrite Hc. reflexivity.
  - rewrite Hc'. reflexivity.
Qed.

Lemma notQuote_false (l : list ascii) :
  Forall (fun x => notQuote x = true) l -> Forall (fun x => isQuote x = false) l.
Proof.
  intros H. eapply Forall_impl; [exact H |].
  intros a Ha. unfold notQuote in Ha. apply negb_true_iff, Ha.
Qed.

Lemma space_notQuote (l : list ascii) :
  Forall (fun x => isSpace x = true) l -> Forall (fun x => notQuote x = true) l.
Proof.
  intros H0. eapply Forall_impl; [exact H0 |]. intros a Ha.
  pose proof (ascii_forall (fun a => negb (isSpace a) || notQuote a)
                ltac:(vm_compute; reflexivity) a) as H.
  cbv beta in H. rewrite Ha in H. exact H.
Qed.

(** ** No match at any position *)

Lemma find_none_suffixes (re : Regexp) (s : list ascii) :
  (forall a b, s = a ++ b -> match_at re b = None) -> find re s = None.
Proof.
  induction s as [| c s IH]; intros H; cbn [find].
  - rewrite (H [] []) by reflexivity. reflexivity.
  - rewrite (H [] (c :: s)) by reflexivity.
    rewrite IH; [reflexivity |].
    intros a b ->. apply (H (c :: a) b). reflexivity.
Qed.

(** ** The patterns that look for a quoted text after a keyword *)

Section QuotedMatch.

Variables (re : Regexp) (lit0 : list ascii) (l : ascii) (ok : list ascii -> bool).
Hypothesis Hre : quotedMatch re lit0 l ok.
Hypothesis Hlit0 : Forall (fun x => notQuote x = true) lit0.
Hypothesis Hl : notQuote l = true.
Hypothesis Hlsp : isSpace l = false.

Lemma quotedMatch_before_quote (x tail m rest : list ascii) (q : ascii) sub :
  Forall (fun a => notQuote a = true) x -> isQuote q = true ->
  match_at re (x ++ q :: tail) = Some (m, rest, sub) ->
  exists ws0 y q1 z,
    x = (lit0 ++ [l]) ++ ws0
    /\ Forall (fun a => isSpace a = true) ws0
    /\ tail = y ++ q1 :: z
    /\ Forall (fun a => notQuote a = true) y
    /\ isQuote q1 = true /\ ok y = true.
Proof.
  intros Hx Hq H.
  destruct (Hre _ _ _ _ H) as (ws0 & q0 & y & q1 & z & E & Hws & Hq0 & Hy & Hq1 & Hok).
  rewrite (app_assoc (lit0 ++ [l]) ws0) in E.
  apply (first_split_unique isQuote) in E as (-> & -> & ->);
    [| apply notQuote_false, Hx
     | apply notQuote_false; repeat (apply Forall_app; split);
       [exact Hlit0 | repeat constructor; exact Hl | apply space_notQuote, Hws]
     | exact Hq | exact Hq0].
  exists ws0, y, q1, z. auto 10.
Qed.

Lemma quotedMatch_no_quote (b : list ascii) :
  Forall (fun a => notQuote a = true) b -> match_at re b = None.
Proof.
  intros Hb. destruct (match_at re b) as [[[m rest] sub] |] eqn:H; [| reflexivity].
  destruct (Hre _ _ _ _ H) as (ws0 & q0 & y & q1 & z & -> & _ & Hq0 & _).
  apply notQuote_false in Hb. rewrite Forall_forall in Hb.
  rewrite (Hb q0) in Hq0; [discriminate |].
  apply list_elem_of_In. rewrite !in_app_iff. right. right. left. reflexivity.
Qed.

Lemma quotedMatch_one_quote (c b : list ascii) (q : ascii) :
  Forall (fun a => notQuote a = true) c -> isQuote q = true ->
  Forall (fun a => notQuote a = true) b ->
  match_at re (c ++ q :: b) = None.
Proof.
  intros Hc Hq Hb.
  destruct (match_at re (c ++ q :: b)) as [[[m rest] sub] |] eqn:H; [| reflexivity].
  destruct (quotedMatch_before_quote _ _ _ _ _ _ Hc Hq H)
    as (ws0 & y & q1 & z & _ & _ & -> & _ & Hq1 & _).
  apply notQuote_false in Hb. rewrite Forall_forall in Hb.
  rewrite (Hb q1) in Hq1; [discriminate |].
  apply list_elem_of_In, in_app_iff. right. left. reflexivity.
Qed.

(** A text with two quotes and nothing the pattern can take between
    or before them has no match. *)
Lemma quotedMatch_find_none (a c b : list ascii) (q q' : ascii) :
  Forall (fun x => notQuote x = true) a -> isQuote q = true ->
  Forall (fun x => notQuote x = true) c -> isQuote q' = true ->
  Forall (fun x => notQuote x = true) b ->
  ok c = false
  \/ (forall a1 ws0, a = a1 ++ (lit0 ++ [l]) ++ ws0 ->
        Forall (fun x => isSpace x = true) ws0 -> False) ->
  find re (a ++ q :: c ++ q' :: b) = None.
Proof.
  intros Ha Hq Hc Hq' Hb Hno.
  apply find_none_suffixes. intros a0 t E.
  apply app_eq_app in E as [a2 [[-> ->] | [-> E]]].
  - (* the position is before the first quote *)
    destruct (match_at re (a2 ++ q :: c ++ q' :: b)) as [[[m rest] sub] |] eqn:H;
      [| reflexivity].
    apply Forall_app in Ha as [_ Ha2].
    destruct (quotedMatch_before_quote _ _ _ _ _ _ Ha2 Hq H)
      as (ws0 & y & q1 & z & -> & Hws & E & Hy & Hq1 & Hok).
    destruct Hno as [Hno | Hno]; [| destruct (Hno a0 ws0 eq_refl Hws)].
    apply (first_split_unique isQuote) in E as (-> & _ & _);
      [congruence | apply notQuote_false, Hc | apply notQuote_false, Hy
       | exact Hq' | exact Hq1].
  - (* the position is at the first quote or after it *)
    destruct a2 as [| x a2]; cbn [app] in E.
    + subst t.
      destruct (match_at re (q :: c ++ q' :: b)) as [[[m rest] sub] |] eqn:H;
        [| reflexivity].
      destruct (quotedMatch_before_quote [] _ _ _ _ _ (Forall_nil_2 _) Hq H)
        as (ws0 & y & q1 & z & E & _).
      destruct lit0; discriminate.
    + injection E as _ E.
      apply app_eq_app in E as [c2 [[-> ->] | [-> E]]].
      * apply Forall_app in Hc as [_ Hc2].
        apply quotedMatch_one_quote; assumption.
      * destruct c2 as [| x' c2]; cbn [app] in E.
        -- subst t. apply (quotedMatch_one_quote []); [constructor | assumption ..].
        -- injection E as _ ->. apply Forall_app in Hb as [_ Hb2].
           apply quotedMatch_no_quote, Hb2.
Qed.

(** No match starts in a text without quotes that stands before the
    keyword of the pattern, white space and a quote. *)
Lemma quotedMatch_unmatched (pre ws tail : list ascii) (q : ascii) :
  Forall (fun x => notQuote x = true) pre ->
  Forall (fun x => isSpace x = true) ws -> isQuote q = true ->
  unmatched re pre (((lit0 ++ [l]) ++ ws ++ [q]) ++ tail).
Proof.
  intros Hpre Hws Hq. induction pre as [| x pre IH]; [exact I |].
  pose proof Hpre as Hpre0.
  apply Forall_cons in Hpre as [Hx Hpre]. split; [| apply IH, Hpre].
  destruct (match_at re _) as [[[m rest] sub] |] eqn:H; [| reflexivity].
  exfalso.
  replace ((x :: pre) ++ ((lit0 ++ [l]) ++ ws ++ [q]) ++ tail)
    with (((x :: pre) ++ (lit0 ++ [l]) ++ ws) ++ q :: tail) in H
    by (rewrite <- !app_assoc; reflexivity).
  apply quotedMatch_before_quote in H as (ws0 & y & q1 & z & E & Hws0 & _);
    [| | exact Hq].
  - rewrite <- !app_assoc in E. rewrite (app_assoc (x :: pre) lit0) in E.
    cbn [app] in E.
    change (x :: pre ++ lit0 ++ l :: ws) with ((x :: pre ++ lit0) ++ l :: ws) in E.
    apply (last_split_unique isSpace (x :: pre ++ lit0) lit0 ws ws0 l l) in E
      as (E & _ & _); try assumption.
    apply (f_equal (@length ascii)) in E. cbn [length] in E.
    rewrite length_app in E. lia.
  - repeat (apply Forall_app; split);
      [exact Hpre0 | exact Hlit0 | repeat constructor; exact Hl | apply space_notQuote, Hws].
Qed.

End QuotedMatch.

Lemma quote_char (q : list ascii) :
  q = [dquote] \/ q = [squote] -> exists c, q = [c] /\ isQuote c = true.
Proof. intros [-> | ->]; eexists; split; reflexivity. Qed.

Lemma relPath_notQuote (dots d : list ascii) :
  dots = bs "." \/ dots = bs ".." -> Forall (fun x => notQuote x = true) d ->
  Forall (fun x => notQuote x = true) (dots ++ bs "/" ++ d)
  /\ HasPrefix (dots ++ bs "/" ++ d) (bs ".") = true
  /\ HasPrefix (dots ++ bs "/" ++ d) (bs "http://") = false
  /\ HasPrefix (dots ++ bs "/" ++ d) (bs "https://") = false
  /\ HasPrefix (dots ++ bs "/" ++ d) (bs "/") = false.
Proof.
  intros [-> | ->] Hd; (split; [repeat constructor; exact Hd | repeat split]).
Qed.

Lemma relImportRegex_quotedMatch :
  quotedMatch relImportRegex (bs "import") "(" (fun y => HasPrefix y (bs ".")).
Proof.
  intros t m rest sub H.
  destruct (match_at_sound _ _ _ _ _ H) as (-> & _).
  destruct (relImportRegex_shape _ _ _ _ H)
    as (ws & q & dots & d & q' & -> & _ & Hws & Hq & Hdots & _ & Hd & Hq').
  destruct (quote_char q Hq) as (c & -> & Hc).
  destruct (quote_char q' Hq') as (c' & -> & Hc').
  destruct (relPath_notQuote dots d Hdots Hd) as (Hy & Hok & _).
  exists ws, c, (dots ++ bs "/" ++ d), c', rest.
  split; [rewrite <- !app_assoc; reflexivity | auto 10].
Qed.

Lemma staticImportRegex_quotedMatch :
  quotedMatch staticImportRegex (bs "fro") "m" (fun y => HasPrefix y (bs ".")).
Proof.
  intros t m rest sub H.
  destruct (match_at_sound _ _ _ _ _ H) as (-> & _).
  destruct (staticImportRegex_shape _ _ _ _ H)
    as (ws & q & dots & d & q' & -> & _ & Hws & Hq & Hdots & _ & Hd & Hq').
  destruct (quote_char q Hq) as (c & -> & Hc).
  destruct (quote_char q' Hq') as (c' & -> & Hc').
  destruct (relPath_notQuote dots d Hdots Hd) as (Hy & Hok & _).
  exists ws, c, (dots ++ bs "/" ++ d), c', rest.
  split; [rewrite <- !app_assoc; reflexivity | auto 10].
Qed.

Lemma urlFuncRegex_quotedMatch :
  quotedMatch urlFuncRegex (bs "URL") "(" (fun y => HasPrefix y (bs "/")).
Proof.
  intros t m rest sub H.
  destruct (match_at_sound _ _ _ _ _ H) as (-> & _).
  destruct (urlFuncRegex_shape _ _ _ _ H)
    as (ws1 & q & d & q' & ws2 & -> & _ & Hws & Hq & Hd & Hq' & _).
  destruct (quote_char q Hq) as (c & -> & Hc).
  destruct (quote_char q' Hq') as (c' & -> & Hc').
  exists ws1, c, (bs "/" ++ d), c', (ws2 ++ bs ")" ++ rest).
  split; [rewrite <- !app_assoc; reflexivity |].
  repeat split; auto. repeat constructor. exact Hd.
Qed.

(** A link of the proxy does not start with a dot or a slash when the
    origin starts with http, and has no quote when the origin has
    none. *)
Lemma link_shape (origin e : list ascii) :
  HasPrefix origin (bs "http") = true ->
  Forall (fun x => notQuote x = true) origin ->
  Forall (fun c => isURLSafeBase64 c = true) e ->
  let L := origin ++ bs "/" ++ e ++ bs "?browse=1" in
  Forall (fun x => notQuote x = true) L
  /\ HasPrefix L (bs ".") = false /\ HasPrefix L (bs "/") = false.
Proof.
  intros Hp Ho He L. split; [| split].
  - subst L. repeat (apply Forall_app; split); try exact Ho; [repeat constructor | |].
    + eapply Forall_impl; [exact He |]. intros a Ha.
      pose proof (ascii_forall (fun a => negb (isURLSafeBase64 a) || notQuote a)
                    ltac:(vm_compute; reflexivity) a) as H.
      cbv beta in H. rewrite Ha in H. exact H.
    + repeat constructor.
  - destruct origin as [| c o]; [discriminate |].
    cbn [HasPrefix list_ascii_of_string] in Hp. apply andb_true_iff in Hp as [Hc _].
    apply Ascii.eqb_eq in Hc as ->. reflexivity.
  - destruct origin as [| c o]; [discriminate |].
    cbn [HasPrefix list_ascii_of_string] in Hp. apply andb_true_iff in Hp as [Hc _].
    apply Ascii.eqb_eq in Hc as ->. reflexivity.
Qed.

(** ** The patterns that start with a keyword *)

(** No match of a pattern whose matches all start with [lit0 ++ [l]]
    starts in a text without [l] that stands before that keyword. *)
Lemma unmatched_before_keyword (re : Regexp) (p : ascii -> bool)
      (lit0 : list ascii) (l : ascii) :
  (forall t m rest sub, match_at re t = Some (m, rest, sub) ->
     exists z, t = lit0 ++ l :: z) ->
  Forall (fun x => p x = false) lit0 -> p l = true ->
  forall pre tail,
  Forall (fun x => p x = false) pre ->
  unmatched re pre (lit0 ++ l :: tail).
Proof.
  intros Hre Hlit0 Hl pre tail Hpre.
  induction pre as [| x pre IH]; [exact I |].
  pose proof Hpre as Hpre0.
  apply Forall_cons in Hpre as [Hx Hpre]. split; [| apply IH, Hpre].
  destruct (match_at re _) as [[[m rest] sub] |] eqn:H; [| reflexivity].
  exfalso. destruct (Hre _ _ _ _ H) as [z E].
  rewrite app_assoc in E.
  apply (first_split_unique p) in E as (E & _ & _); auto.
  - apply (f_equal (@length ascii)) in E. rewrite length_app in E.
    cbn [length] in E. lia.
  - apply Forall_app. split; assumption.
Qed.

Lemma urlRegex_keyword t m rest sub :
  match_at urlRegex t = Some (m, rest, sub) -> exists z, t = bs "url" ++ "("%char :: z.
Proof.
  intros H. destruct (match_at_sound _ _ _ _ _ H) as (-> & _).
  destruct (urlRegex_shape _ _ _ _ H) as (ws1 & q & v & q' & ws2 & -> & _).
  eexists. rewrite <- !app_assoc. reflexivity.
Qed.

Lemma importRegex_keyword t m rest sub :
  match_at importRegex t = Some (m, rest, sub) -> exists z, t = [] ++ "@"%char :: z.
Proof.
  intros H. destruct (match_at_sound _ _ _ _ _ H) as (-> & _).
  destruct (importRegex_shape _ _ _ _ H) as (ws & q & v & q' & -> & _).
  eexists. rewrite <- !app_assoc. reflexivity.
Qed.

(** A [url(...)] construct with the same quote, or none, on both
    sides is matched whole. *)
Lemma urlRegex_construct (qs v post : list ascii) :
  quoteOrNone qs -> (qs = [] -> stops isSpace v) ->
  v <> [] -> Forall (fun x => notQuoteParen x = true) v ->
  let m := bs "url(" ++ qs ++ v ++ qs ++ bs ")" in
  match_at urlRegex (m ++ post) = Some (m, post, [m; qs; v; qs]).
Proof.
  intros [-> | Hq] Hsp Hv Hcls.
  - apply (urlRegex_unquoted v post Hv Hcls (Hsp eq_refl)).
  - assert (Hc : exists c, qs = [c] /\ isQuote c = true)
      by (destruct Hq as [-> | ->]; eexists; split; reflexivity).
    destruct Hc as (c & -> & Hc). apply (urlRegex_quoted c v post Hc Hv Hcls).
Qed.

(** ** More on the pattern of [url(...)] *)

Lemma space_no_paren (ws : list ascii) :
  Forall (fun x => isSpace x = true) ws ->
  Forall (fun x => byte_eqb x "(" = false) ws.
Proof.
  intros H. eapply Forall_impl; [exact H |]. intros a Ha.
  pose proof (ascii_forall (fun a => negb (isSpace a) || negb (byte_eqb a "("))
                ltac:(vm_compute; reflexivity) a) as Hall.
  cbv beta in Hall. rewrite Ha in Hall. apply negb_true_iff, Hall.
Qed.

Lemma space_notQuoteParen (ws : list ascii) :
  Forall (fun x => isSpace x = true) ws ->
  Forall (fun x => notQuoteParen x = true) ws.
Proof.
  intros H. eapply Forall_impl; [exact H |]. intros a Ha.
  pose proof (ascii_forall (fun a => negb (isSpace a) || notQuoteParen a)
                ltac:(vm_compute; reflexivity) a) as Hall.
  cbv beta in Hall. rewrite Ha in Hall. exact Hall.
Qed.

Lemma quoteOrNone_cases (qs : list ascii) :
  quoteOrNone qs -> qs = [] \/ exists q, qs = [q] /\ isQuote q = true.
Proof.
  intros [-> | [-> | ->]]; [left; reflexivity | right .. ]; eexists; split; reflexivity.
Qed.

(** A [url(...)] construct with white space inside the parentheses is
    matched whole.  Without an opening quote the value does not start
    with white space, which the pattern takes before the value; without
    a closing quote the value goes on to the parenthesis. *)
Lemma urlRegex_spaced (ws1 qs v qs' ws2 post : list ascii) :
  Forall (fun x => isSpace x = true) ws1 ->
  quoteOrNone qs -> quoteOrNone qs' ->
  v <> [] -> Forall (fun x => notQuoteParen x = true) v ->
  (qs = [] -> stops isSpace v) ->
  Forall (fun x => isSpace x = true) ws2 ->
  (qs' = [] -> ws2 = []) ->
  let m := bs "url(" ++ ws1 ++ qs ++ v ++ qs' ++ ws2 ++ bs ")" in
  match_at urlRegex (m ++ post) = Some (m, post, [m; qs; v; qs']).
Proof.
  intros Hws1 Hqs Hqs' Hv Hcls Hsp Hws2 Hnone m.
  assert (Hlen : 1 <= length v) by (destruct v; [contradiction | cbn; lia]).
  assert (Hnq : stops isQuote (v ++ qs' ++ ws2 ++ bs ")" ++ post)).
  { destruct v as [| x v]; [contradiction |]. apply Forall_cons in Hcls as [Hx _].
    cbn. unfold notQuoteParen in Hx. apply negb_true_iff, orb_false_iff in Hx as [Hx _].
    exact Hx. }
  change [m; qs; v; qs']
    with (<[0 := m]> (<[3 := qs']> (<[2 := v]> (<[1 := qs]> [[]; []; []; []])))).
  apply match_at_hd. subst m. rewrite <- !app_assoc. unfold urlRegex.
  eapply hd_Seq; [apply hd_Lit |].
  eapply hd_Seq.
  { apply hd_Rep, rep_greedy; [exact Hws1 | lia |].
    destruct (quoteOrNone_cases qs Hqs) as [-> | (q & -> & Hq)].
    - destruct v as [| x v]; [contradiction | exact (Hsp eq_refl)].
    - apply quote_stops_space, Hq. }
  eapply hd_Seq.
  { apply (hd_Cap 1 _ qs), hd_Rep.
    destruct (quoteOrNone_cases qs Hqs) as [-> | (q & -> & Hq)].
    - apply rep_zero, Hnq.
    - apply rep_one; [exact Hq | lia]. }
  eapply hd_Seq.
  { apply (hd_Cap 2 _ v), hd_Rep, rep_greedy; [exact Hcls | exact Hlen |].
    destruct (quoteOrNone_cases qs' Hqs') as [-> | (q & -> & Hq)].
    - rewrite (Hnone eq_refl). reflexivity.
    - apply quote_stops_value, Hq. }
  eapply hd_Seq.
  { apply (hd_Cap 3 _ qs'), hd_Rep.
    destruct (quoteOrNone_cases qs' Hqs') as [-> | (q & -> & Hq)].
    - rewrite (Hnone eq_refl). apply rep_zero. reflexivity.
    - apply rep_one; [exact Hq | lia]. }
  eapply hd_Seq; [apply hd_Rep, rep_greedy; [exact Hws2 | lia | reflexivity] |].
  apply (hd_Lit (bs ")") post).
Qed.

(** ** Texts without a match *)

Lemma unmatched_app (re : Regexp) (a b tail : list ascii) :
  unmatched re a (b ++ tail) -> unmatched re b tail -> unmatched re (a ++ b) tail.
Proof.
  intros Ha Hb. induction a as [| x a IH]; [exact Hb |].
  destruct Ha as [Hm Ha]. cbn [app unmatched]. split.
  - rewrite <- app_assoc. exact Hm.
  - apply IH, Ha.
Qed.

Lemma find_unmatched (re : Regexp) (pre tail : list ascii) :
  unmatched re pre tail -> find re tail = None -> find re (pre ++ tail) = None.
Proof.
  intros Hun Ht. induction pre as [| x pre IH]; [exact Ht |].
  destruct Hun as [Hm Hun]. cbn [app find] in *. rewrite Hm, IH by exact Hun.
  reflexivity.
Qed.

Lemma notQuoteParen_false (l : list ascii) :
  Forall (fun x => notQuoteParen x = true) l ->
  Forall (fun x => quoteOrClose x = false) l.
Proof.
  intros H. eapply Forall_impl; [exact H |]. intros a Ha.
  unfold notQuoteParen in Ha. apply negb_true_iff, Ha.
Qed.

Lemma space_negb_false (l : list ascii) :
  Forall (fun x => isSpace x = true) l ->
  Forall (fun x => negb (isSpace x) = false) l.
Proof.
  intros H. eapply Forall_impl; [exact H |]. intros a Ha.
  cbv beta. rewrite Ha. reflexivity.
Qed.

Lemma quote_quoteOrClose (q : ascii) : isQuote q = true -> quoteOrClose q = true.
Proof. intros H. unfold quoteOrClose. rewrite H. reflexivity. Qed.

Lemma quote_not_space (q : ascii) : isQuote q = true -> negb (isSpace q) = true.
Proof. intros H. apply isQuote_cases in H as [-> | ->]; reflexivity. Qed.

(** No match starts at a [url(] that is followed by a quote, a text,
    a second quote, and then something other than white space up to
    a closing parenthesis: the value has a quote inside, or two
    quotes close it. *)
Lemma urlRegex_inner_quote (ws1 v1 ws tail : list ascii) (q q2 x : ascii) :
  Forall (fun a => isSpace a = true) ws1 -> isQuote q = true ->
  Forall (fun a => notQuoteParen a = true) v1 -> isQuote q2 = true ->
  Forall (fun a => isSpace a = true) ws ->
  isSpace x = false -> byte_eqb x ")" = false ->
  match_at urlRegex (bs "url(" ++ ws1 ++ [q] ++ v1 ++ [q2] ++ ws ++ x :: tail) = None.
Proof.
  intros Hws1 Hq Hv1 Hq2 Hws Hx1 Hx2.
  destruct (match_at urlRegex _) as [[[m rest] sub] |] eqn:H; [| reflexivity].
  exfalso.
  destruct (match_at_sound _ _ _ _ _ H) as (E & _).
  destruct (urlRegex_shape _ _ _ _ H)
    as (w1 & p & v & p' & w2 & -> & _ & Hw1 & Hp & Hv & Hcls & Hp' & Hw2).
  rewrite <- !app_assoc in E. cbn [app list_ascii_of_string] in E.
  injection E as E. symmetry in E.
  assert (Hclose : quoteOrClose ")" = true) by reflexivity.
  destruct (quoteOrNone_cases p Hp) as [-> | (c & -> & Hc)];
    destruct (quoteOrNone_cases p' Hp') as [-> | (c' & -> & Hc')];
    cbn [app] in E.
  - (* no quote at all: the parenthesis would be the first quote *)
    rewrite !app_assoc in E.
    apply (first_split_unique quoteOrClose) in E as (_ & E & _);
      [subst q; discriminate | | | exact Hclose | apply quote_quoteOrClose, Hq].
    + apply notQuoteParen_false. repeat (apply Forall_app; split);
        [apply space_notQuoteParen, Hw1 | exact Hcls | apply space_notQuoteParen, Hw2].
    + apply notQuoteParen_false, space_notQuoteParen, Hws1.
  - (* no opening quote: the closing one is [q], the parenthesis [q2] *)
    rewrite app_assoc in E.
    apply (first_split_unique quoteOrClose) in E as (_ & _ & E);
      [| apply notQuoteParen_false; apply Forall_app; split;
         [apply space_notQuoteParen, Hw1 | exact Hcls]
       | apply notQuoteParen_false, space_notQuoteParen, Hws1
       | apply quote_quoteOrClose, Hc' | apply quote_quoteOrClose, Hq].
    apply (first_split_unique quoteOrClose) in E as (_ & E & _);
      [subst q2; discriminate | apply notQuoteParen_false, space_notQuoteParen, Hw2
       | apply notQuoteParen_false, Hv1 | exact Hclose | apply quote_quoteOrClose, Hq2].
  - (* an opening quote, no closing one *)
    apply (first_split_unique (fun y => negb (isSpace y))) in E as (_ & _ & E);
      [| apply space_negb_false, Hw1 | apply space_negb_false, Hws1
       | apply quote_not_space, Hc | apply quote_not_space, Hq].
    rewrite app_assoc in E.
    apply (first_split_unique quoteOrClose) in E as (_ & E & _);
      [subst q2; discriminate
       | apply notQuoteParen_false; apply Forall_app; split;
         [exact Hcls | apply space_notQuoteParen, Hw2]
       | apply notQuoteParen_false, Hv1 | exact Hclose | apply quote_quoteOrClose, Hq2].
  - (* both quotes: the parenthesis would be [x] *)
    apply (first_split_unique (fun y => negb (isSpace y))) in E as (_ & _ & E);
      [| apply space_negb_false, Hw1 | apply space_negb_false, Hws1
       | apply quote_not_space, Hc | apply quote_not_space, Hq].
    apply (first_split_unique quoteOrClose) in E as (_ & _ & E);
      [| apply notQuoteParen_false, Hcls | apply notQuoteParen_false, Hv1
       | apply quote_quoteOrClose, Hc' | apply quote_quoteOrClose, Hq2].
    apply (first_split_unique (fun y => negb (isSpace y))) in E as (_ & E & _);
      [subst x; discriminate | apply space_negb_false, Hw2 | apply space_negb_false, Hws
       | reflexivity | rewrite Hx1; reflexivity].
Qed.

Lemma urlRegex_not_at (c : ascii) (s : list ascii) :
  byte_eqb c "u" = false -> match_at urlRegex (c :: s) = None.
Proof.
  intros Hc. destruct (match_at urlRegex (c :: s)) as [[[m rest] sub] |] eqn:H;
    [| reflexivity].
  apply urlRegex_keyword in H as [z E]. injection E as -> _. discriminate.
Qed.

(** A style sheet whose only opening parenthesis is that of such a
    [url(] has no match. *)
Lemma find_url_inner_quote (pre ws1 v1 ws tail : list ascii) (q q2 x : ascii) :
  Forall (fun a => byte_eqb a "(" = false) pre ->
  Forall (fun a => isSpace a = true) ws1 -> isQuote q = true ->
  Forall (fun a => notQuoteParen a = true) v1 ->
  Forall (fun a => byte_eqb a "(" = false) v1 ->
  isQuote q2 = true ->
  Forall (fun a => isSpace a = true) ws ->
  isSpace x = false -> byte_eqb x ")" = false ->
  Forall (fun a => byte_eqb a "(" = false) (x :: tail) ->
  find urlRegex (pre ++ bs "url(" ++ ws1 ++ [q] ++ v1 ++ [q2] ++ ws ++ x :: tail) = None.
Proof.
  intros Hpre Hws1 Hq Hv1 Hv1' Hq2 Hws Hx1 Hx2 Htail.
  apply find_unmatched.
  - exact (unmatched_before_keyword urlRegex (fun a => byte_eqb a "(") (bs "url") "("
             urlRegex_keyword ltac:(repeat constructor) eq_refl pre _ Hpre).
  - pose proof (urlRegex_inner_quote ws1 v1 ws tail q q2 x Hws1 Hq Hv1 Hq2 Hws Hx1 Hx2)
      as Hm.
    cbn [app list_ascii_of_string] in Hm |- *. cbn [find]. rewrite Hm.
    rewrite !urlRegex_not_at by reflexivity.
    rewrite (find_none_without _ _ urlRegex_has_paren); [reflexivity |].
    assert (Hq' : forall c, isQuote c = true -> byte_eqb c "(" = false)
      by (intros c Hc; apply isQuote_cases in Hc as [-> | ->]; reflexivity).
    apply Forall_app; split; [apply space_no_paren, Hws1 |].
    apply Forall_cons; split; [apply Hq', Hq |].
    apply Forall_app; split; [exact Hv1' |].
    apply Forall_cons; split; [apply Hq', Hq2 |].
    apply Forall_app; split; [apply space_no_paren, Hws | exact Htail].
Qed.

(** ** More on the pattern of absolute literals *)

(** A literal that is a scheme and nothing more is no match. *)
Lemma absRegex_bare_scheme (q q' : ascii) (scheme post : list ascii) :
  scheme = bs "http://" \/ scheme = bs "https://" -> isQuote q' = true ->
  match_at absRegex (q :: scheme ++ q' :: post) = None.
Proof.
  intros Hs Hq'.
  destruct (match_at absRegex _) as [[[m rest] sub] |] eqn:H; [| reflexivity].
  exfalso.
  destruct (match_at_sound _ _ _ _ _ H) as (E & _).
  destruct (absRegex_shape _ _ _ _ H)
    as (p & scheme' & d & p' & -> & _ & Hp & Hs' & Hd & Hcls & _).
  destruct d as [| y d]; [contradiction |].
  apply Forall_cons in Hcls as [Hy _]. unfold notQuote in Hy.
  assert (Hp1 : exists c, p = [c]) by (destruct Hp as [-> | ->]; eexists; reflexivity).
  destruct Hp1 as [c ->].
  destruct Hs as [-> | ->]; destruct Hs' as [-> | ->];
    cbn [app list_ascii_of_string] in E; injection E as E;
    try discriminate; subst; rewrite Hq' in Hy; discriminate.
Qed.

(** The scan passes such a literal and goes on at its closing quote. *)
Lemma unmatched_abs_bare_scheme (pre scheme tail : list ascii) (q q' : ascii) :
  Forall (fun x => notQuote x = true) pre ->
  scheme = bs "http://" \/ scheme = bs "https://" -> isQuote q' = true ->
  unmatched absRegex (pre ++ [q] ++ scheme) (q' :: tail).
Proof.
  intros Hpre Hs Hq'.
  apply unmatched_app; [apply unmatched_abs_nonquote, Hpre |].
  cbn [app unmatched]. split.
  - apply absRegex_bare_scheme; assumption.
  - apply unmatched_abs_nonquote. destruct Hs as [-> | ->]; repeat constructor.
Qed.

(** ** Characters that are no at sign *)

Lemma space_no_at (ws : list ascii) :
  Forall (fun x => isSpace x = true) ws ->
  Forall (fun x => byte_eqb x "@" = false) ws.
Proof.
  intros H. eapply Forall_impl; [exact H |]. intros a Ha.
  pose proof (ascii_forall (fun a => negb (isSpace a) || negb (byte_eqb a "@"))
                ltac:(vm_compute; reflexivity) a) as Hall.
  cbv beta in Hall. rewrite Ha in Hall. apply negb_true_iff, Hall.
Qed.

Lemma isQuote_no_at (q : ascii) : isQuote q = true -> byte_eqb q "@" = false.
Proof. intros H. apply isQuote_cases in H as [-> | ->]; reflexivity. Qed.

(* ================================================================== *)
(** * The program *)
(* ================================================================== *)

Section ProxyFacts.

Context {env : Env}.

(** ** The passes of the CSS and JavaScript rewriters, match by match *)

Lemma cssUrlPass_step (base : URL) (origin text pre m rest : list ascii) sub :
  find urlRegex text = Some (pre, m, sub, rest) ->
  exists ws1 q v q' ws2,
    m = bs "url(" ++ ws1 ++ q ++ v ++ q' ++ ws2 ++ bs ")"
    /\ Forall (fun x => isSpace x = true) ws1
    /\ quoteOrNone q
    /\ v <> [] /\ Forall (fun x => notQuoteParen x = true) v
    /\ quoteOrNone q'
    /\ Forall (fun x => isSpace x = true) ws2
    /\ cssUrlPass base origin text
       = pre
         ++ match URL_Parse base v with
            | Some resolved =>
                bs "url(" ++ q ++ origin ++ bs "/" ++ encoded resolved
                  ++ bs "?browse=1" ++ q ++ bs ")"
            | None => m
            end
         ++ cssUrlPass base origin rest.
Proof.
  intros Hfind.
  destruct (find_sound _ _ _ _ _ _ Hfind) as (_ & Hm & _).
  destruct (urlRegex_shape _ _ _ _ Hm)
    as (ws1 & q & v & q' & ws2 & Em & Esub & H1 & H2 & H3 & H4 & H5 & H6).
  exists ws1, q, v, q', ws2. repeat (split; [assumption |]).
  unfold cssUrlPass. rewrite (ReplaceAll_find _ _ _ _ _ _ _ minLen_urlRegex Hfind).
  f_equal. f_equal. unfold cssUrlRepl.
  rewrite (FindStringSubmatch_match _ _ _ _ _ Hm), Esub. reflexivity.
Qed.

Lemma cssImportPass_step (base : URL) (origin text pre m rest : list ascii) sub :
  find importRegex text = Some (pre, m, sub, rest) ->
  exists ws q v q',
    m = bs "@import" ++ ws ++ q ++ v ++ q'
    /\ ws <> [] /\ Forall (fun x => isSpace x = true) ws
    /\ (q = [dquote] \/ q = [squote])
    /\ v <> [] /\ Forall (fun x => notQuote x = true) v
    /\ (q' = [dquote] \/ q' = [squote])
    /\ cssImportPass base origin text
       = pre
         ++ match URL_Parse base v with
            | Some resolved =>
                bs "@import " ++ q ++ origin ++ bs "/" ++ encoded resolved
                  ++ bs "?browse=1" ++ q
            | None => m
            end
         ++ cssImportPass base origin rest.
Proof.
  intros Hfind.
  destruct (find_sound _ _ _ _ _ _ Hfind) as (_ & Hm & _).
  destruct (importRegex_shape _ _ _ _ Hm)
    as (ws & q & v & q' & Em & Esub & H1 & H2 & H3 & H4 & H5 & H6).
  exists ws, q, v, q'. repeat (split; [assumption |]).
  unfold cssImportPass.
  rewrite (ReplaceAll_find _ _ _ _ _ _ _ minLen_importRegex Hfind).
  f_equal. f_equal. unfold cssImportRepl.
  rewrite (FindStringSubmatch_match _ _ _ _ _ Hm), Esub. reflexivity.
Qed.

Lemma jsAbsPass_step (base : URL) (origin text pre m rest : list ascii) sub :
  find absRegex text = Some (pre, m, sub, rest) ->
  exists q scheme d q',
    m = q ++ (scheme ++ d) ++ q'
    /\ (q = [dquote] \/ q = [squote])
    /\ (scheme = bs "http://" \/ scheme = bs "https://")
    /\ d <> [] /\ Forall (fun x => notQuote x = true) d
    /\ (q' = [dquote] \/ q' = [squote])
    /\ jsAbsPass base origin text
       = pre
         ++ match URL_Parse base (scheme ++ d) with
            | Some resolved =>
                q ++ origin ++ bs "/" ++ encoded resolved ++ bs "?browse=1" ++ q'
            | None => m
            end
         ++ jsAbsPass base origin rest.
Proof.
  intros Hfind.
  destruct (find_sound _ _ _ _ _ _ Hfind) as (_ & Hm & _).
  destruct (absRegex_shape _ _ _ _ Hm)
    as (q & scheme & d & q' & Em & Esub & H1 & H2 & H3 & H4 & H5).
  exists q, scheme, d, q'. repeat (split; [assumption |]).
  unfold jsAbsPass.
  rewrite (ReplaceAll_find _ _ _ _ _ _ _ minLen_absRegex Hfind).
  f_equal. f_equal. unfold jsAbsRepl.
  rewrite (FindStringSubmatch_match _ _ _ _ _ Hm), Esub. reflexivity.
Qed.

(** ** The tree walk of the HTML rewriter *)

Lemma traverse_Type (base : URL) origin b n :
  Type_ (traverse base origin b n) = Type_ n.
Proof. destruct n as [ty d ns at_ ch]. cbn. destruct (NodeType_eqb ty ElementNode); reflexivity. Qed.

Lemma traverse_Attr (base : URL) origin b n :
  Attr (traverse base origin b n)
  = if NodeType_eqb (Type_ n) ElementNode
    then map (rewriteAttr base origin) (Attr n) else Attr n.
Proof. destruct n as [ty d ns at_ ch]. cbn. destruct (NodeType_eqb ty ElementNode); reflexivity. Qed.

Lemma traverse_Children (base : URL) origin b n :
  exists b', Children (traverse base origin b n)
             = map (traverse base origin b') (Children n).
Proof.
  destruct n as [ty d ns at_ ch]. cbn.
  destruct (NodeType_eqb ty ElementNode); eexists; reflexivity.
Qed.

(** The walk keeps the shape of the tree: the node at a path of the
    result is the walk of the node at that path. *)
Lemma subnode_traverse (base : URL) origin (path : list nat) :
  forall n b e, subnode path n = Some e ->
  exists b', subnode path (traverse base origin b n)
             = Some (traverse base origin b' e).
Proof.
  induction path as [| i path IH]; intros n b e H; cbn [subnode] in *.
  - injection H as ->. exists b. reflexivity.
  - destruct (Children n !! i) as [c |] eqn:Hc; [| discriminate].
    destruct (traverse_Children base origin b n) as [b1 ->].
    rewrite list_lookup_fmap, Hc. cbn. apply IH, H.
Qed.

Lemma rewriteAttr_Key (base : URL) origin a :
  Key (rewriteAttr base origin a) = Key a
  /\ Namespace (rewriteAttr base origin a) = Namespace a.
Proof.
  unfold rewriteAttr.
  destruct (inRewriteSet (Key a)); [| split; reflexivity].
  destruct (HasPrefix (Val a) (bs "data:")); [split; reflexivity |].
  destruct (URL_Parse base (Val a)); split; reflexivity.
Qed.

Lemma rewriteAttr_outside (base : URL) origin a :
  inRewriteSet (Key a) = false -> rewriteAttr base origin a = a.
Proof. intros H. unfold rewriteAttr. rewrite H. reflexivity. Qed.

Lemma rewriteAttr_data (base : URL) origin a :
  HasPrefix (Val a) (bs "data:") = true -> rewriteAttr base origin a = a.
Proof.
  intros H. unfold rewriteAttr. rewrite H.
  destruct (inRewriteSet (Key a)); reflexivity.
Qed.

Lemma rewriteAttr_resolved (base : URL) origin a resolved :
  inRewriteSet (Key a) = true ->
  HasPrefix (Val a) (bs "data:") = false ->
  URL_Parse base (Val a) = Some resolved ->
  rewriteAttr base origin a
  = {| Namespace := Namespace a; Key := Key a;
       Val := origin ++ bs "/" ++ encoded resolved ++ bs "?browse=1" |}.
Proof. intros H1 H2 H3. unfold rewriteAttr. rewrite H1, H2, H3. reflexivity. Qed.

(** ** The rewrite set *)

Lemma bytes_eqb_neq (s t : list ascii) : s <> t -> bytes_eqb s t = false.
Proof.
  intros H. destruct (bytes_eqb s t) eqn:E; [| reflexivity].
  apply bytes_eqb_eq in E. contradiction.
Qed.

Lemma bytes_eqb_refl (s : list ascii) : bytes_eqb s s = true.
Proof. apply bytes_eqb_eq. reflexivity. Qed.

(** The map [rewriteAttrs] holds the four names and nothing else. *)
Lemma rewriteAttrs_names (k : list ascii) :
  default false (rewriteAttrs !! k) = existsb (bytes_eqb k) rewriteNames.
Proof.
  unfold rewriteAttrs, rewriteNames. cbn [existsb].
  destruct (decide (bs "href" = k)) as [<- | H1].
  { rewrite lookup_insert_eq. reflexivity. }
  rewrite lookup_insert_ne, (bytes_eqb_neq k (bs "href")) by congruence.
  destruct (decide (bs "src" = k)) as [<- | H2].
  { rewrite lookup_insert_eq. reflexivity. }
  rewrite lookup_insert_ne, (bytes_eqb_neq k (bs "src")) by congruence.
  destruct (decide (bs "action" = k)) as [<- | H3].
  { rewrite lookup_insert_eq. reflexivity. }
  rewrite lookup_insert_ne, (bytes_eqb_neq k (bs "action")) by congruence.
  destruct (decide (bs "formaction" = k)) as [<- | H4].
  { rewrite lookup_insert_eq. reflexivity. }
  rewrite lookup_insert_ne, (bytes_eqb_neq k (bs "formaction")) by congruence.
  rewrite lookup_empty. reflexivity.
Qed.

Lemma inRewriteSet_ASCII (key : list ascii) :
  forallb isASCII key = true -> inRewriteSet key = specRewriteSet key.
Proof.
  intros H. unfold inRewriteSet, specRewriteSet, ToLower. rewrite H.
  apply rewriteAttrs_names.
Qed.

Lemma inRewriteSet_nonASCII (key : list ascii) :
  forallb isASCII key = false ->
  inRewriteSet key = existsb (bytes_eqb (unicode_ToLower key)) rewriteNames.
Proof.
  intros H. unfold inRewriteSet, ToLower. rewrite H.
  apply rewriteAttrs_names.
Qed.

(** C6, as amended.  The HTML rewriter prints the walk of the parsed
    document, and the walk keeps every node in place with its type and
    the number, names and name spaces of its attributes.  An attribute
    whose name, lower-cased as [strings.ToLower] does, is not href,
    src, action or formaction is not altered, and an attribute whose
    value begins with data: is not altered.  For a name of ASCII
    characters the test is the one of the specification, the name is
    one of the four up to the case of its letters; for a name with
    other characters the test is made on what [unicode.ToLower] makes
    of the name, rune by rune. *)
Theorem html_rewrite_scope (base : URL) (origin : list ascii) :
  (forall htmlContent doc,
     html_Parse htmlContent = Some doc ->
     rewriteHTML htmlContent base origin
     = html_Render (traverse base origin false doc))
  /\ (forall doc path e,
       subnode path doc = Some e ->
       exists e',
         subnode path (traverse base origin false doc) = Some e'
         /\ Type_ e' = Type_ e
         /\ length (Attr e') = length (Attr e)
         /\ forall i a,
              Attr e !! i = Some a ->
              exists a',
                Attr e' !! i = Some a'
                /\ Key a' = Key a /\ Namespace a' = Namespace a
                /\ (inRewriteSet (Key a) = false -> a' = a)
                /\ (HasPrefix (Val a) (bs "data:") = true -> a' = a)
                /\ (forallb isASCII (Key a) = true ->
                    specRewriteSet (Key a) = false -> a' = a))
  /\ (forall key,
        forallb isASCII key = true -> inRewriteSet key = specRewriteSet key)
  /\ (forall key,
        forallb isASCII key = false ->
        inRewriteSet key = existsb (bytes_eqb (unicode_ToLower key)) rewriteNames).
Proof.
  split; [| split; [| split]].
  - intros htmlContent doc H. unfold rewriteHTML. rewrite H. reflexivity.
  - intros doc path e H.
    destruct (subnode_traverse base origin path doc false e H) as [b' H'].
    eexists. split; [exact H' |].
    rewrite traverse_Type, traverse_Attr.
    split; [reflexivity |].
    destruct (NodeType_eqb (Type_ e) ElementNode).
    + split; [apply length_map |].
      intros i a Ha. exists (rewriteAttr base origin a).
      rewrite list_lookup_fmap, Ha.
      destruct (rewriteAttr_Key base origin a) as [Hk Hn].
      repeat split; auto using rewriteAttr_outside, rewriteAttr_data.
      intros Hascii Hspec. apply rewriteAttr_outside.
      rewrite inRewriteSet_ASCII by exact Hascii. exact Hspec.
    + split; [reflexivity |].
      intros i a Ha. exists a. repeat split; auto.
  - exact inRewriteSet_ASCII.
  - exact inRewriteSet_nonASCII.
Qed.

(** C10.  The HTML rewriter prints the walk of the parsed document,
    and in that walk an attribute of an element whose name is in the
    rewrite set, whose value does not begin with data: and whose value
    parses relative to the base, whatever its scheme, has the proxied
    form of the resolved URL as its value. *)
Theorem html_attribute_rewritten (base : URL) (origin : list ascii)
        (doc : Node) (path : list nat) (e : Node) (i : nat) (a : Attribute)
        (resolved : URL) :
  subnode path doc = Some e ->
  Type_ e = ElementNode ->
  Attr e !! i = Some a ->
  inRewriteSet (Key a) = true ->
  HasPrefix (Val a) (bs "data:") = false ->
  URL_Parse base (Val a) = Some resolved ->
  (forall htmlContent,
     html_Parse htmlContent = Some doc ->
     rewriteHTML htmlContent base origin
     = html_Render (traverse base origin false doc))
  /\ exists e',
       subnode path (traverse base origin false doc) = Some e'
       /\ Attr e' !! i
          = Some {| Namespace := Namespace a; Key := Key a;
                    Val := origin ++ bs "/" ++ encoded resolved ++ bs "?browse=1" |}.
Proof.
  intros H Hty Ha Hset Hdata Hres. split.
  { intros htmlContent Hparse. unfold rewriteHTML. rewrite Hparse. reflexivity. }
  destruct (subnode_traverse base origin path doc false e H) as [b' H'].
  eexists. split; [exact H' |].
  rewrite traverse_Attr, Hty. cbn [NodeType_eqb].
  rewrite list_lookup_fmap, Ha. cbn.
  rewrite (rewriteAttr_resolved base origin a resolved) by assumption. reflexivity.
Qed.

(** ** Copying headers *)

Lemma addValues_lookup (key : list ascii) (vs : list (list ascii)) :
  CanonicalMIMEHeaderKey key = key ->
  forall (out : Header) k,
  foldl (fun (out : Header) value => Header_Add out key value) out vs !! k
  = if decide (key = k)
    then match vs with
         | [] => out !! k
         | _ :: _ => Some (default [] (out !! k) ++ vs)
         end
    else out !! k.
Proof.
  intros Hcanon. induction vs as [| v vs IH]; intros out k; cbn [foldl].
  - destruct (decide (key = k)); reflexivity.
  - rewrite IH. unfold Header_Add. rewrite Hcanon.
    destruct (decide (key = k)) as [<- | Hne].
    + rewrite lookup_insert_eq.
      destruct vs; [reflexivity | cbn; rewrite <- app_assoc; reflexivity].
    + apply lookup_insert_ne, Hne.
Qed.

Lemma copyExcept_lookup (skip : list ascii -> bool)
      (entries : list (list ascii * list (list ascii))) :
  forall (out : Header),
  NoDup (entries.*1) ->
  (forall k vs, (k, vs) ∈ entries ->
     CanonicalMIMEHeaderKey k = k /\ vs <> [] /\ out !! k = None) ->
  forall k,
  copyExcept skip out entries !! k
  = match (list_to_map entries : Header) !! k with
    | Some vs => if skip k then None else Some vs
    | None => out !! k
    end.
Proof.
  unfold copyExcept.
  induction entries as [| [k0 vs0] entries IH]; intros out Hnd Hwf k.
  - cbn [foldl list_to_map foldr]. rewrite lookup_empty. reflexivity.
  - apply NoDup_cons in Hnd as [Hk0 Hnd]. cbn [fmap list_fmap fst] in Hk0.
    destruct (Hwf k0 vs0) as (Hc0 & Hv0 & Ho0); [left |].
    cbn [foldl fst snd].
    rewrite IH; [| exact Hnd |].
    + rewrite list_to_map_cons.
      destruct (decide (k0 = k)) as [<- | Hne].
      * rewrite lookup_insert_eq, (not_elem_of_list_to_map_1 _ _ Hk0).
        destruct (skip k0); [exact Ho0 |].
        rewrite addValues_lookup by exact Hc0.
        rewrite decide_True by reflexivity. rewrite Ho0.
        destruct vs0; [contradiction | reflexivity].
      * rewrite lookup_insert_ne by exact Hne.
        destruct (list_to_map entries !! k); [reflexivity |].
        destruct (skip k0); [reflexivity |].
        rewrite addValues_lookup by exact Hc0.
        rewrite decide_False by exact Hne. reflexivity.
    + intros k1 vs1 Hin. destruct (Hwf k1 vs1) as (Hc1 & Hv1 & Ho1); [right; exact Hin |].
      split; [exact Hc1 | split; [exact Hv1 |]].
      assert (Hne : k0 <> k1).
      { intros ->. apply Hk0, list_elem_of_fmap. exists (k1, vs1). split; [reflexivity | exact Hin]. }
      destruct (skip k0); [exact Ho1 |].
      rewrite addValues_lookup by exact Hc0.
      rewrite decide_False by exact Hne. exact Ho1.
Qed.

(** Copying a well-formed header into an empty one keeps exactly the
    entries that are not skipped. *)
Lemma copyExcept_range (skip : list ascii -> bool) (h : Header) :
  canonicalHeader h ->
  forall k,
  copyExcept skip ∅ (range h) !! k = if skip k then None else h !! k.
Proof.
  intros Hwf k.
  assert (Hnd : NoDup ((range h).*1)).
  { rewrite (range_visits h). apply NoDup_fst_map_to_list. }
  rewrite copyExcept_lookup; [| exact Hnd |].
  - rewrite (list_to_map_proper _ _ Hnd (range_visits h)), list_to_map_to_list.
    destruct (h !! k); [reflexivity |].
    rewrite lookup_empty. destruct (skip k); reflexivity.
  - intros k1 vs1 Hin. rewrite (range_visits h) in Hin.
    apply elem_of_map_to_list in Hin.
    destruct (Hwf _ _ Hin) as [Hc Hv].
    split; [exact Hc | split; [exact Hv | apply lookup_empty]].
Qed.

Lemma foldl_ext_eq {A B : Type} (f g : A -> B -> A) (a : A) (l : list B) :
  (forall x y, f x y = g x y) -> foldl f a l = foldl g a l.
Proof.
  intros H. revert a. induction l as [| y l IH]; intros a; [reflexivity |].
  cbn [foldl]. rewrite H. apply IH.
Qed.

Lemma forwardHeaders_copyExcept (b : bool) (h : Header) :
  forwardHeaders b h = copyExcept (requestHeaderDropped b) ∅ (range h).
Proof.
  unfold forwardHeaders, copyExcept, requestHeaderDropped.
  apply foldl_ext_eq. intros out [key vs]. cbn [fst snd].
  destruct (bytes_eqb (ToLower key) (bs "host")); [reflexivity |].
  cbn [orb]. reflexivity.
Qed.

Lemma copyHeaders_copyExcept (b : bool) (h : Header) :
  copyHeaders b h = copyExcept (responseHeaderDropped b) ∅ (range h).
Proof. reflexivity. Qed.

Lemma canonicalHeaderb_true (h : Header) :
  canonicalHeaderb h = true -> canonicalHeader h.
Proof.
  unfold canonicalHeaderb. rewrite forallb_forall.
  intros H k vs Hk. apply elem_of_map_to_list, list_elem_of_In, H in Hk.
  cbn [fst snd] in Hk. apply andb_true_iff in Hk as [Hc Hv].
  split; [apply bytes_eqb_eq, Hc |].
  intros ->. discriminate.
Qed.

(** ** The runs of the handler *)

(** The branch of [respond] is the strategy of [classify]. *)
Lemma respond_classify (b : bool) (p : URL) (origin : list ascii) (resp : Response) :
  respond b p origin resp
  = respond_by (classify (Header_Get (RespHeader resp) (bs "Content-Type")) b)
               b p origin resp.
Proof.
  unfold respond, classify.
  destruct (b && HasPrefix _ (bs "text/html")); [reflexivity |].
  destruct (b && HasPrefix _ (bs "text/css")); [reflexivity |].
  destruct (b && (HasPrefix _ (bs "application/javascript") || HasPrefix _ _));
    reflexivity.
Qed.

Lemma respond_by_rewriter (st : Strategy) (b : bool) (p : URL) origin resp :
  st <> PassThrough ->
  respond_by st b p origin resp
  = match io_ReadAll (Body resp) with
    | None => HttpError (bs "Error reading upstream "
                           ++ match st with
                              | RewriteHtml => bs "HTML"
                              | RewriteCss => bs "CSS"
                              | _ => bs "JavaScript"
                              end) StatusInternalServerError
    | Some body =>
        match rewriterOf st body p origin with
        | None => HttpError (bs "Error rewriting "
                               ++ match st with
                                  | RewriteHtml => bs "HTML"
                                  | RewriteCss => bs "CSS"
                                  | _ => bs "JavaScript"
                                  end ++ bs ": ") StatusInternalServerError
        | Some rewritten => Written (copyHeaders b (RespHeader resp))
                                    (StatusCode resp) rewritten
        end
    end.
Proof. intros H. destruct st; [contradiction | reflexivity ..]. Qed.

Lemma targetInvalid_or_valid (r : Request) :
  targetInvalid r \/ exists u p, targetOf r u p.
Proof.
  unfold targetInvalid, targetOf.
  destruct (encodedTarget r) as [| c e] eqn:He; [left; left; reflexivity |].
  destruct (base64.DecodeString base64.URLEncoding (c :: e)) as [u |] eqn:Hd;
    [| left; right; left; reflexivity].
  destruct (url_Parse u) as [p |] eqn:Hp;
    [| left; right; right; left; exists u; split; [reflexivity | exact Hp]].
  destruct (URL_Scheme p) as [| c1 s1] eqn:Hs;
    [left; right; right; right; exists u, p; repeat split; auto |].
  destruct (URL_Host p) as [| c2 s2] eqn:Hh;
    [left; right; right; right; exists u, p; repeat split; auto |].
  right. exists u, p. rewrite Hs, Hh. repeat split; congruence.
Qed.

Lemma targetOf_not_invalid (r : Request) u p :
  targetOf r u p -> ~ targetInvalid r.
Proof.
  intros (He & Hd & Hp & Hs & Hh) [H | [H | [(u' & H1 & H2) | (u' & p' & H1 & H2 & H3)]]].
  - contradiction.
  - congruence.
  - congruence.
  - rewrite Hd in H1. injection H1 as <-. rewrite Hp in H2. injection H2 as <-.
    destruct H3; contradiction.
Qed.

Lemma targetOf_fun (r : Request) u p u' p' :
  targetOf r u p -> targetOf r u' p' -> u' = u /\ p' = p.
Proof.
  intros (_ & Hd & Hp & _) (_ & Hd' & Hp' & _).
  rewrite Hd in Hd'. injection Hd' as <-. rewrite Hp in Hp'. injection Hp' as <-.
  split; reflexivity.
Qed.

Lemma proxyHandler_invalid (r : Request) :
  targetInvalid r -> exists msg, proxyHandler r = HttpError msg StatusBadRequest.
Proof.
  unfold targetInvalid, encodedTarget, proxyHandler.
  intros [H | [H | [(u & H1 & H2) | (u & p & H1 & H2 & H3)]]].
  - rewrite H. eexists. reflexivity.
  - destruct (bytes_eqb _ []); [eexists; reflexivity |].
    rewrite H. eexists. reflexivity.
  - destruct (bytes_eqb _ []); [eexists; reflexivity |].
    rewrite H1, H2. eexists. reflexivity.
  - destruct (bytes_eqb _ []); [eexists; reflexivity |].
    rewrite H1, H2.
    destruct H3 as [-> | ->]; cbn [bytes_eqb orb]; rewrite ?orb_true_r;
      eexists; reflexivity.
Qed.

Lemma proxyHandler_valid (r : Request) u p :
  targetOf r u p ->
  proxyHandler r
  = if negb (http_NewRequest (Method r) u) then
      HttpError (bs "Failed to create upstream request: ") StatusInternalServerError
    else
      match client_Do (upstreamRequest r u) with
      | None => HttpError (bs "Upstream request failed: ") StatusInternalServerError
      | Some resp =>
          respond_by (strategyFor r resp) (browseEnabled r) p (proxyOrigin r) resp
      end.
Proof.
  intros (He & Hd & Hp & Hs & Hh). unfold proxyHandler, encodedTarget in *.
  apply bytes_eqb_nil in He, Hs, Hh. rewrite He, Hd, Hp, Hs, Hh. cbn [orb].
  destruct (negb _); [reflexivity |].
  destruct (client_Do _) as [resp |]; [| reflexivity].
  apply respond_classify.
Qed.

Lemma serverFailure_valid (r : Request) : serverFailure r -> ~ targetInvalid r.
Proof. intros (u & p & Ht & _). exact (targetOf_not_invalid r u p Ht). Qed.

(** Every run of the handler is of one of three kinds. *)
Lemma handler_trichotomy (r : Request) :
  (targetInvalid r /\ exists msg, proxyHandler r = HttpError msg StatusBadRequest)
  \/ (serverFailure r
      /\ exists msg, proxyHandler r = HttpError msg StatusInternalServerError)
  \/ (~ targetInvalid r /\ ~ serverFailure r
      /\ exists u p resp body,
           targetOf r u p
           /\ client_Do (upstreamRequest r u) = Some resp
           /\ proxyHandler r
              = Written (copyHeaders (browseEnabled r) (RespHeader resp))
                        (StatusCode resp) body).
Proof.
  destruct (targetInvalid_or_valid r) as [Hinv | (u & p & Ht)].
  { left. split; [exact Hinv | apply proxyHandler_invalid, Hinv]. }
  right. rewrite (proxyHandler_valid r u p Ht).
  destruct (http_NewRequest (Method r) u) eqn:Hnew; cbn [negb].
  2:{ left. split; [| eexists; reflexivity].
      exists u, p. split; [exact Ht | left; exact Hnew]. }
  destruct (client_Do (upstreamRequest r u)) as [resp |] eqn:Hdo.
  2:{ left. split; [| eexists; reflexivity].
      exists u, p. split; [exact Ht | right; left; split; [exact Hnew | exact Hdo]]. }
  assert (Hcase :
    (strategyFor r resp <> PassThrough
     /\ (io_ReadAll (Body resp) = None
         \/ exists b, io_ReadAll (Body resp) = Some b
                      /\ rewriterOf (strategyFor r resp) b p (proxyOrigin r) = None))
    \/ (strategyFor r resp = PassThrough
        \/ (strategyFor r resp <> PassThrough
            /\ exists b out, io_ReadAll (Body resp) = Some b
                 /\ rewriterOf (strategyFor r resp) b p (proxyOrigin r) = Some out))).
  { destruct (strategyFor r resp) eqn:Hst; [right; left; reflexivity | | |];
      (destruct (io_ReadAll (Body resp)) as [b |];
       [| left; split; [discriminate | left; reflexivity]];
       match goal with
       | |- context [?st <> PassThrough] =>
           destruct (rewriterOf st b p (proxyOrigin r)) as [out |] eqn:Hrw
       end;
       [right; right; split; [discriminate | exists b, out; split; [reflexivity | exact Hrw]]
       | left; split; [discriminate | right; exists b; split; [reflexivity | exact Hrw]]]). }
  destruct Hcase as [[Hst Hfail] | Hok].
  - left. split.
    + exists u, p. split; [exact Ht |]. right; right. exists resp.
      split; [exact Hnew | split; [exact Hdo | split; [exact Hst | exact Hfail]]].
    + rewrite (respond_by_rewriter _ _ _ _ _ Hst).
      destruct Hfail as [-> | (b & -> & ->)]; eexists; reflexivity.
  - right. split; [exact (targetOf_not_invalid r u p Ht) |]. split.
    + intros (u' & p' & Ht' & Hf).
      destruct (targetOf_fun r u p u' p' Ht Ht') as [-> ->].
      destruct Hf as [Hf | [[_ Hf] | (resp' & _ & Hdo' & Hst' & Hf)]]; [congruence .. |].
      rewrite Hdo in Hdo'. injection Hdo' as <-.
      destruct Hok as [Hpt | (_ & b & out & Hb & Hout)]; [contradiction |].
      destruct Hf as [Hf | (b' & Hb' & Hf)]; [congruence |].
      rewrite Hb in Hb'. injection Hb' as <-. congruence.
    + destruct Hok as [Hpt | (Hst & b & out & Hb & Hout)].
      * exists u, p, resp, (delivered (Body resp)).
        split; [exact Ht | split; [exact Hdo |]]. rewrite Hpt. reflexivity.
      * exists u, p, resp, out. split; [exact Ht | split; [exact Hdo |]].
        rewrite (respond_by_rewriter _ _ _ _ _ Hst), Hb, Hout. reflexivity.
Qed.

(* ================================================================== *)
(** * The rewriters *)
(* ================================================================== *)

(** C7.  The CSS rewriter always returns a result, never an error:
    the pass over [@import] applied to the pass over [url(...)].  In
    either pass a construct whose value (submatch 2, what the source
    calls [urlPart]) does not resolve against the base is put back
    byte for byte, and the pass goes on with the text after it.  If no
    value resolves at all, the document comes back unchanged. *)
Theorem css_unresolvable_reference_kept (base : URL) (origin : list ascii) :
  (forall content,
     rewriteCSS content base origin
     = Some (cssImportPass base origin (cssUrlPass base origin content)))
  /\ (forall text pre m sub rest,
        find urlRegex text = Some (pre, m, sub, rest) ->
        URL_Parse base (nth 2 sub []) = None ->
        cssUrlPass base origin text = pre ++ m ++ cssUrlPass base origin rest)
  /\ (forall text pre m sub rest,
        find importRegex text = Some (pre, m, sub, rest) ->
        URL_Parse base (nth 2 sub []) = None ->
        cssImportPass base origin text = pre ++ m ++ cssImportPass base origin rest)
  /\ (forall content,
        (forall ref, URL_Parse base ref = None) ->
        rewriteCSS content base origin = Some content).
Proof.
  split; [| split; [| split]].
  - intros content. reflexivity.
  - intros text pre m sub rest Hfind Hparse.
    destruct (find_sound _ _ _ _ _ _ Hfind) as (_ & Hm & _).
    unfold cssUrlPass. rewrite (ReplaceAll_find _ _ _ _ _ _ _ minLen_urlRegex Hfind).
    f_equal. f_equal. unfold cssUrlRepl.
    rewrite (FindStringSubmatch_match _ _ _ _ _ Hm), Hparse.
    destruct (length sub <? 3); reflexivity.
  - intros text pre m sub rest Hfind Hparse.
    destruct (find_sound _ _ _ _ _ _ Hfind) as (_ & Hm & _).
    unfold cssImportPass.
    rewrite (ReplaceAll_find _ _ _ _ _ _ _ minLen_importRegex Hfind).
    f_equal. f_equal. unfold cssImportRepl.
    rewrite (FindStringSubmatch_match _ _ _ _ _ Hm), Hparse.
    destruct (length sub <? 3); reflexivity.
  - intros content Hfail.
    unfold rewriteCSS, cssImportPass, cssUrlPass, ReplaceAllStringFunc.
    rewrite !replaceAll_id; [reflexivity | |];
      intros m; unfold cssImportRepl, cssUrlRepl; rewrite Hfail;
      destruct (length _ <? 3); reflexivity.
Qed.

(* ================================================================== *)
(** * The handler *)
(* ================================================================== *)

(** C4, as amended.  The handler answers with its own error 400
    exactly when the encoded target is missing, does not decode, or
    decodes to a URL that does not parse or has an empty scheme or
    host.  It answers with its own error 500 exactly when building the
    upstream request fails, the upstream transport fails, or, under a
    rewrite strategy, reading the whole body or rewriting it fails.  It
    never calls [http.Error] with another code, and whatever else it
    writes carries the status code of the upstream response.  In every
    other case, when the upstream status is a code that
    [w.WriteHeader] takes, of three digits, the handler writes that
    status: under pass-through with the bytes the body delivered,
    whether or not the body stream breaks, and under a rewrite strategy
    with the rewritten body. *)
Theorem handler_status_codes (r : Request) :
  ((exists msg, proxyHandler r = HttpError msg StatusBadRequest)
   <-> targetInvalid r)
  /\ ((exists msg, proxyHandler r = HttpError msg StatusInternalServerError)
      <-> serverFailure r)
  /\ (forall msg code, proxyHandler r = HttpError msg code ->
        code = StatusBadRequest \/ code = StatusInternalServerError)
  /\ (forall hdr status body,
        proxyHandler r = Written hdr status body ->
        exists u p resp,
          targetOf r u p
          /\ client_Do (upstreamRequest r u) = Some resp
          /\ status = StatusCode resp)
  /\ (forall u p resp,
        targetOf r u p ->
        http_NewRequest (Method r) u = true ->
        client_Do (upstreamRequest r u) = Some resp ->
        checkWriteHeaderCode (StatusCode resp) = true ->
        strategyFor r resp = PassThrough ->
        proxyHandler r
        = Written (copyHeaders (browseEnabled r) (RespHeader resp))
                  (StatusCode resp) (delivered (Body resp)))
  /\ (forall u p resp b out,
        targetOf r u p ->
        http_NewRequest (Method r) u = true ->
        client_Do (upstreamRequest r u) = Some resp ->
        checkWriteHeaderCode (StatusCode resp) = true ->
        strategyFor r resp <> PassThrough ->
        io_ReadAll (Body resp) = Some b ->
        rewriterOf (strategyFor r resp) b p (proxyOrigin r) = Some out ->
        proxyHandler r
        = Written (copyHeaders (browseEnabled r) (RespHeader resp))
                  (StatusCode resp) out).
Proof.
  split; [| split; [| split; [| split; [| split]]]].
  - split; [| apply proxyHandler_invalid].
    intros [msg H].
    destruct (handler_trichotomy r)
      as [[Hinv _] | [[_ [m H']] | (_ & _ & u & p & resp & body & _ & _ & H')]];
      [exact Hinv | rewrite H in H'; discriminate ..].
  - split.
    + intros [msg H].
      destruct (handler_trichotomy r)
        as [[_ [m H']] | [[Hf _] | (_ & _ & u & p & resp & body & _ & _ & H')]];
        [rewrite H in H'; discriminate | exact Hf | rewrite H in H'; discriminate].
    + intros Hf.
      destruct (handler_trichotomy r)
        as [[Hinv _] | [[_ H'] | (_ & Hnf & _)]];
        [destruct (serverFailure_valid r Hf Hinv) | exact H' | contradiction].
  - intros msg code H.
    destruct (handler_trichotomy r)
      as [[_ [m H']] | [[_ [m H']] | (_ & _ & u & p & resp & body & _ & _ & H')]];
      rewrite H in H'; [injection H' as _ ->; left; reflexivity
                       | injection H' as _ ->; right; reflexivity | discriminate].
  - intros hdr status body H.
    destruct (handler_trichotomy r)
      as [[_ [m H']] | [[_ [m H']] | (_ & _ & u & p & resp & body' & Ht & Hdo & H')]];
      rewrite H in H'; [discriminate .. |].
    injection H' as _ -> _. exists u, p, resp. auto.
  - intros u p resp Ht Hnew Hdo _ Hst.
    rewrite (proxyHandler_valid r u p Ht), Hnew, Hdo, Hst. reflexivity.
  - intros u p resp b out Ht Hnew Hdo _ Hst Hb Hout.
    rewrite (proxyHandler_valid r u p Ht), Hnew, Hdo. cbn [negb].
    rewrite (respond_by_rewriter _ _ _ _ _ Hst), Hb, Hout. reflexivity.
Qed.

(** C2, as amended.  With rewrite mode off the strategy is
    pass-through.  With rewrite mode on it is chosen by a
    case-sensitive prefix match on the Content-Type value: text/html
    selects the HTML rewriter, text/css the CSS rewriter,
    application/javascript or text/javascript the JavaScript rewriter,
    anything else pass-through.  The handler does to the response what
    that strategy says. *)
Theorem classification_by_prefix :
  (forall t, classify t false = PassThrough)
  /\ (forall t,
        classify t true
        = if HasPrefix t (bs "text/html") then RewriteHtml
          else if HasPrefix t (bs "text/css") then RewriteCss
          else if HasPrefix t (bs "application/javascript")
                  || HasPrefix t (bs "text/javascript") then RewriteJs
          else PassThrough)
  /\ (forall b p origin resp,
        respond b p origin resp
        = respond_by (classify (Header_Get (RespHeader resp) (bs "Content-Type")) b)
                     b p origin resp).
Proof.
  split; [| split].
  - intros t. reflexivity.
  - intros t. reflexivity.
  - apply respond_classify.
Qed.

(** C5.  With headers as the server and the client hand them over,
    the header of the upstream request is the header of the inbound
    request without Host and, when browsing, without Accept-Encoding;
    the header of a relayed response is the header of the upstream
    response without Content-Length when browsing; every other key has
    the same values in the same order, and no key is added. *)
Theorem headers_forwarded (r : Request) :
  canonicalHeader (ReqHeader r) ->
  (forall req resp, client_Do req = Some resp -> canonicalHeader (RespHeader resp)) ->
  (forall u k,
     oHeader (upstreamRequest r u) !! k
     = if requestHeaderDropped (browseEnabled r) k then None else ReqHeader r !! k)
  /\ (forall hdr status body,
        proxyHandler r = Written hdr status body ->
        exists u p resp,
          targetOf r u p
          /\ client_Do (upstreamRequest r u) = Some resp
          /\ forall k,
               hdr !! k
               = if responseHeaderDropped (browseEnabled r) k then None
                 else RespHeader resp !! k).
Proof.
  intros Hreq Hresp. split.
  - intros u k. cbn [upstreamRequest oHeader].
    rewrite forwardHeaders_copyExcept. apply copyExcept_range, Hreq.
  - intros hdr status body H.
    destruct (handler_trichotomy r)
      as [[_ [m H']] | [[_ [m H']] | (_ & _ & u & p & resp & body' & Ht & Hdo & H')]];
      rewrite H in H'; [discriminate .. |].
    injection H' as -> _ _. exists u, p, resp.
    split; [exact Ht | split; [exact Hdo |]].
    intros k. rewrite copyHeaders_copyExcept.
    apply copyExcept_range, (Hresp _ _ Hdo).
Qed.

(** The plain handler forwards everything but Host, and relays every
    header of the response. *)
Lemma headers_forwarded_plain (h : Header) :
  canonicalHeader h ->
  (forall k,
     forwardHeaders_plain h !! k
     = if bytes_eqb (ToLower k) (bs "host") then None else h !! k)
  /\ (forall k, copyHeaders_plain h !! k = h !! k).
Proof.
  intros Hwf. split; intros k.
  - exact (copyExcept_range (fun key => bytes_eqb (ToLower key) (bs "host")) h Hwf k).
  - exact (copyExcept_range (fun _ => false) h Hwf k).
Qed.

(** C3.  Every character of an encoded address is a letter, a digit,
    a dash, an underscore or the padding sign; none is a slash or a
    plus, and none, the padding sign included, has to be escaped in a
    path segment, by RFC 3986 as by [net/url]. *)
Theorem encoded_address_is_path_safe (u : list ascii) :
  Forall (fun c => isURLSafeBase64 c = true
                   /\ c <> "/"%char /\ c <> "+"%char
                   /\ isPchar c = true
                   /\ shouldEscape_pathSegment c = false)
         (base64.EncodeToString base64.URLEncoding u).
Proof.
  eapply Forall_impl; [apply Encode_URL_safe |].
  intros c Hc. split; [exact Hc |].
  unfold isURLSafeBase64 in Hc.
  assert (Hcases : isAlnum c = true \/ c = "-"%char \/ c = "_"%char \/ c = "="%char).
  { destruct (isAlnum c); [left; reflexivity | right]. cbn [orb] in Hc.
    apply orb_true_iff in Hc as [Hc | Hc];
      [apply orb_true_iff in Hc as [Hc | Hc] |];
      apply Ascii.eqb_eq in Hc as ->; auto. }
  repeat split.
  - intros ->. discriminate.
  - intros ->. discriminate.
  - unfold isPchar.
    destruct Hcases as [-> | [-> | [-> | ->]]]; reflexivity.
  - unfold shouldEscape_pathSegment.
    destruct Hcases as [-> | [-> | [-> | ->]]]; reflexivity.
Qed.

(** C1.  On every byte string the decoder of the handler with
    rewriting inverts the encoder of the rewriters, and that handler
    decodes the path made of a slash and the address of [u] to [u].
    The plain handler decodes with the standard alphabet instead: it
    gets [u] back only when the address has neither a dash nor an
    underscore, and answers 400 to every address that has one.  The
    address of https://example.com/?q=1 has an underscore. *)
Theorem address_round_trip_and_plain_handler :
  (forall u, base64.DecodeString base64.URLEncoding
               (base64.EncodeToString base64.URLEncoding u) = Some u)
  /\ (forall r u,
        URL_Path r = bs "/" ++ base64.EncodeToString base64.URLEncoding u ->
        base64.DecodeString base64.URLEncoding (encodedTarget r) = Some u)
  /\ (forall u,
        base64.DecodeString base64.StdEncoding
          (base64.EncodeToString base64.URLEncoding u)
        = if existsb isDashOrUnderscore
                     (base64.EncodeToString base64.URLEncoding u)
          then None else Some u)
  /\ (forall r u,
        URL_Path r = bs "/" ++ base64.EncodeToString base64.URLEncoding u ->
        existsb isDashOrUnderscore (base64.EncodeToString base64.URLEncoding u)
        = true ->
        proxyHandler_plain r
        = HttpError (bs "Invalid base64 encoding: ") StatusBadRequest)
  /\ base64.EncodeToString base64.URLEncoding (bs "https://example.com/?q=1")
     = bs "aHR0cHM6Ly9leGFtcGxlLmNvbS8_cT0x"
  /\ existsb isDashOrUnderscore
       (base64.EncodeToString base64.URLEncoding (bs "https://example.com/?q=1"))
     = true.
Proof.
  split; [exact URLEncoding_roundtrip |].
  split.
  { intros r u Hpath. unfold encodedTarget. rewrite Hpath.
    change (TrimPrefix (bs "/" ++ ?x) (bs "/")) with x.
    apply URLEncoding_roundtrip. }
  split; [exact StdEncoding_on_URL_address |].
  split.
  { intros r u Hpath Hbad. unfold proxyHandler_plain. rewrite Hpath.
    change (TrimPrefix (bs "/" ++ ?x) (bs "/")) with x.
    rewrite StdEncoding_on_URL_address, Hbad.
    destruct (base64.EncodeToString base64.URLEncoding u); [discriminate |].
    reflexivity. }
  split; vm_compute; reflexivity.
Qed.

(* ================================================================== *)
(** * More of the rewriters *)
(* ================================================================== *)

(** ** The other passes of the rewriters, match by match *)

Lemma jsRelImportPass_step (base : URL) (origin text pre m rest : list ascii) sub :
  find relImportRegex text = Some (pre, m, sub, rest) ->
  exists ws q dots d q',
    m = bs "import(" ++ ws ++ q ++ (dots ++ bs "/" ++ d) ++ q'
    /\ Forall (fun x => isSpace x = true) ws
    /\ (q = [dquote] \/ q = [squote])
    /\ (dots = bs "." \/ dots = bs "..")
    /\ d <> [] /\ Forall (fun x => notQuote x = true) d
    /\ (q' = [dquote] \/ q' = [squote])
    /\ jsRelImportPass base origin text
       = pre
         ++ match URL_Parse base (dots ++ bs "/" ++ d) with
            | Some resolved =>
                bs "import(" ++ q ++ origin ++ bs "/" ++ encoded resolved
                  ++ bs "?browse=1" ++ q'
            | None => m
            end
         ++ jsRelImportPass base origin rest.
Proof.
  intros Hfind.
  destruct (find_sound _ _ _ _ _ _ Hfind) as (_ & Hm & _).
  destruct (relImportRegex_shape _ _ _ _ Hm)
    as (ws & q & dots & d & q' & Em & Esub & H1 & H2 & H3 & H4 & H5 & H6).
  exists ws, q, dots, d, q'. repeat (split; [assumption |]).
  unfold jsRelImportPass.
  rewrite (ReplaceAll_find _ _ _ _ _ _ _ minLen_relImportRegex Hfind).
  f_equal. f_equal. unfold jsRelImportRepl.
  rewrite (FindStringSubmatch_match _ _ _ _ _ Hm), Esub. reflexivity.
Qed.

Lemma jsStaticImportPass_step (base : URL) (origin text pre m rest : list ascii) sub :
  find staticImportRegex text = Some (pre, m, sub, rest) ->
  exists ws q dots d q',
    m = bs "from" ++ ws ++ q ++ (dots ++ bs "/" ++ d) ++ q'
    /\ Forall (fun x => isSpace x = true) ws
    /\ (q = [dquote] \/ q = [squote])
    /\ (dots = bs "." \/ dots = bs "..")
    /\ d <> [] /\ Forall (fun x => notQuote x = true) d
    /\ (q' = [dquote] \/ q' = [squote])
    /\ jsStaticImportPass base origin text
       = pre
         ++ match URL_Parse base (dots ++ bs "/" ++ d) with
            | Some resolved =>
                bs "from " ++ q ++ (origin ++ bs "/" ++ encoded resolved
                  ++ bs "?browse=1") ++ q'
            | None => m
            end
         ++ jsStaticImportPass base origin rest.
Proof.
  intros Hfind.
  destruct (find_sound _ _ _ _ _ _ Hfind) as (_ & Hm & _).
  destruct (staticImportRegex_shape _ _ _ _ Hm)
    as (ws & q & dots & d & q' & Em & Esub & H1 & H2 & H3 & H4 & H5 & H6).
  exists ws, q, dots, d, q'. repeat (split; [assumption |]).
  unfold jsStaticImportPass.
  rewrite (ReplaceAll_find _ _ _ _ _ _ _ minLen_staticImportRegex Hfind).
  f_equal. f_equal. unfold jsStaticImportRepl.
  rewrite (FindStringSubmatch_match _ _ _ _ _ Hm), Esub. reflexivity.
Qed.

Lemma jsUrlFuncPass_step (origin text pre m rest : list ascii) sub :
  find urlFuncRegex text = Some (pre, m, sub, rest) ->
  exists ws1 q d q' ws2,
    m = bs "URL(" ++ ws1 ++ q ++ (bs "/" ++ d) ++ q' ++ ws2 ++ bs ")"
    /\ Forall (fun x => isSpace x = true) ws1
    /\ (q = [dquote] \/ q = [squote])
    /\ Forall (fun x => notQuote x = true) d
    /\ (q' = [dquote] \/ q' = [squote])
    /\ Forall (fun x => isSpace x = true) ws2
    /\ jsUrlFuncPass origin text
       = pre
         ++ (bs "URL(" ++ q ++ origin ++ (bs "/" ++ d) ++ q' ++ bs ")")
         ++ jsUrlFuncPass origin rest.
Proof.
  intros Hfind.
  destruct (find_sound _ _ _ _ _ _ Hfind) as (_ & Hm & _).
  destruct (urlFuncRegex_shape _ _ _ _ Hm)
    as (ws1 & q & d & q' & ws2 & Em & Esub & H1 & H2 & H3 & H4 & H5).
  exists ws1, q, d, q', ws2. repeat (split; [assumption |]).
  unfold jsUrlFuncPass.
  rewrite (ReplaceAll_find _ _ _ _ _ _ _ minLen_urlFuncRegex Hfind).
  f_equal. f_equal. unfold jsUrlFuncRepl.
  rewrite (FindStringSubmatch_match _ _ _ _ _ Hm), Esub. reflexivity.
Qed.

(** X1.  The [@import] pass of the CSS rewriter.  Every construct the pass
    locates is the text @import, white space, a quote [q], a value [v]
    without quotes and a quote; if [v] resolves against the base the
    construct is replaced with @import, one space, [q], the proxied
    link and [q] again, whatever the white space and the closing quote
    were.  A construct of that form, met by the scan after a text in
    which no match starts, is so replaced. *)
Theorem css_import_rewritten (base : URL) (origin : list ascii) :
  (forall text pre m sub rest,
     find importRegex text = Some (pre, m, sub, rest) ->
     exists ws q v q',
       m = bs "@import" ++ ws ++ q ++ v ++ q'
       /\ ws <> [] /\ Forall (fun x => isSpace x = true) ws
       /\ (q = [dquote] \/ q = [squote])
       /\ v <> [] /\ Forall (fun x => notQuote x = true) v
       /\ (q' = [dquote] \/ q' = [squote])
       /\ forall resolved,
            URL_Parse base v = Some resolved ->
            cssImportPass base origin text
            = pre
              ++ (bs "@import " ++ q ++ origin ++ bs "/" ++ encoded resolved
                    ++ bs "?browse=1" ++ q)
              ++ cssImportPass base origin rest)
  /\ (forall pre ws q v q' post resolved,
        unmatched importRegex pre ((bs "@import" ++ ws ++ [q] ++ v ++ [q']) ++ post) ->
        ws <> [] -> Forall (fun x => isSpace x = true) ws ->
        isQuote q = true -> isQuote q' = true ->
        v <> [] -> Forall (fun x => notQuote x = true) v ->
        URL_Parse base v = Some resolved ->
        cssImportPass base origin (pre ++ (bs "@import" ++ ws ++ [q] ++ v ++ [q']) ++ post)
        = pre
          ++ (bs "@import " ++ [q] ++ origin ++ bs "/" ++ encoded resolved
                ++ bs "?browse=1" ++ [q])
          ++ cssImportPass base origin post).
Proof.
  split.
  - intros text pre m sub rest Hfind.
    destruct (cssImportPass_step base origin _ _ _ _ _ Hfind)
      as (ws & q & v & q' & Em & H1 & H2 & H3 & H4 & H5 & H6 & Hpass).
    exists ws, q, v, q'. repeat (split; [assumption |]).
    intros resolved Hres. rewrite Hres in Hpass. exact Hpass.
  - intros pre ws q v q' post resolved Hpre Hne Hws Hq Hq' Hv Hcls Hres.
    pose proof (importRegex_construct ws q q' v post Hne Hws Hq Hq' Hv Hcls) as Hm.
    cbv zeta in Hm. unfold cssImportPass.
    rewrite (ReplaceAll_at _ _ _ _ _ _ minLen_importRegex Hpre Hm).
    f_equal. f_equal. unfold cssImportRepl.
    rewrite (FindStringSubmatch_match _ _ _ _ _ Hm).
    cbn [length Nat.ltb Nat.leb nth]. rewrite Hres. reflexivity.
Qed.

(** X2.  The pass of the JavaScript rewriter over dynamic imports.  Every
    match is the text import, an opening parenthesis, white space, a
    quote, a path that starts with one or two dots and a slash and has
    no quote, and a quote; the closing parenthesis is not part of it.
    If the path resolves against the base, the match is replaced with
    import, parenthesis, the opening quote, the proxied link and the
    closing quote, without the white space; if it does not, the match
    stays. *)
Theorem js_dynamic_import_rewritten (base : URL) (origin : list ascii) :
  (forall text pre m sub rest,
     find relImportRegex text = Some (pre, m, sub, rest) ->
     exists ws q dots d q',
       m = bs "import(" ++ ws ++ q ++ (dots ++ bs "/" ++ d) ++ q'
       /\ Forall (fun x => isSpace x = true) ws
       /\ (q = [dquote] \/ q = [squote])
       /\ (dots = bs "." \/ dots = bs "..")
       /\ d <> [] /\ Forall (fun x => notQuote x = true) d
       /\ (q' = [dquote] \/ q' = [squote])
       /\ jsRelImportPass base origin text
          = pre
            ++ match URL_Parse base (dots ++ bs "/" ++ d) with
               | Some resolved =>
                   bs "import(" ++ q ++ origin ++ bs "/" ++ encoded resolved
                     ++ bs "?browse=1" ++ q'
               | None => m
               end
            ++ jsRelImportPass base origin rest)
  /\ (forall pre ws q dots d q' post resolved,
        unmatched relImportRegex pre
          ((bs "import(" ++ ws ++ [q] ++ (dots ++ bs "/" ++ d) ++ [q']) ++ post) ->
        Forall (fun x => isSpace x = true) ws ->
        isQuote q = true -> isQuote q' = true ->
        dots = bs "." \/ dots = bs ".." ->
        d <> [] -> Forall (fun x => notQuote x = true) d ->
        URL_Parse base (dots ++ bs "/" ++ d) = Some resolved ->
        jsRelImportPass base origin
          (pre ++ (bs "import(" ++ ws ++ [q] ++ (dots ++ bs "/" ++ d) ++ [q']) ++ post)
        = pre
          ++ (bs "import(" ++ [q] ++ origin ++ bs "/" ++ encoded resolved
                ++ bs "?browse=1" ++ [q'])
          ++ jsRelImportPass base origin post).
Proof.
  split.
  - intros text pre m sub rest Hfind.
    exact (jsRelImportPass_step base origin _ _ _ _ _ Hfind).
  - intros pre ws q dots d q' post resolved Hpre Hws Hq Hq' Hdots Hd Hcls Hres.
    pose proof (relImportRegex_construct ws q q' dots d post Hws Hq Hq' Hdots Hd Hcls) as Hm.
    cbv zeta in Hm. unfold jsRelImportPass.
    rewrite (ReplaceAll_at _ _ _ _ _ _ minLen_relImportRegex Hpre Hm).
    f_equal. f_equal. unfold jsRelImportRepl.
    rewrite (FindStringSubmatch_match _ _ _ _ _ Hm).
    cbn [length Nat.ltb Nat.leb nth]. rewrite Hres. reflexivity.
Qed.

(** X3.  The pass of the JavaScript rewriter over static imports.  Every
    match is the text from, white space or none, a quote, a path that
    starts with one or two dots and a slash and has no quote, and a
    quote.  If the path resolves against the base, the match is
    replaced with from, one space, the opening quote, the proxied link
    and the closing quote; if it does not, the match stays. *)
Theorem js_static_import_rewritten (base : URL) (origin : list ascii) :
  (forall text pre m sub rest,
     find staticImportRegex text = Some (pre, m, sub, rest) ->
     exists ws q dots d q',
       m = bs "from" ++ ws ++ q ++ (dots ++ bs "/" ++ d) ++ q'
       /\ Forall (fun x => isSpace x = true) ws
       /\ (q = [dquote] \/ q = [squote])
       /\ (dots = bs "." \/ dots = bs "..")
       /\ d <> [] /\ Forall (fun x => notQuote x = true) d
       /\ (q' = [dquote] \/ q' = [squote])
       /\ jsStaticImportPass base origin text
          = pre
            ++ match URL_Parse base (dots ++ bs "/" ++ d) with
               | Some resolved =>
                   bs "from " ++ q ++ (origin ++ bs "/" ++ encoded resolved
                     ++ bs "?browse=1") ++ q'
               | None => m
               end
            ++ jsStaticImportPass base origin rest)
  /\ (forall pre ws q dots d q' post resolved,
        unmatched staticImportRegex pre
          ((bs "from" ++ ws ++ [q] ++ (dots ++ bs "/" ++ d) ++ [q']) ++ post) ->
        Forall (fun x => isSpace x = true) ws ->
        isQuote q = true -> isQuote q' = true ->
        dots = bs "." \/ dots = bs ".." ->
        d <> [] -> Forall (fun x => notQuote x = true) d ->
        URL_Parse base (dots ++ bs "/" ++ d) = Some resolved ->
        jsStaticImportPass base origin
          (pre ++ (bs "from" ++ ws ++ [q] ++ (dots ++ bs "/" ++ d) ++ [q']) ++ post)
        = pre
          ++ (bs "from " ++ [q] ++ (origin ++ bs "/" ++ encoded resolved
                ++ bs "?browse=1") ++ [q'])
          ++ jsStaticImportPass base origin post).
Proof.
  split.
  - intros text pre m sub rest Hfind.
    exact (jsStaticImportPass_step base origin _ _ _ _ _ Hfind).
  - intros pre ws q dots d q' post resolved Hpre Hws Hq Hq' Hdots Hd Hcls Hres.
    pose proof (staticImportRegex_construct ws q q' dots d post Hws Hq Hq' Hdots Hd Hcls)
      as Hm.
    cbv zeta in Hm. unfold jsStaticImportPass.
    rewrite (ReplaceAll_at _ _ _ _ _ _ minLen_staticImportRegex Hpre Hm).
    f_equal. f_equal. unfold jsStaticImportRepl.
    rewrite (FindStringSubmatch_match _ _ _ _ _ Hm).
    cbn [length Nat.ltb Nat.leb nth]. rewrite Hres. reflexivity.
Qed.

(** X4.  The last pass of the JavaScript rewriter, over calls of URL with
    one quoted argument that starts with a slash.  Every match is the
    text URL, an opening parenthesis, white space, a quote, a slash
    and any text without quotes, a quote, white space and the closing
    parenthesis.  It is replaced with the same call on the origin of
    the proxy followed by the path as it stands: the path is not
    resolved against the base, not encoded, and gets no browse query;
    the white space goes. *)
Theorem js_url_call_prefixed (origin : list ascii) :
  (forall text pre m sub rest,
     find urlFuncRegex text = Some (pre, m, sub, rest) ->
     exists ws1 q d q' ws2,
       m = bs "URL(" ++ ws1 ++ q ++ (bs "/" ++ d) ++ q' ++ ws2 ++ bs ")"
       /\ Forall (fun x => isSpace x = true) ws1
       /\ (q = [dquote] \/ q = [squote])
       /\ Forall (fun x => notQuote x = true) d
       /\ (q' = [dquote] \/ q' = [squote])
       /\ Forall (fun x => isSpace x = true) ws2
       /\ jsUrlFuncPass origin text
          = pre
            ++ (bs "URL(" ++ q ++ origin ++ (bs "/" ++ d) ++ q' ++ bs ")")
            ++ jsUrlFuncPass origin rest)
  /\ (forall pre ws1 q d q' ws2 post,
        unmatched urlFuncRegex pre
          ((bs "URL(" ++ ws1 ++ [q] ++ (bs "/" ++ d) ++ [q'] ++ ws2 ++ bs ")") ++ post) ->
        Forall (fun x => isSpace x = true) ws1 ->
        Forall (fun x => isSpace x = true) ws2 ->
        isQuote q = true -> isQuote q' = true ->
        Forall (fun x => notQuote x = true) d ->
        jsUrlFuncPass origin
          (pre ++ (bs "URL(" ++ ws1 ++ [q] ++ (bs "/" ++ d) ++ [q'] ++ ws2 ++ bs ")")
             ++ post)
        = pre
          ++ (bs "URL(" ++ [q] ++ origin ++ (bs "/" ++ d) ++ [q'] ++ bs ")")
          ++ jsUrlFuncPass origin post).
Proof.
  split.
  - intros text pre m sub rest Hfind.
    exact (jsUrlFuncPass_step origin _ _ _ _ _ Hfind).
  - intros pre ws1 q d q' ws2 post Hpre Hws1 Hws2 Hq Hq' Hcls.
    pose proof (urlFuncRegex_construct ws1 ws2 q q' d post Hws1 Hws2 Hq Hq' Hcls) as Hm.
    cbv zeta in Hm. unfold jsUrlFuncPass.
    rewrite (ReplaceAll_at _ _ _ _ _ _ minLen_urlFuncRegex Hpre Hm).
    f_equal. f_equal. unfold jsUrlFuncRepl.
    rewrite (FindStringSubmatch_match _ _ _ _ _ Hm). reflexivity.
Qed.

(** X5.  A script without a single or double quote comes back from the
    JavaScript rewriter as it went in: each of the four patterns needs
    a quote. *)
Theorem js_without_quotes_unchanged (base : URL) (origin content : list ascii) :
  Forall (fun x => isQuote x = false) content ->
  rewriteJS content base origin = Some content.
Proof.
  intros H. unfold rewriteJS, jsUrlFuncPass, jsStaticImportPass, jsRelImportPass, jsAbsPass.
  rewrite (ReplaceAll_no_match absRegex)
    by (apply (find_none_without _ isQuote absRegex_has_quote), H).
  rewrite (ReplaceAll_no_match relImportRegex)
    by (apply (find_none_without _ isQuote relImportRegex_has_quote), H).
  rewrite (ReplaceAll_no_match staticImportRegex)
    by (apply (find_none_without _ isQuote staticImportRegex_has_quote), H).
  rewrite (ReplaceAll_no_match urlFuncRegex)
    by (apply (find_none_without _ isQuote urlFuncRegex_has_quote), H).
  reflexivity.
Qed.

(** X6.  A style sheet without an opening parenthesis and without an at
    sign comes back from the CSS rewriter as it went in. *)
Theorem css_without_paren_and_at_unchanged (base : URL) (origin content : list ascii) :
  Forall (fun x => byte_eqb x "(" = false) content ->
  Forall (fun x => byte_eqb x "@" = false) content ->
  rewriteCSS content base origin = Some content.
Proof.
  intros H1 H2. unfold rewriteCSS, cssImportPass, cssUrlPass.
  rewrite (ReplaceAll_no_match urlRegex)
    by (apply (find_none_without _ _ urlRegex_has_paren), H1).
  rewrite (ReplaceAll_no_match importRegex)
    by (apply (find_none_without _ _ importRegex_has_at), H2).
  reflexivity.
Qed.

(** ** The JavaScript rewriter on a script with one string literal *)

Lemma pass_no_quote (re : Regexp) repl (s : list ascii) :
  (forall t m rest sub, match_at re t = Some (m, rest, sub) ->
     exists x, In x m /\ isQuote x = true) ->
  Forall (fun x => notQuote x = true) s ->
  ReplaceAllStringFunc re s repl = s.
Proof.
  intros Hre Hs. apply ReplaceAll_no_match.
  apply (find_none_without _ isQuote Hre), notQuote_false, Hs.
Qed.

Lemma encoded_safe (resolved : URL) :
  Forall (fun c => isURLSafeBase64 c = true) (encoded resolved).
Proof. apply Encode_URL_safe. Qed.

Lemma later_passes_keep_link (base : URL) (origin a post : list ascii)
      (q q' : ascii) (resolved : URL) :
  HasPrefix origin (bs "http") = true ->
  Forall (fun x => notQuote x = true) origin ->
  Forall (fun x => notQuote x = true) a -> isQuote q = true -> isQuote q' = true ->
  Forall (fun x => notQuote x = true) post ->
  let text := a ++ q :: (origin ++ bs "/" ++ encoded resolved ++ bs "?browse=1")
                ++ q' :: post in
  jsRelImportPass base origin text = text
  /\ jsStaticImportPass base origin text = text
  /\ jsUrlFuncPass origin text = text.
Proof.
  intros Horigin Hquote Ha Hq Hq' Hpost text.
  destruct (link_shape origin (encoded resolved) Horigin Hquote (encoded_safe resolved))
    as (HL & Hdot & Hslash).
  repeat split; apply ReplaceAll_no_match.
  - apply (quotedMatch_find_none _ _ _ _ relImportRegex_quotedMatch);
      auto; repeat constructor.
  - apply (quotedMatch_find_none _ _ _ _ staticImportRegex_quotedMatch);
      auto; repeat constructor.
  - apply (quotedMatch_find_none _ _ _ _ urlFuncRegex_quotedMatch);
      auto; repeat constructor.
Qed.

(** X7.  The whole JavaScript rewriter on a script whose only quotes are
    those of one string literal with an absolute URL: the literal
    becomes the proxied link between the same quotes and nothing else
    changes.  The origin is one the handler builds: it starts with
    http and has no quote. *)
Theorem js_script_with_absolute_literal (base : URL) (origin pre post : list ascii)
        (q q' : ascii) (scheme d : list ascii) (resolved : URL) :
  HasPrefix origin (bs "http") = true ->
  Forall (fun x => notQuote x = true) origin ->
  Forall (fun x => notQuote x = true) pre ->
  Forall (fun x => notQuote x = true) post ->
  isQuote q = true -> isQuote q' = true ->
  scheme = bs "http://" \/ scheme = bs "https://" ->
  d <> [] -> Forall (fun x => notQuote x = true) d ->
  URL_Parse base (scheme ++ d) = Some resolved ->
  rewriteJS (pre ++ [q] ++ (scheme ++ d) ++ [q'] ++ post) base origin
  = Some (pre ++ [q] ++ (origin ++ bs "/" ++ encoded resolved ++ bs "?browse=1")
            ++ [q'] ++ post).
Proof.
  intros Horigin Hquote Hpre Hpost Hq Hq' Hs Hd Hcls Hres.
  unfold rewriteJS. f_equal.
  assert (H1 : jsAbsPass base origin (pre ++ [q] ++ (scheme ++ d) ++ [q'] ++ post)
               = pre ++ q :: (origin ++ bs "/" ++ encoded resolved ++ bs "?browse=1")
                   ++ q' :: post).
  { pose proof (absRegex_literal q q' scheme d post Hq Hq' Hs Hd Hcls) as Hm.
    cbv zeta in Hm. unfold jsAbsPass.
    replace (pre ++ [q] ++ (scheme ++ d) ++ [q'] ++ post)
      with (pre ++ ([q] ++ (scheme ++ d) ++ [q']) ++ post)
      by (rewrite <- !app_assoc; reflexivity).
    rewrite (ReplaceAll_at _ _ _ _ _ _ minLen_absRegex
               (unmatched_abs_nonquote _ _ Hpre) Hm).
    rewrite (pass_no_quote _ _ _ absRegex_has_quote Hpost).
    f_equal. unfold jsAbsRepl.
    rewrite (FindStringSubmatch_match _ _ _ _ _ Hm).
    cbn [length Nat.ltb Nat.leb nth]. rewrite Hres.
    rewrite <- !app_assoc. reflexivity. }
  rewrite H1.
  destruct (later_passes_keep_link base origin pre post q q' resolved
              Horigin Hquote Hpre Hq Hq' Hpost) as (E2 & E3 & E4).
  cbv zeta in E2, E3, E4. rewrite E2, E3, E4.
  rewrite <- !app_assoc. reflexivity.
Qed.

Lemma jsAbsPass_no_scheme (base : URL) (origin a c b : list ascii) (q q' : ascii) :
  Forall (fun x => notQuote x = true) a ->
  Forall (fun x => notQuote x = true) c ->
  HasPrefix c (bs "http://") = false -> HasPrefix c (bs "https://") = false ->
  isQuote q' = true ->
  Forall (fun x => notQuote x = true) b ->
  jsAbsPass base origin (a ++ q :: c ++ q' :: b) = a ++ q :: c ++ q' :: b.
Proof.
  intros Ha Hc H1 H2 Hq' Hb. unfold jsAbsPass. apply ReplaceAll_no_match.
  apply (find_abs_no_scheme a c b q q'); assumption.
Qed.

(** X8.  The whole JavaScript rewriter on a script whose only quotes are
    those of the path of one dynamic import: the text import, the
    opening parenthesis, white space, and the quoted path become
    import, parenthesis and the quoted proxied link; nothing else
    changes. *)
Theorem js_script_with_dynamic_import (base : URL) (origin pre post : list ascii)
        (ws : list ascii) (q q' : ascii) (dots d : list ascii) (resolved : URL) :
  HasPrefix origin (bs "http") = true ->
  Forall (fun x => notQuote x = true) origin ->
  Forall (fun x => notQuote x = true) pre ->
  Forall (fun x => notQuote x = true) post ->
  Forall (fun x => isSpace x = true) ws ->
  isQuote q = true -> isQuote q' = true ->
  dots = bs "." \/ dots = bs ".." ->
  d <> [] -> Forall (fun x => notQuote x = true) d ->
  URL_Parse base (dots ++ bs "/" ++ d) = Some resolved ->
  rewriteJS (pre ++ bs "import(" ++ ws ++ [q] ++ (dots ++ bs "/" ++ d) ++ [q'] ++ post)
            base origin
  = Some (pre ++ bs "import(" ++ [q]
            ++ (origin ++ bs "/" ++ encoded resolved ++ bs "?browse=1")
            ++ [q'] ++ post).
Proof.
  intros Horigin Hquote Hpre Hpost Hws Hq Hq' Hdots Hd Hcls Hres.
  destruct (relPath_notQuote dots d Hdots Hcls) as (Hy & _ & Hs1 & Hs2 & _).
  assert (Ha : Forall (fun x => notQuote x = true) (pre ++ bs "import(" ++ ws)).
  { repeat (apply Forall_app; split);
      [exact Hpre | repeat constructor | apply space_notQuote, Hws]. }
  unfold rewriteJS. f_equal.
  replace (pre ++ bs "import(" ++ ws ++ [q] ++ (dots ++ bs "/" ++ d) ++ [q'] ++ post)
    with ((pre ++ bs "import(" ++ ws) ++ q :: (dots ++ bs "/" ++ d) ++ q' :: post)
    by (rewrite <- !app_assoc; reflexivity).
  rewrite (jsAbsPass_no_scheme base origin _ _ _ q q' Ha Hy Hs1 Hs2 Hq' Hpost).
  assert (H2 : jsRelImportPass base origin
                 ((pre ++ bs "import(" ++ ws) ++ q :: (dots ++ bs "/" ++ d) ++ q' :: post)
               = (pre ++ bs "import(")
                   ++ q :: (origin ++ bs "/" ++ encoded resolved ++ bs "?browse=1")
                   ++ q' :: post).
  { pose proof (relImportRegex_construct ws q q' dots d post Hws Hq Hq' Hdots Hd Hcls)
      as Hm.
    cbv zeta in Hm. unfold jsRelImportPass.
    replace ((pre ++ bs "import(" ++ ws) ++ q :: (dots ++ bs "/" ++ d) ++ q' :: post)
      with (pre ++ (bs "import(" ++ ws ++ [q] ++ (dots ++ bs "/" ++ d) ++ [q']) ++ post)
      by (rewrite <- !app_assoc; reflexivity).
    assert (Hun : unmatched relImportRegex pre
                    ((bs "import(" ++ ws ++ [q] ++ (dots ++ bs "/" ++ d) ++ [q']) ++ post)).
    { pose proof (quotedMatch_unmatched _ _ _ _ relImportRegex_quotedMatch
                    ltac:(repeat constructor) eq_refl eq_refl
                    pre ws ((dots ++ bs "/" ++ d) ++ [q'] ++ post) q Hpre Hws Hq) as Hun.
      rewrite <- !app_assoc in Hun. rewrite <- !app_assoc. exact Hun. }
    rewrite (ReplaceAll_at _ _ _ _ _ _ minLen_relImportRegex Hun Hm).
    rewrite (pass_no_quote _ _ _ relImportRegex_has_quote Hpost).
    unfold jsRelImportRepl.
    rewrite (FindStringSubmatch_match _ _ _ _ _ Hm).
    cbn [length Nat.ltb Nat.leb nth]. rewrite Hres.
    rewrite <- !app_assoc. reflexivity. }
  rewrite H2.
  assert (Ha' : Forall (fun x => notQuote x = true) (pre ++ bs "import("))
    by (apply Forall_app; split; [exact Hpre | repeat constructor]).
  destruct (later_passes_keep_link base origin _ post q q' resolved
              Horigin Hquote Ha' Hq Hq' Hpost) as (_ & E3 & E4).
  cbv zeta in E3, E4. rewrite E3, E4.
  rewrite <- !app_assoc. reflexivity.
Qed.

(** X9.  The whole JavaScript rewriter on a script whose only quotes are
    those of the path of one static import: the text from, white
    space or none, and the quoted path become from, one space and the
    quoted proxied link; nothing else changes. *)
Theorem js_script_with_static_import (base : URL) (origin pre post : list ascii)
        (ws : list ascii) (q q' : ascii) (dots d : list ascii) (resolved : URL) :
  HasPrefix origin (bs "http") = true ->
  Forall (fun x => notQuote x = true) origin ->
  Forall (fun x => notQuote x = true) pre ->
  Forall (fun x => notQuote x = true) post ->
  Forall (fun x => isSpace x = true) ws ->
  isQuote q = true -> isQuote q' = true ->
  dots = bs "." \/ dots = bs ".." ->
  d <> [] -> Forall (fun x => notQuote x = true) d ->
  URL_Parse base (dots ++ bs "/" ++ d) = Some resolved ->
  rewriteJS (pre ++ bs "from" ++ ws ++ [q] ++ (dots ++ bs "/" ++ d) ++ [q'] ++ post)
            base origin
  = Some (pre ++ bs "from " ++ [q]
            ++ (origin ++ bs "/" ++ encoded resolved ++ bs "?browse=1")
            ++ [q'] ++ post).
Proof.
  intros Horigin Hquote Hpre Hpost Hws Hq Hq' Hdots Hd Hcls Hres.
  destruct (relPath_notQuote dots d Hdots Hcls) as (Hy & _ & Hs1 & Hs2 & _).
  assert (Ha : Forall (fun x => notQuote x = true) (pre ++ bs "from" ++ ws)).
  { repeat (apply Forall_app; split);
      [exact Hpre | repeat constructor | apply space_notQuote, Hws]. }
  unfold rewriteJS. f_equal.
  replace (pre ++ bs "from" ++ ws ++ [q] ++ (dots ++ bs "/" ++ d) ++ [q'] ++ post)
    with ((pre ++ bs "from" ++ ws) ++ q :: (dots ++ bs "/" ++ d) ++ q' :: post)
    by (rewrite <- !app_assoc; reflexivity).
  rewrite (jsAbsPass_no_scheme base origin _ _ _ q q' Ha Hy Hs1 Hs2 Hq' Hpost).
  assert (H2 : jsRelImportPass base origin
                 ((pre ++ bs "from" ++ ws) ++ q :: (dots ++ bs "/" ++ d) ++ q' :: post)
               = (pre ++ bs "from" ++ ws) ++ q :: (dots ++ bs "/" ++ d) ++ q' :: post).
  { apply ReplaceAll_no_match.
    apply (quotedMatch_find_none _ _ _ _ relImportRegex_quotedMatch
             ltac:(repeat constructor) eq_refl _ _ _ q q' Ha Hq Hy Hq' Hpost).
    right. intros a1 ws0 E Hws0.
    replace (pre ++ bs "from" ++ ws) with ((pre ++ bs "fro") ++ "m"%char :: ws) in E
      by (rewrite <- !app_assoc; reflexivity).
    replace (a1 ++ (bs "import" ++ ["("%char]) ++ ws0)
      with ((a1 ++ bs "import") ++ "("%char :: ws0) in E
      by (rewrite <- !app_assoc; reflexivity).
    apply (last_split_unique isSpace) in E as (_ & E & _); auto. discriminate. }
  rewrite H2.
  assert (H3 : jsStaticImportPass base origin
                 ((pre ++ bs "from" ++ ws) ++ q :: (dots ++ bs "/" ++ d) ++ q' :: post)
               = (pre ++ bs "from ")
                   ++ q :: (origin ++ bs "/" ++ encoded resolved ++ bs "?browse=1")
                   ++ q' :: post).
  { pose proof (staticImportRegex_construct ws q q' dots d post Hws Hq Hq' Hdots Hd Hcls)
      as Hm.
    cbv zeta in Hm. unfold jsStaticImportPass.
    replace ((pre ++ bs "from" ++ ws) ++ q :: (dots ++ bs "/" ++ d) ++ q' :: post)
      with (pre ++ (bs "from" ++ ws ++ [q] ++ (dots ++ bs "/" ++ d) ++ [q']) ++ post)
      by (rewrite <- !app_assoc; reflexivity).
    assert (Hun : unmatched staticImportRegex pre
                    ((bs "from" ++ ws ++ [q] ++ (dots ++ bs "/" ++ d) ++ [q']) ++ post)).
    { pose proof (quotedMatch_unmatched _ _ _ _ staticImportRegex_quotedMatch
                    ltac:(repeat constructor) eq_refl eq_refl
                    pre ws ((dots ++ bs "/" ++ d) ++ [q'] ++ post) q Hpre Hws Hq) as Hun.
      rewrite <- !app_assoc in Hun. rewrite <- !app_assoc. exact Hun. }
    rewrite (ReplaceAll_at _ _ _ _ _ _ minLen_staticImportRegex Hun Hm).
    rewrite (pass_no_quote _ _ _ staticImportRegex_has_quote Hpost).
    unfold jsStaticImportRepl.
    rewrite (FindStringSubmatch_match _ _ _ _ _ Hm).
    cbn [length Nat.ltb Nat.leb nth]. rewrite Hres.
    rewrite <- !app_assoc. reflexivity. }
  rewrite H3.
  assert (Ha' : Forall (fun x => notQuote x = true) (pre ++ bs "from "))
    by (apply Forall_app; split; [exact Hpre | repeat constructor]).
  destruct (later_passes_keep_link base origin _ post q q' resolved
              Horigin Hquote Ha' Hq Hq' Hpost) as (_ & _ & E4).
  cbv zeta in E4. rewrite E4.
  rewrite <- !app_assoc. reflexivity.
Qed.

(** X10.  The whole JavaScript rewriter on a script whose only quotes are
    those of the argument of one call of URL, a path that starts with
    a slash: the argument gets the origin of the proxy in front, the
    white space inside the parentheses goes, and nothing else changes.
    The path is neither resolved nor encoded. *)
Theorem js_script_with_url_call (base : URL) (origin pre post : list ascii)
        (ws1 ws2 : list ascii) (q q' : ascii) (d : list ascii) :
  Forall (fun x => notQuote x = true) pre ->
  Forall (fun x => notQuote x = true) post ->
  Forall (fun x => isSpace x = true) ws1 ->
  Forall (fun x => isSpace x = true) ws2 ->
  isQuote q = true -> isQuote q' = true ->
  Forall (fun x => notQuote x = true) d ->
  rewriteJS (pre ++ bs "URL(" ++ ws1 ++ [q] ++ (bs "/" ++ d) ++ [q'] ++ ws2 ++ bs ")"
               ++ post) base origin
  = Some (pre ++ bs "URL(" ++ [q] ++ origin ++ (bs "/" ++ d) ++ [q'] ++ bs ")" ++ post).
Proof.
  intros Hpre Hpost Hws1 Hws2 Hq Hq' Hcls.
  assert (Hy : Forall (fun x => notQuote x = true) (bs "/" ++ d))
    by (repeat constructor; exact Hcls).
  assert (Ha : Forall (fun x => notQuote x = true) (pre ++ bs "URL(" ++ ws1)).
  { repeat (apply Forall_app; split);
      [exact Hpre | repeat constructor | apply space_notQuote, Hws1]. }
  assert (Hb : Forall (fun x => notQuote x = true) (ws2 ++ bs ")" ++ post)).
  { repeat (apply Forall_app; split);
      [apply space_notQuote, Hws2 | repeat constructor | exact Hpost]. }
  unfold rewriteJS. f_equal.
  replace (pre ++ bs "URL(" ++ ws1 ++ [q] ++ (bs "/" ++ d) ++ [q'] ++ ws2 ++ bs ")" ++ post)
    with ((pre ++ bs "URL(" ++ ws1) ++ q :: (bs "/" ++ d) ++ q' :: (ws2 ++ bs ")" ++ post))
    by (rewrite <- !app_assoc; reflexivity).
  rewrite (jsAbsPass_no_scheme base origin _ _ _ q q' Ha Hy eq_refl eq_refl Hq' Hb).
  assert (H2 : jsRelImportPass base origin
                 ((pre ++ bs "URL(" ++ ws1) ++ q :: (bs "/" ++ d) ++ q' :: (ws2 ++ bs ")" ++ post))
               = (pre ++ bs "URL(" ++ ws1) ++ q :: (bs "/" ++ d) ++ q' :: (ws2 ++ bs ")" ++ post)).
  { apply ReplaceAll_no_match.
    apply (quotedMatch_find_none _ _ _ _ relImportRegex_quotedMatch);
      auto; repeat constructor. }
  rewrite H2.
  assert (H3 : jsStaticImportPass base origin
                 ((pre ++ bs "URL(" ++ ws1) ++ q :: (bs "/" ++ d) ++ q' :: (ws2 ++ bs ")" ++ post))
               = (pre ++ bs "URL(" ++ ws1) ++ q :: (bs "/" ++ d) ++ q' :: (ws2 ++ bs ")" ++ post)).
  { apply ReplaceAll_no_match.
    apply (quotedMatch_find_none _ _ _ _ staticImportRegex_quotedMatch);
      auto; repeat constructor. }
  rewrite H3.
  pose proof (urlFuncRegex_construct ws1 ws2 q q' d post Hws1 Hws2 Hq Hq' Hcls) as Hm.
  cbv zeta in Hm. unfold jsUrlFuncPass.
  replace ((pre ++ bs "URL(" ++ ws1) ++ q :: (bs "/" ++ d) ++ q' :: (ws2 ++ bs ")" ++ post))
    with (pre ++ (bs "URL(" ++ ws1 ++ [q] ++ (bs "/" ++ d) ++ [q'] ++ ws2 ++ bs ")") ++ post)
    by (rewrite <- !app_assoc; reflexivity).
  assert (Hun : unmatched urlFuncRegex pre
                  ((bs "URL(" ++ ws1 ++ [q] ++ (bs "/" ++ d) ++ [q'] ++ ws2 ++ bs ")") ++ post)).
  { pose proof (quotedMatch_unmatched _ _ _ _ urlFuncRegex_quotedMatch
                  ltac:(repeat constructor) eq_refl eq_refl
                  pre ws1 ((bs "/" ++ d) ++ [q'] ++ ws2 ++ bs ")" ++ post) q Hpre Hws1 Hq)
      as Hun.
    rewrite <- !app_assoc in Hun. rewrite <- !app_assoc. exact Hun. }
  rewrite (ReplaceAll_at _ _ _ _ _ _ minLen_urlFuncRegex Hun Hm).
  rewrite (pass_no_quote _ _ _ urlFuncRegex_has_quote Hpost).
  unfold jsUrlFuncRepl.
  rewrite (FindStringSubmatch_match _ _ _ _ _ Hm).
  cbn [length Nat.ltb Nat.leb nth].
  rewrite <- !app_assoc. reflexivity.
Qed.

(** ** The CSS rewriter on a style sheet with one reference *)

Lemma safe_no_at (e : list ascii) :
  Forall (fun c => isURLSafeBase64 c = true) e ->
  Forall (fun x => byte_eqb x "@" = false) e.
Proof.
  intros H. eapply Forall_impl; [exact H |]. intros a Ha.
  pose proof (ascii_forall (fun a => negb (isURLSafeBase64 a) || negb (byte_eqb a "@"))
                ltac:(vm_compute; reflexivity) a) as Hall.
  cbv beta in Hall. rewrite Ha in Hall. apply negb_true_iff, Hall.
Qed.

Lemma quote_no_at (qs : list ascii) :
  quoteOrNone qs ->
  Forall (fun x => byte_eqb x "@" = false) qs
  /\ Forall (fun x => byte_eqb x "(" = false) qs.
Proof. intros [-> | [-> | ->]]; split; repeat constructor. Qed.

(** X11.  The whole CSS rewriter on a style sheet with one [url(...)]
    construct, quoted on both sides with the same quote or unquoted,
    in a text that has no other parenthesis and no at sign: the value
    becomes the proxied link in the same quoting and nothing else
    changes.  The origin has no at sign. *)
Theorem css_sheet_with_url (base : URL) (origin pre post qs v : list ascii)
        (resolved : URL) :
  Forall (fun x => byte_eqb x "@" = false) origin ->
  Forall (fun x => byte_eqb x "(" = false) pre ->
  Forall (fun x => byte_eqb x "@" = false) pre ->
  Forall (fun x => byte_eqb x "(" = false) post ->
  Forall (fun x => byte_eqb x "@" = false) post ->
  quoteOrNone qs -> (qs = [] -> stops isSpace v) ->
  v <> [] -> Forall (fun x => notQuoteParen x = true) v ->
  URL_Parse base v = Some resolved ->
  rewriteCSS (pre ++ bs "url(" ++ qs ++ v ++ qs ++ bs ")" ++ post) base origin
  = Some (pre ++ bs "url(" ++ qs
            ++ (origin ++ bs "/" ++ encoded resolved ++ bs "?browse=1")
            ++ qs ++ bs ")" ++ post).
Proof.
  intros Horigin Hpre1 Hpre2 Hpost1 Hpost2 Hqs Hsp Hv Hcls Hres.
  unfold rewriteCSS. f_equal.
  pose proof (urlRegex_construct qs v post Hqs Hsp Hv Hcls) as Hm. cbv zeta in Hm.
  assert (Hun : unmatched urlRegex pre ((bs "url(" ++ qs ++ v ++ qs ++ bs ")") ++ post)).
  { exact (unmatched_before_keyword urlRegex (fun x => byte_eqb x "(") (bs "url") "("
             urlRegex_keyword ltac:(repeat constructor) eq_refl pre _ Hpre1). }
  assert (H1 : cssUrlPass base origin (pre ++ bs "url(" ++ qs ++ v ++ qs ++ bs ")" ++ post)
               = pre ++ bs "url(" ++ qs
                   ++ (origin ++ bs "/" ++ encoded resolved ++ bs "?browse=1")
                   ++ qs ++ bs ")" ++ post).
  { unfold cssUrlPass.
    replace (pre ++ bs "url(" ++ qs ++ v ++ qs ++ bs ")" ++ post)
      with (pre ++ (bs "url(" ++ qs ++ v ++ qs ++ bs ")") ++ post)
      by (rewrite <- !app_assoc; reflexivity).
    rewrite (ReplaceAll_at _ _ _ _ _ _ minLen_urlRegex Hun Hm).
    rewrite (ReplaceAll_no_match urlRegex)
      by (apply (find_none_without _ _ urlRegex_has_paren), Hpost1).
    unfold cssUrlRepl. rewrite (FindStringSubmatch_match _ _ _ _ _ Hm).
    cbn [length Nat.ltb Nat.leb nth]. rewrite Hres.
    rewrite <- !app_assoc. reflexivity. }
  rewrite H1. unfold cssImportPass. apply ReplaceAll_no_match.
  apply (find_none_without _ _ importRegex_has_at).
  destruct (quote_no_at qs Hqs) as [Hq _].
  pose proof (safe_no_at _ (Encode_URL_safe (URL_String resolved))) as He.
  repeat (apply Forall_app; split); auto; repeat constructor.
Qed.

(** X12.  The whole CSS rewriter on a style sheet with one [@import] of a
    quoted value, in a text that has no parenthesis and no other at
    sign: the import becomes @import, one space, and the proxied link
    between two quotes like the opening one; nothing else changes. *)
Theorem css_sheet_with_import (base : URL) (origin pre post ws v : list ascii)
        (q q' : ascii) (resolved : URL) :
  Forall (fun x => byte_eqb x "(" = false) pre ->
  Forall (fun x => byte_eqb x "@" = false) pre ->
  Forall (fun x => byte_eqb x "(" = false) post ->
  Forall (fun x => byte_eqb x "@" = false) post ->
  ws <> [] -> Forall (fun x => isSpace x = true) ws ->
  isQuote q = true -> isQuote q' = true ->
  v <> [] -> Forall (fun x => notQuote x = true) v ->
  Forall (fun x => byte_eqb x "(" = false) v ->
  URL_Parse base v = Some resolved ->
  rewriteCSS (pre ++ bs "@import" ++ ws ++ [q] ++ v ++ [q'] ++ post) base origin
  = Some (pre ++ bs "@import " ++ [q]
            ++ (origin ++ bs "/" ++ encoded resolved ++ bs "?browse=1")
            ++ [q] ++ post).
Proof.
  intros Hpre1 Hpre2 Hpost1 Hpost2 Hne Hws Hq Hq' Hv Hcls Hv1 Hres.
  unfold rewriteCSS. f_equal.
  assert (H1 : cssUrlPass base origin (pre ++ bs "@import" ++ ws ++ [q] ++ v ++ [q'] ++ post)
               = pre ++ bs "@import" ++ ws ++ [q] ++ v ++ [q'] ++ post).
  { unfold cssUrlPass. apply ReplaceAll_no_match.
    apply (find_none_without _ _ urlRegex_has_paren).
    assert (Hqp : forall c, isQuote c = true -> byte_eqb c "(" = false)
      by (intros c Hc; apply isQuote_cases in Hc as [-> | ->]; reflexivity).
    repeat (apply Forall_app; split); auto using space_no_paren;
      repeat constructor; auto. }
  rewrite H1.
  pose proof (importRegex_construct ws q q' v post Hne Hws Hq Hq' Hv Hcls) as Hm.
  cbv zeta in Hm.
  assert (Hun : unmatched importRegex pre
                  ((bs "@import" ++ ws ++ [q] ++ v ++ [q']) ++ post)).
  { exact (unmatched_before_keyword importRegex (fun x => byte_eqb x "@") [] "@"
             importRegex_keyword ltac:(constructor) eq_refl pre _ Hpre2). }
  unfold cssImportPass.
  replace (pre ++ bs "@import" ++ ws ++ [q] ++ v ++ [q'] ++ post)
    with (pre ++ (bs "@import" ++ ws ++ [q] ++ v ++ [q']) ++ post)
    by (rewrite <- !app_assoc; reflexivity).
  rewrite (ReplaceAll_at _ _ _ _ _ _ minLen_importRegex Hun Hm).
  rewrite (ReplaceAll_no_match importRegex)
    by (apply (find_none_without _ _ importRegex_has_at), Hpost2).
  unfold cssImportRepl. rewrite (FindStringSubmatch_match _ _ _ _ _ Hm).
  cbn [length Nat.ltb Nat.leb nth]. rewrite Hres.
  rewrite <- !app_assoc. reflexivity.
Qed.

(** ** The text of the nodes in the tree walk *)

Lemma traverse_Data (base : URL) origin b n :
  Data (traverse base origin b n)
  = if b && NodeType_eqb (Type_ n) TextNode
    then match rewriteJS (Data n) base origin with
         | Some rewritten => rewritten
         | None => Data n
         end
    else Data n.
Proof.
  destruct n as [ty d ns at_ ch]. cbn [traverse Type_ Data].
  destruct (NodeType_eqb ty ElementNode); reflexivity.
Qed.

Lemma traverse_Children_inline (base : URL) origin b n :
  Children (traverse base origin b n)
  = map (traverse base origin (inlineScript n)) (Children n).
Proof.
  destruct n as [ty d ns at_ ch]. unfold inlineScript. cbn [traverse Type_ Data Attr Children].
  destruct ty; cbn [NodeType_eqb andb]; rewrite ?andb_false_r; reflexivity.
Qed.

(** The child at position [i] of the node at [path] is walked with
    the flag that tells whether that node is an inline script. *)
Lemma subnode_traverse_child (base : URL) origin (path : list nat) :
  forall n b e i c,
  subnode path n = Some e -> Children e !! i = Some c ->
  subnode (path ++ [i]) (traverse base origin b n)
  = Some (traverse base origin (inlineScript e) c).
Proof.
  induction path as [| j path IH]; intros n b e i c H Hc; cbn [subnode app] in *.
  - injection H as ->. rewrite traverse_Children_inline, list_lookup_fmap, Hc.
    reflexivity.
  - destruct (Children n !! j) as [c0 |] eqn:Hj; [| discriminate].
    rewrite traverse_Children_inline, list_lookup_fmap, Hj. cbn.
    apply (IH _ _ _ _ _ H Hc).
Qed.

(** X13.  The inline scripts.  In the walk of the HTML rewriter no node
    that is not a text node changes its data (the name of an element,
    the text of a comment).  A text node that is a child of an element
    named script without a src attribute gets the output of the
    JavaScript rewriter on its text; a text node anywhere else, under a
    script with a src attribute included, keeps its text. *)
Theorem html_inline_script_text (base : URL) (origin : list ascii) (doc : Node) :
  (forall path e,
     subnode path doc = Some e ->
     exists e',
       subnode path (traverse base origin false doc) = Some e'
       /\ (Type_ e <> TextNode -> Data e' = Data e))
  /\ (forall path e i c,
        subnode path doc = Some e -> Children e !! i = Some c ->
        Type_ c = TextNode ->
        exists c',
          subnode (path ++ [i]) (traverse base origin false doc) = Some c'
          /\ Some (Data c')
             = if inlineScript e then rewriteJS (Data c) base origin
               else Some (Data c))
  /\ Data (traverse base origin false doc) = Data doc.
Proof.
  split; [| split].
  - intros path e H.
    destruct (subnode_traverse base origin path doc false e H) as [b' H'].
    eexists. split; [exact H' |].
    intros Hty. rewrite traverse_Data.
    destruct (Type_ e); try reflexivity; try (rewrite andb_false_r; reflexivity).
    contradiction.
  - intros path e i c H Hc Hty.
    eexists. split; [apply (subnode_traverse_child base origin path doc false e i c H Hc) |].
    rewrite traverse_Data, Hty. cbn [NodeType_eqb]. rewrite andb_true_r.
    destruct (inlineScript e); reflexivity.
  - rewrite traverse_Data. reflexivity.
Qed.

(** X14.  The HTML rewriter is best effort: an attribute whose value does
    not resolve against the base is left as it is.  The attributes of
    a node that is not an element (a doctype, say) are not visited at
    all. *)
Theorem html_unresolvable_attribute_kept (base : URL) (origin : list ascii)
        (doc : Node) (path : list nat) (e : Node) (i : nat) (a : Attribute) :
  subnode path doc = Some e ->
  Attr e !! i = Some a ->
  exists e',
    subnode path (traverse base origin false doc) = Some e'
    /\ (URL_Parse base (Val a) = None -> Attr e' !! i = Some a)
    /\ (Type_ e <> ElementNode -> Attr e' !! i = Some a).
Proof.
  intros H Ha.
  destruct (subnode_traverse base origin path doc false e H) as [b' H'].
  eexists. split; [exact H' |].
  rewrite traverse_Attr.
  destruct (NodeType_eqb (Type_ e) ElementNode) eqn:Hty.
  - split.
    + intros Hres. rewrite list_lookup_fmap, Ha. cbn. f_equal.
      unfold rewriteAttr. rewrite Hres.
      destruct (inRewriteSet (Key a)); [| reflexivity].
      destruct (HasPrefix (Val a) (bs "data:")); reflexivity.
    + intros Hne. destruct (Type_ e); try discriminate. contradiction.
  - split; intros _; exact Ha.
Qed.

(* ================================================================== *)
(** * More of the handlers *)
(* ================================================================== *)

(** ** The encoded target *)

Lemma encodedTarget_nil (r : Request) :
  encodedTarget r = [] <-> URL_Path r = [] \/ URL_Path r = bs "/".
Proof.
  unfold encodedTarget, TrimPrefix.
  destruct (URL_Path r) as [| c [| c' s]]; cbn [HasPrefix length drop list_ascii_of_string].
  - split; auto.
  - unfold byte_eqb. destruct (Ascii.eqb_spec c "/") as [-> | Hne]; cbn [andb drop].
    + split; auto.
    + split; [discriminate | intros [H | H]; [discriminate | congruence]].
  - destruct (byte_eqb c "/" && true); cbn [drop];
      (split; [discriminate | intros [H | H]; discriminate]).
Qed.

Lemma proxyHandler_undecodable (r : Request) :
  encodedTarget r <> [] ->
  base64.DecodeString base64.URLEncoding (encodedTarget r) = None ->
  proxyHandler r = HttpError (bs "Invalid base64 encoding: ") StatusBadRequest.
Proof.
  intros He Hd. unfold proxyHandler, encodedTarget in *.
  apply bytes_eqb_nil in He. rewrite He, Hd. reflexivity.
Qed.

Lemma proxyHandler_plain_undecodable (r : Request) :
  encodedTarget r <> [] ->
  base64.DecodeString base64.StdEncoding (encodedTarget r) = None ->
  proxyHandler_plain r = HttpError (bs "Invalid base64 encoding: ") StatusBadRequest.
Proof.
  intros He Hd. unfold proxyHandler_plain, encodedTarget in *.
  apply bytes_eqb_nil in He. rewrite He, Hd. reflexivity.
Qed.

(** X15.  The handler says that the encoded URL is missing exactly when the
    path of the request is empty or the single slash; so does the plain
    handler. *)
Theorem missing_target_reply (r : Request) :
  (proxyHandler r = HttpError (bs "Missing encoded URL") StatusBadRequest
   <-> URL_Path r = [] \/ URL_Path r = bs "/")
  /\ (proxyHandler_plain r = HttpError (bs "Missing encoded URL") StatusBadRequest
      <-> URL_Path r = [] \/ URL_Path r = bs "/").
Proof.
  rewrite <- encodedTarget_nil. unfold encodedTarget.
  split; split.
  - unfold proxyHandler, respond.
    destruct (TrimPrefix (URL_Path r) (bs "/")) as [| c e]; [reflexivity |].
    cbn [bytes_eqb].
    repeat match goal with
           | |- context [match ?x with _ => _ end] => destruct x
           end; discriminate.
  - intros H. unfold proxyHandler. rewrite H. reflexivity.
  - unfold proxyHandler_plain.
    destruct (TrimPrefix (URL_Path r) (bs "/")) as [| c e]; [reflexivity |].
    cbn [bytes_eqb].
    repeat match goal with
           | |- context [match ?x with _ => _ end] => destruct x
           end; discriminate.
  - intros H. unfold proxyHandler_plain. rewrite H. reflexivity.
Qed.

(** X16.  An address with a character that is not of the alphabet, not the
    padding sign and not a line break is answered with 400, invalid
    base64: by the handler for a character outside the URL alphabet (a
    slash or a plus, say), by the plain handler for a character outside
    the standard alphabet (a dash or an underscore). *)
Theorem address_with_illegal_character_rejected (r : Request) (c : ascii) :
  In c (encodedTarget r) ->
  base64.isNewline c = false -> c <> "="%char ->
  (base64.decodeMap base64.URLEncoding c = None ->
   proxyHandler r = HttpError (bs "Invalid base64 encoding: ") StatusBadRequest)
  /\ (base64.decodeMap base64.StdEncoding c = None ->
      proxyHandler_plain r
      = HttpError (bs "Invalid base64 encoding: ") StatusBadRequest).
Proof.
  intros Hin Hnl Hpad.
  assert (He : encodedTarget r <> []) by (intros E; rewrite E in Hin; destruct Hin).
  assert (Hp : forall enc, base64.padChar enc = Some "="%char ->
                           base64.is_pad enc c = false).
  { intros enc E. unfold base64.is_pad, byte_eqb. rewrite E.
    apply Ascii.eqb_neq, Hpad. }
  split; intros Hmap.
  - apply proxyHandler_undecodable; [exact He |].
    apply (decode_illegal _ c); auto.
  - apply proxyHandler_plain_undecodable; [exact He |].
    apply (decode_illegal _ c); auto.
Qed.

(** X17.  Both handlers take padded addresses only: an address whose
    characters, line breaks apart, are not a multiple of four in
    number is answered with 400, invalid base64. *)
Theorem address_length_multiple_of_four (r : Request) :
  length (countedChars (encodedTarget r)) mod 4 <> 0 ->
  proxyHandler r = HttpError (bs "Invalid base64 encoding: ") StatusBadRequest
  /\ proxyHandler_plain r
     = HttpError (bs "Invalid base64 encoding: ") StatusBadRequest.
Proof.
  intros Hlen.
  assert (He : encodedTarget r <> []) by (intros E; rewrite E in Hlen; apply Hlen; reflexivity).
  split.
  - apply proxyHandler_undecodable; [exact He |].
    destruct (base64.DecodeString _ _) as [u |] eqn:Hd; [| reflexivity].
    apply (decode_counts _ URLEncoding_padded) in Hd; [| cbn; lia].
    contradiction.
  - apply proxyHandler_plain_undecodable; [exact He |].
    destruct (base64.DecodeString _ _) as [u |] eqn:Hd; [| reflexivity].
    apply (decode_counts _ StdEncoding_padded) in Hd; [| cbn; lia].
    contradiction.
Qed.

(** X18.  The decoder of the handler skips carriage returns and line feeds:
    an address of [u] with line breaks put in anywhere still decodes
    to [u]. *)
Theorem address_with_line_breaks (s u : list ascii) :
  countedChars s = base64.EncodeToString base64.URLEncoding u ->
  base64.DecodeString base64.URLEncoding s = Some u.
Proof.
  intros H. unfold base64.DecodeString.
  rewrite (decode_countedChars _ URLEncoding_padded), H.
  apply URLEncoding_roundtrip.
Qed.

(** X19.  The address of a string of n bytes has four characters for every
    three bytes, the last group filled up: 4 * ceil(n / 3) in all, none
    of them a line break. *)
Theorem encoded_address_length (u : list ascii) :
  length (base64.EncodeToString base64.URLEncoding u) = 4 * ((length u + 2) / 3)
  /\ countedChars (base64.EncodeToString base64.URLEncoding u)
     = base64.EncodeToString base64.URLEncoding u.
Proof.
  split; [apply Encode_length; discriminate |].
  unfold countedChars.
  pose proof (Encode_URL_safe u) as H.
  induction H as [| c l Hc _ IH]; [reflexivity |].
  rewrite filter_cons_True, IH; [reflexivity |].
  pose proof (ascii_forall
    (fun c => negb (isURLSafeBase64 c) || negb (base64.isNewline c))
    ltac:(vm_compute; reflexivity) c) as Hall.
  cbv beta in Hall. rewrite Hc in Hall. apply negb_true_iff, Hall.
Qed.

(** ** The two handlers side by side *)

Lemma forwardHeaders_plain_eq (h : Header) :
  forwardHeaders false h = forwardHeaders_plain h.
Proof.
  unfold forwardHeaders, forwardHeaders_plain.
  apply foldl_ext_eq. intros out [key vs]. cbn [fst snd andb].
  destruct (bytes_eqb (ToLower key) (bs "host")); reflexivity.
Qed.

Lemma copyHeaders_plain_eq (h : Header) :
  copyHeaders false h = copyHeaders_plain h.
Proof. reflexivity. Qed.

(** X20.  Without the browse parameter the handler does what the plain
    handler does, on every request whose address has none of the four
    characters in which the two alphabets differ. *)
Theorem handlers_agree_without_browse (r : Request) :
  browseEnabled r = false ->
  existsb isDashOrUnderscore (encodedTarget r) = false ->
  existsb isPlusOrSlash (encodedTarget r) = false ->
  proxyHandler r = proxyHandler_plain r.
Proof.
  intros Hb H1 H2. unfold proxyHandler, proxyHandler_plain, upstreamRequest, respond.
  fold (encodedTarget r). rewrite Hb. unfold base64.DecodeString.
  rewrite (decode_agree _ H1 H2), forwardHeaders_plain_eq.
  cbn [andb]. reflexivity.
Qed.

(** ** What the client gets *)

(** X21.  The two branches that report a failure of the CSS rewriter and of
    the JavaScript rewriter are never taken: these rewriters always
    return a result. *)
Theorem css_and_js_rewrite_errors_unreachable (r : Request) :
  (forall code, proxyHandler r <> HttpError (bs "Error rewriting CSS: ") code)
  /\ (forall code, proxyHandler r <> HttpError (bs "Error rewriting JavaScript: ") code).
Proof.
  split; intros code; unfold proxyHandler, respond, rewriteCSS, rewriteJS;
    repeat match goal with
           | |- context [match ?x with _ => _ end] => destruct x
           end; discriminate.
Qed.

(** X22.  The body of every answer that is not an error of the handler's
    own.  Under pass-through it is what the upstream body delivered,
    complete or not.  Under a rewrite strategy the upstream body was
    read to its end without error and the body is the output of the
    rewriter on all of it, with the parsed target as the base and the
    origin of the proxy: a rewritten body is never cut short. *)
Theorem handler_body (r : Request) (hdr : Header) (status : Z) (body : list ascii) :
  proxyHandler r = Written hdr status body ->
  exists u p resp,
    targetOf r u p
    /\ client_Do (upstreamRequest r u) = Some resp
    /\ ((strategyFor r resp = PassThrough /\ body = delivered (Body resp))
        \/ (strategyFor r resp <> PassThrough
            /\ broken (Body resp) = false
            /\ rewriterOf (strategyFor r resp) (delivered (Body resp)) p (proxyOrigin r)
               = Some body)).
Proof.
  intros H.
  destruct (targetInvalid_or_valid r) as [Hinv | (u & p & Ht)].
  { destruct (proxyHandler_invalid r Hinv) as [msg H']. congruence. }
  exists u, p. rewrite (proxyHandler_valid r u p Ht) in H.
  destruct (negb _); [discriminate |].
  destruct (client_Do (upstreamRequest r u)) as [resp |]; [| discriminate].
  exists resp. split; [exact Ht |]. split; [reflexivity |].
  destruct (strategyFor r resp) eqn:Hst; [left; split; [reflexivity |] | right ..].
  - cbn [respond_by] in H. congruence.
  - split; [discriminate |]. rewrite respond_by_rewriter in H by discriminate.
    unfold io_ReadAll in H. destruct (broken (Body resp)); [discriminate |].
    split; [reflexivity |].
    destruct (rewriterOf _ _ _ _) as [out |]; [| discriminate]. congruence.
  - split; [discriminate |]. rewrite respond_by_rewriter in H by discriminate.
    unfold io_ReadAll in H. destruct (broken (Body resp)); [discriminate |].
    split; [reflexivity |].
    destruct (rewriterOf _ _ _ _) as [out |]; [| discriminate]. congruence.
  - split; [discriminate |]. rewrite respond_by_rewriter in H by discriminate.
    unfold io_ReadAll in H. destruct (broken (Body resp)); [discriminate |].
    split; [reflexivity |].
    destruct (rewriterOf _ _ _ _) as [out |]; [| discriminate]. congruence.
Qed.

(** X23.  A response without a Content-Type header, with a status of
    three digits, which [w.WriteHeader] takes, is relayed as it is,
    browsing or not. *)
Theorem no_content_type_passes_through (r : Request) (u : list ascii) (p : URL)
        (resp : Response) :
  targetOf r u p ->
  http_NewRequest (Method r) u = true ->
  client_Do (upstreamRequest r u) = Some resp ->
  checkWriteHeaderCode (StatusCode resp) = true ->
  RespHeader resp !! bs "Content-Type" = None ->
  proxyHandler r
  = Written (copyHeaders (browseEnabled r) (RespHeader resp))
            (StatusCode resp) (delivered (Body resp)).
Proof.
  intros Ht Hnew Hdo _ Hct.
  rewrite (proxyHandler_valid r u p Ht), Hnew, Hdo. cbn [negb].
  unfold strategyFor, Header_Get.
  change (CanonicalMIMEHeaderKey (bs "Content-Type")) with (bs "Content-Type").
  rewrite Hct. unfold classify. cbn [HasPrefix list_ascii_of_string].
  rewrite !andb_false_r. reflexivity.
Qed.

(** ** The plain handler *)

Lemma copyHeaders_plain_id (h : Header) :
  canonicalHeader h -> copyHeaders_plain h = h.
Proof.
  intros Hwf. apply map_eq. intros k.
  exact (copyExcept_range (fun _ => false) h Hwf k).
Qed.

Lemma targetInvalid_plain_or_valid (r : Request) :
  targetInvalid_plain r \/ exists u p, targetOf_plain r u p.
Proof.
  unfold targetInvalid_plain, targetOf_plain.
  destruct (encodedTarget r) as [| c e] eqn:He; [left; left; reflexivity |].
  destruct (base64.DecodeString base64.StdEncoding (c :: e)) as [u |] eqn:Hd;
    [| left; right; left; reflexivity].
  destruct (url_Parse u) as [p |] eqn:Hp;
    [| left; right; right; left; exists u; split; [reflexivity | exact Hp]].
  destruct (URL_Scheme p) as [| c1 s1] eqn:Hs;
    [left; right; right; right; exists u, p; repeat split; auto |].
  destruct (URL_Host p) as [| c2 s2] eqn:Hh;
    [left; right; right; right; exists u, p; repeat split; auto |].
  right. exists u, p. rewrite Hs, Hh. repeat split; congruence.
Qed.

Lemma targetOf_plain_not_invalid (r : Request) u p :
  targetOf_plain r u p -> ~ targetInvalid_plain r.
Proof.
  intros (He & Hd & Hp & Hs & Hh) [H | [H | [(u' & H1 & H2) | (u' & p' & H1 & H2 & H3)]]].
  - contradiction.
  - congruence.
  - congruence.
  - rewrite Hd in H1. injection H1 as <-. rewrite Hp in H2. injection H2 as <-.
    destruct H3; contradiction.
Qed.

Lemma proxyHandler_plain_invalid (r : Request) :
  targetInvalid_plain r ->
  exists msg, proxyHandler_plain r = HttpError msg StatusBadRequest.
Proof.
  unfold targetInvalid_plain, encodedTarget, proxyHandler_plain.
  intros [H | [H | [(u & H1 & H2) | (u & p & H1 & H2 & H3)]]].
  - rewrite H. eexists. reflexivity.
  - destruct (bytes_eqb _ []); [eexists; reflexivity |].
    rewrite H. eexists. reflexivity.
  - destruct (bytes_eqb _ []); [eexists; reflexivity |].
    rewrite H1, H2. eexists. reflexivity.
  - destruct (bytes_eqb _ []); [eexists; reflexivity |].
    rewrite H1, H2.
    destruct H3 as [-> | ->]; cbn [bytes_eqb orb]; rewrite ?orb_true_r;
      eexists; reflexivity.
Qed.

Lemma proxyHandler_plain_valid (r : Request) u p :
  targetOf_plain r u p ->
  proxyHandler_plain r
  = if negb (http_NewRequest (Method r) u) then
      HttpError (bs "Failed to create upstream request: ") StatusInternalServerError
    else
      match client_Do (upstreamRequest_plain r u) with
      | None => HttpError (bs "Upstream request failed: ") StatusInternalServerError
      | Some resp =>
          Written (copyHeaders_plain (RespHeader resp))
                  (StatusCode resp) (delivered (Body resp))
      end.
Proof.
  intros (He & Hd & Hp & Hs & Hh). unfold proxyHandler_plain, encodedTarget in *.
  apply bytes_eqb_nil in He, Hs, Hh. rewrite He, Hd, Hp, Hs, Hh. reflexivity.
Qed.

(** X24.  The status codes of the plain handler.  It answers with its own
    400 exactly when the encoded target is missing, does not decode in
    the standard alphabet, or decodes to a URL that does not parse or
    has an empty scheme or host; with its own 500 exactly when the
    target is valid and building the upstream request or the upstream
    transport fails.  Once the upstream has answered it reports no
    error, and when the status of the upstream response is of three
    digits, which [w.WriteHeader] takes, it writes that status and the
    bytes the body delivered. *)
Theorem plain_handler_status_codes (r : Request) :
  ((exists msg, proxyHandler_plain r = HttpError msg StatusBadRequest)
   <-> targetInvalid_plain r)
  /\ ((exists msg, proxyHandler_plain r = HttpError msg StatusInternalServerError)
      <-> exists u p,
            targetOf_plain r u p
            /\ (http_NewRequest (Method r) u = false
                \/ client_Do (upstreamRequest_plain r u) = None))
  /\ (forall msg code, proxyHandler_plain r = HttpError msg code ->
        (code = StatusBadRequest \/ code = StatusInternalServerError)
        /\ forall u p, targetOf_plain r u p ->
             http_NewRequest (Method r) u = true ->
             client_Do (upstreamRequest_plain r u) = None)
  /\ (forall u p resp,
        targetOf_plain r u p ->
        http_NewRequest (Method r) u = true ->
        client_Do (upstreamRequest_plain r u) = Some resp ->
        checkWriteHeaderCode (StatusCode resp) = true ->
        proxyHandler_plain r
        = Written (copyHeaders_plain (RespHeader resp))
                  (StatusCode resp) (delivered (Body resp))).
Proof.
  split; [| split; [| split]].
  - split; [| apply proxyHandler_plain_invalid].
    intros [msg H].
    destruct (targetInvalid_plain_or_valid r) as [Hinv | (u & p & Ht)]; [exact Hinv |].
    rewrite (proxyHandler_plain_valid r u p Ht) in H.
    destruct (negb _); [discriminate |].
    destruct (client_Do _); discriminate.
  - split.
    + intros [msg H].
      destruct (targetInvalid_plain_or_valid r) as [Hinv | (u & p & Ht)].
      { destruct (proxyHandler_plain_invalid r Hinv) as [m H']. rewrite H in H'. discriminate. }
      exists u, p. split; [exact Ht |].
      rewrite (proxyHandler_plain_valid r u p Ht) in H.
      destruct (http_NewRequest (Method r) u); [right | left; reflexivity].
      cbn [negb] in H. destruct (client_Do _); [discriminate | reflexivity].
    + intros (u & p & Ht & Hf). rewrite (proxyHandler_plain_valid r u p Ht).
      destruct Hf as [-> | Hf]; [eexists; reflexivity |].
      destruct (negb _); [eexists; reflexivity |]. rewrite Hf. eexists. reflexivity.
  - intros msg code H. split.
    + destruct (targetInvalid_plain_or_valid r) as [Hinv | (u & p & Ht)].
      { destruct (proxyHandler_plain_invalid r Hinv) as [m H'].
        rewrite H in H'. injection H' as _ ->. left. reflexivity. }
      rewrite (proxyHandler_plain_valid r u p Ht) in H.
      destruct (negb _); [injection H as _ <-; right; reflexivity |].
      destruct (client_Do _); [discriminate | injection H as _ <-; right; reflexivity].
    + intros u p Ht Hnew.
      rewrite (proxyHandler_plain_valid r u p Ht), Hnew in H. cbn [negb] in H.
      destruct (client_Do _); [discriminate | reflexivity].
  - intros u p resp Ht Hnew Hdo _.
    rewrite (proxyHandler_plain_valid r u p Ht), Hnew, Hdo. reflexivity.
Qed.

(** X25.  With headers as the server and the client hand them over, the
    plain handler sends every header of the request upstream except
    Host, and relays the upstream response whole: all its headers,
    Content-Length included, its status, and the bytes its body
    delivered. *)
Theorem plain_handler_relays_response (r : Request) :
  canonicalHeader (ReqHeader r) ->
  (forall req resp, client_Do req = Some resp -> canonicalHeader (RespHeader resp)) ->
  (forall u k,
     oHeader (upstreamRequest_plain r u) !! k
     = if bytes_eqb (ToLower k) (bs "host") then None else ReqHeader r !! k)
  /\ (forall hdr status body,
        proxyHandler_plain r = Written hdr status body ->
        exists u p resp,
          targetOf_plain r u p
          /\ client_Do (upstreamRequest_plain r u) = Some resp
          /\ hdr = RespHeader resp
          /\ status = StatusCode resp
          /\ body = delivered (Body resp)).
Proof.
  intros Hreq Hresp. split.
  - intros u k. cbn [upstreamRequest_plain oHeader].
    exact (copyExcept_range (fun key => bytes_eqb (ToLower key) (bs "host")) _ Hreq k).
  - intros hdr status body H.
    destruct (targetInvalid_plain_or_valid r) as [Hinv | (u & p & Ht)].
    { destruct (proxyHandler_plain_invalid r Hinv) as [m H']. rewrite H in H'. discriminate. }
    exists u, p. rewrite (proxyHandler_plain_valid r u p Ht) in H.
    destruct (negb _); [discriminate |].
    destruct (client_Do (upstreamRequest_plain r u)) as [resp |] eqn:Hdo; [| discriminate].
    exists resp. injection H as <- <- <-.
    rewrite (copyHeaders_plain_id _ (Hresp _ _ Hdo)). auto.
Qed.

(* ================================================================== *)
(** * The passes over [url(...)] and over absolute literals *)
(* ================================================================== *)

(** ** The pass over [url(...)], construct by construct *)

(** The pass at a construct that the scan reaches. *)
Lemma cssUrlPass_construct (base : URL) (origin pre ws1 qs v qs' ws2 post : list ascii) :
  unmatched urlRegex pre ((bs "url(" ++ ws1 ++ qs ++ v ++ qs' ++ ws2 ++ bs ")") ++ post) ->
  Forall (fun x => isSpace x = true) ws1 ->
  quoteOrNone qs -> quoteOrNone qs' ->
  v <> [] -> Forall (fun x => notQuoteParen x = true) v ->
  (qs = [] -> stops isSpace v) ->
  Forall (fun x => isSpace x = true) ws2 ->
  (qs' = [] -> ws2 = []) ->
  cssUrlPass base origin
    (pre ++ (bs "url(" ++ ws1 ++ qs ++ v ++ qs' ++ ws2 ++ bs ")") ++ post)
  = pre
    ++ match URL_Parse base v with
       | Some resolved =>
           bs "url(" ++ qs ++ origin ++ bs "/" ++ encoded resolved
             ++ bs "?browse=1" ++ qs ++ bs ")"
       | None => bs "url(" ++ ws1 ++ qs ++ v ++ qs' ++ ws2 ++ bs ")"
       end
    ++ cssUrlPass base origin post.
Proof.
  intros Hpre Hws1 Hqs Hqs' Hv Hcls Hsp Hws2 Hnone.
  pose proof (urlRegex_spaced ws1 qs v qs' ws2 post Hws1 Hqs Hqs' Hv Hcls Hsp Hws2 Hnone)
    as Hm.
  cbv zeta in Hm. unfold cssUrlPass.
  rewrite (ReplaceAll_at _ _ _ _ _ _ minLen_urlRegex Hpre Hm).
  f_equal. f_equal. unfold cssUrlRepl.
  rewrite (FindStringSubmatch_match _ _ _ _ _ Hm).
  cbn [length Nat.ltb Nat.leb nth]. reflexivity.
Qed.

(** The whole rewriter on a style sheet with one construct and no
    other parenthesis or at sign. *)
Lemma rewriteCSS_one_construct (base : URL) (origin pre ws1 qs v qs' ws2 post : list ascii)
      (resolved : URL) :
  Forall (fun x => byte_eqb x "@" = false) origin ->
  Forall (fun x => byte_eqb x "(" = false) pre ->
  Forall (fun x => byte_eqb x "@" = false) pre ->
  Forall (fun x => byte_eqb x "(" = false) post ->
  Forall (fun x => byte_eqb x "@" = false) post ->
  Forall (fun x => isSpace x = true) ws1 ->
  quoteOrNone qs -> quoteOrNone qs' ->
  v <> [] -> Forall (fun x => notQuoteParen x = true) v ->
  (qs = [] -> stops isSpace v) ->
  Forall (fun x => isSpace x = true) ws2 ->
  (qs' = [] -> ws2 = []) ->
  URL_Parse base v = Some resolved ->
  rewriteCSS (pre ++ bs "url(" ++ ws1 ++ qs ++ v ++ qs' ++ ws2 ++ bs ")" ++ post)
             base origin
  = Some (pre ++ bs "url(" ++ qs
            ++ (origin ++ bs "/" ++ encoded resolved ++ bs "?browse=1")
            ++ qs ++ bs ")" ++ post).
Proof.
  intros Horigin Hpre1 Hpre2 Hpost1 Hpost2 Hws1 Hqs Hqs' Hv Hcls Hsp Hws2 Hnone Hres.
  unfold rewriteCSS. f_equal.
  assert (Hun : unmatched urlRegex pre
                  ((bs "url(" ++ ws1 ++ qs ++ v ++ qs' ++ ws2 ++ bs ")") ++ post)).
  { exact (unmatched_before_keyword urlRegex (fun x => byte_eqb x "(") (bs "url") "("
             urlRegex_keyword ltac:(repeat constructor) eq_refl pre _ Hpre1). }
  replace (pre ++ bs "url(" ++ ws1 ++ qs ++ v ++ qs' ++ ws2 ++ bs ")" ++ post)
    with (pre ++ (bs "url(" ++ ws1 ++ qs ++ v ++ qs' ++ ws2 ++ bs ")") ++ post)
    by (rewrite <- !app_assoc; reflexivity).
  rewrite (cssUrlPass_construct base origin pre ws1 qs v qs' ws2 post
             Hun Hws1 Hqs Hqs' Hv Hcls Hsp Hws2 Hnone), Hres.
  unfold cssUrlPass at 1.
  rewrite (ReplaceAll_no_match urlRegex)
    by (apply (find_none_without _ _ urlRegex_has_paren), Hpost1).
  replace (pre ++ (bs "url(" ++ qs ++ origin ++ bs "/" ++ encoded resolved
                     ++ bs "?browse=1" ++ qs ++ bs ")") ++ post)
    with (pre ++ bs "url(" ++ qs
            ++ (origin ++ bs "/" ++ encoded resolved ++ bs "?browse=1")
            ++ qs ++ bs ")" ++ post)
    by (rewrite <- !app_assoc; reflexivity).
  unfold cssImportPass. apply ReplaceAll_no_match.
  apply (find_none_without _ _ importRegex_has_at).
  destruct (quote_no_at qs Hqs) as [Hq _].
  pose proof (safe_no_at _ (Encode_URL_safe (URL_String resolved))) as He.
  repeat (apply Forall_app; split); auto; repeat constructor.
Qed.

(** A style sheet with one [url(] whose value has a quote inside,
    and no other opening parenthesis or at sign, comes back as it
    is. *)
Lemma rewriteCSS_inner_quote (base : URL) (origin pre ws1 v1 ws tail : list ascii)
      (q q2 x : ascii) :
  Forall (fun a => byte_eqb a "(" = false) pre ->
  Forall (fun a => byte_eqb a "@" = false) pre ->
  Forall (fun a => isSpace a = true) ws1 -> isQuote q = true ->
  Forall (fun a => notQuoteParen a = true) v1 ->
  Forall (fun a => byte_eqb a "(" = false) v1 ->
  Forall (fun a => byte_eqb a "@" = false) v1 ->
  isQuote q2 = true ->
  Forall (fun a => isSpace a = true) ws ->
  isSpace x = false -> byte_eqb x ")" = false ->
  Forall (fun a => byte_eqb a "(" = false) (x :: tail) ->
  Forall (fun a => byte_eqb a "@" = false) (x :: tail) ->
  rewriteCSS (pre ++ bs "url(" ++ ws1 ++ [q] ++ v1 ++ [q2] ++ ws ++ x :: tail)
             base origin
  = Some (pre ++ bs "url(" ++ ws1 ++ [q] ++ v1 ++ [q2] ++ ws ++ x :: tail).
Proof.
  intros Hpre1 Hpre2 Hws1 Hq Hv1 Hv1' Hv1'' Hq2 Hws Hx1 Hx2 Htail1 Htail2.
  unfold rewriteCSS. f_equal. unfold cssUrlPass.
  rewrite (ReplaceAll_no_match urlRegex)
    by (apply find_url_inner_quote; assumption).
  unfold cssImportPass. apply ReplaceAll_no_match.
  apply (find_none_without _ _ importRegex_has_at).
  apply Forall_app; split; [exact Hpre2 |].
  apply Forall_app; split; [repeat constructor |].
  apply Forall_app; split; [apply space_no_at, Hws1 |].
  apply Forall_app; split; [repeat constructor; apply isQuote_no_at, Hq |].
  apply Forall_app; split; [exact Hv1'' |].
  apply Forall_app; split; [repeat constructor; apply isQuote_no_at, Hq2 |].
  apply Forall_app; split; [apply space_no_at, Hws | exact Htail2].
Qed.

(** C8, as amended.  The CSS rewriter is the pass over [@import]
    applied to the pass over [url(...)].  The pass over [url(...)]
    leaves a text without a match as it is; otherwise the leftmost
    match is the text url, an opening parenthesis, white space, an
    optional quote [q], a value [v] of one or more characters other
    than a quote or a closing parenthesis, an optional quote, white
    space and a closing parenthesis, and the pass puts in its place,
    if [v] resolves against the base, url, parenthesis, [q], the
    origin, a slash, the encoding of the resolved URL, the browse
    query, [q] again, parenthesis, and the match itself if [v] does
    not resolve, and goes on after it.  A construct of that form,
    quoted or not, with or without white space, met by the scan after
    a text in which no match starts, is such a match with the value
    [v]; without an opening quote the value does not start with white
    space, and without a closing quote it goes on to the parenthesis.
    On a style sheet with one such construct whose value resolves and
    no other opening parenthesis or at sign, the rewriter returns the
    sheet with the link in the place of the construct, in the quoting
    of the opening quote.  White space between an unquoted value and
    the parenthesis belongs to the value, so that the link is that of
    the value with its white space.  A [url(] followed by a quote, a
    text, a second quote and then something other than white space and
    the parenthesis, as when the value has a quote inside, starts no
    match, and a style sheet with no other opening parenthesis and no
    at sign comes back as it is. *)
Theorem css_url_construct_rewritten (base : URL) (origin : list ascii) :
  (forall content,
     rewriteCSS content base origin
     = Some (cssImportPass base origin (cssUrlPass base origin content)))
  /\ (forall text,
        find urlRegex text = None -> cssUrlPass base origin text = text)
  /\ (forall text pre m sub rest,
        find urlRegex text = Some (pre, m, sub, rest) ->
        exists ws1 q v q' ws2,
          m = bs "url(" ++ ws1 ++ q ++ v ++ q' ++ ws2 ++ bs ")"
          /\ Forall (fun x => isSpace x = true) ws1
          /\ quoteOrNone q
          /\ v <> [] /\ Forall (fun x => notQuoteParen x = true) v
          /\ quoteOrNone q'
          /\ Forall (fun x => isSpace x = true) ws2
          /\ cssUrlPass base origin text
             = pre
               ++ match URL_Parse base v with
                  | Some resolved =>
                      bs "url(" ++ q ++ origin ++ bs "/" ++ encoded resolved
                        ++ bs "?browse=1" ++ q ++ bs ")"
                  | None => m
                  end
               ++ cssUrlPass base origin rest)
  /\ (forall pre ws1 qs v qs' ws2 post,
        unmatched urlRegex pre
                  ((bs "url(" ++ ws1 ++ qs ++ v ++ qs' ++ ws2 ++ bs ")") ++ post) ->
        Forall (fun x => isSpace x = true) ws1 ->
        quoteOrNone qs -> quoteOrNone qs' ->
        v <> [] -> Forall (fun x => notQuoteParen x = true) v ->
        (qs = [] -> stops isSpace v) ->
        Forall (fun x => isSpace x = true) ws2 ->
        (qs' = [] -> ws2 = []) ->
        cssUrlPass base origin
          (pre ++ (bs "url(" ++ ws1 ++ qs ++ v ++ qs' ++ ws2 ++ bs ")") ++ post)
        = pre
          ++ match URL_Parse base v with
             | Some resolved =>
                 bs "url(" ++ qs ++ origin ++ bs "/" ++ encoded resolved
                   ++ bs "?browse=1" ++ qs ++ bs ")"
             | None => bs "url(" ++ ws1 ++ qs ++ v ++ qs' ++ ws2 ++ bs ")"
             end
          ++ cssUrlPass base origin post)
  /\ (forall pre ws1 qs v qs' ws2 post resolved,
        Forall (fun x => byte_eqb x "@" = false) origin ->
        Forall (fun x => byte_eqb x "(" = false) pre ->
        Forall (fun x => byte_eqb x "@" = false) pre ->
        Forall (fun x => byte_eqb x "(" = false) post ->
        Forall (fun x => byte_eqb x "@" = false) post ->
        Forall (fun x => isSpace x = true) ws1 ->
        quoteOrNone qs -> quoteOrNone qs' ->
        v <> [] -> Forall (fun x => notQuoteParen x = true) v ->
        (qs = [] -> stops isSpace v) ->
        Forall (fun x => isSpace x = true) ws2 ->
        (qs' = [] -> ws2 = []) ->
        URL_Parse base v = Some resolved ->
        rewriteCSS (pre ++ bs "url(" ++ ws1 ++ qs ++ v ++ qs' ++ ws2 ++ bs ")" ++ post)
                   base origin
        = Some (pre ++ bs "url(" ++ qs
                  ++ (origin ++ bs "/" ++ encoded resolved ++ bs "?browse=1")
                  ++ qs ++ bs ")" ++ post))
  /\ (forall pre v ws post resolved,
        Forall (fun x => byte_eqb x "@" = false) origin ->
        Forall (fun x => byte_eqb x "(" = false) pre ->
        Forall (fun x => byte_eqb x "@" = false) pre ->
        Forall (fun x => byte_eqb x "(" = false) post ->
        Forall (fun x => byte_eqb x "@" = false) post ->
        v <> [] -> Forall (fun x => notQuoteParen x = true) v ->
        stops isSpace v ->
        Forall (fun x => isSpace x = true) ws ->
        URL_Parse base (v ++ ws) = Some resolved ->
        rewriteCSS (pre ++ bs "url(" ++ v ++ ws ++ bs ")" ++ post) base origin
        = Some (pre ++ bs "url("
                  ++ (origin ++ bs "/" ++ encoded resolved ++ bs "?browse=1")
                  ++ bs ")" ++ post))
  /\ (forall ws1 q v1 q2 ws x tail,
        Forall (fun a => isSpace a = true) ws1 -> isQuote q = true ->
        Forall (fun a => notQuoteParen a = true) v1 -> isQuote q2 = true ->
        Forall (fun a => isSpace a = true) ws ->
        isSpace x = false -> byte_eqb x ")" = false ->
        match_at urlRegex (bs "url(" ++ ws1 ++ [q] ++ v1 ++ [q2] ++ ws ++ x :: tail)
        = None)
  /\ (forall pre ws1 q v1 q2 ws x tail,
        Forall (fun a => byte_eqb a "(" = false) pre ->
        Forall (fun a => byte_eqb a "@" = false) pre ->
        Forall (fun a => isSpace a = true) ws1 -> isQuote q = true ->
        Forall (fun a => notQuoteParen a = true) v1 ->
        Forall (fun a => byte_eqb a "(" = false) v1 ->
        Forall (fun a => byte_eqb a "@" = false) v1 ->
        isQuote q2 = true ->
        Forall (fun a => isSpace a = true) ws ->
        isSpace x = false -> byte_eqb x ")" = false ->
        Forall (fun a => byte_eqb a "(" = false) (x :: tail) ->
        Forall (fun a => byte_eqb a "@" = false) (x :: tail) ->
        rewriteCSS (pre ++ bs "url(" ++ ws1 ++ [q] ++ v1 ++ [q2] ++ ws ++ x :: tail)
                   base origin
        = Some (pre ++ bs "url(" ++ ws1 ++ [q] ++ v1 ++ [q2] ++ ws ++ x :: tail)).
Proof.
  split; [intros content; reflexivity |].
  split; [intros text H; apply ReplaceAll_no_match, H |].
  split; [intros text pre m sub rest H; exact (cssUrlPass_step base origin _ _ _ _ _ H) |].
  split; [intros *; apply cssUrlPass_construct |].
  split; [intros *; apply rewriteCSS_one_construct |].
  split; [| split; [intros *; apply urlRegex_inner_quote
                      | intros *; apply rewriteCSS_inner_quote]].
  intros pre v ws post resolved Horigin Hpre1 Hpre2 Hpost1 Hpost2 Hv Hcls Hsp Hws Hres.
  pose proof (rewriteCSS_one_construct base origin pre [] [] (v ++ ws) [] [] post resolved
                Horigin Hpre1 Hpre2 Hpost1 Hpost2 (List.Forall_nil _)
                (or_introl eq_refl) (or_introl eq_refl)) as H.
  cbn [app] in H. rewrite <- app_assoc in H. apply H.
  - intros E. apply app_eq_nil in E as [E _]. contradiction.
  - apply Forall_app. split; [exact Hcls | apply space_notQuoteParen, Hws].
  - intros _. destruct v; [contradiction | exact Hsp].
  - constructor.
  - reflexivity.
  - exact Hres.
Qed.

(** ** The pass over absolute literals, literal by literal *)

Lemma jsAbsPass_literal (base : URL) (origin pre d post scheme : list ascii) (q q' : ascii) :
  unmatched absRegex pre (([q] ++ (scheme ++ d) ++ [q']) ++ post) ->
  isQuote q = true -> isQuote q' = true ->
  scheme = bs "http://" \/ scheme = bs "https://" ->
  d <> [] -> Forall (fun x => notQuote x = true) d ->
  jsAbsPass base origin (pre ++ ([q] ++ (scheme ++ d) ++ [q']) ++ post)
  = pre
    ++ match URL_Parse base (scheme ++ d) with
       | Some resolved =>
           [q] ++ origin ++ bs "/" ++ encoded resolved ++ bs "?browse=1" ++ [q']
       | None => [q] ++ (scheme ++ d) ++ [q']
       end
    ++ jsAbsPass base origin post.
Proof.
  intros Hpre Hq Hq' Hs Hd Hcls.
  pose proof (absRegex_literal q q' scheme d post Hq Hq' Hs Hd Hcls) as Hm.
  cbv zeta in Hm. unfold jsAbsPass.
  rewrite (ReplaceAll_at _ _ _ _ _ _ minLen_absRegex Hpre Hm).
  f_equal. f_equal. unfold jsAbsRepl.
  rewrite (FindStringSubmatch_match _ _ _ _ _ Hm).
  cbn [length Nat.ltb Nat.leb nth]. reflexivity.
Qed.

Lemma jsAbsPass_bare_scheme (base : URL) (origin pre scheme post : list ascii) (q q' : ascii) :
  Forall (fun x => notQuote x = true) pre ->
  scheme = bs "http://" \/ scheme = bs "https://" -> isQuote q' = true ->
  jsAbsPass base origin (pre ++ [q] ++ scheme ++ [q'] ++ post)
  = pre ++ [q] ++ scheme ++ jsAbsPass base origin ([q'] ++ post).
Proof.
  intros Hpre Hs Hq'. unfold jsAbsPass, ReplaceAllStringFunc.
  pose proof (replaceAll_unmatched absRegex (jsAbsRepl base origin) _ _
                (unmatched_abs_bare_scheme pre scheme post q q' Hpre Hs Hq')) as H.
  rewrite <- !app_assoc in H. exact H.
Qed.

Lemma jsAbsPass_closing_quote (base : URL) (origin post : list ascii) (q' : ascii) :
  Forall (fun x => notQuote x = true) post ->
  jsAbsPass base origin ([q'] ++ post) = [q'] ++ post.
Proof.
  intros Hpost. apply ReplaceAll_no_match. cbn [app find].
  rewrite absRegex_needs_closing_quote by exact Hpost.
  rewrite (find_none_without _ _ absRegex_has_quote) by (apply notQuote_false, Hpost).
  reflexivity.
Qed.

(** C9, as amended.  The JavaScript rewriter starts with the pass
    [jsAbsPass].  The pass leaves a text without a match as it is;
    otherwise the leftmost match is a quote, http:// or https://
    followed by at least one character other than a quote, and a
    quote, and the pass puts in its place the proxied link between the
    same two quotes if that content resolves against the base, and the
    match itself if it does not, and goes on after it.  A quoted
    literal of that form, met by the scan after a text in which no
    match starts, as is a text without quotes, is such a match.  A
    literal whose content is http:// or https:// and nothing more,
    after a text without quotes, is no match; the scan goes on at its
    closing quote, and in a text without other quotes the literal
    stays as it is.  A quoted literal whose content starts with
    neither scheme, in a text without other quotes, is not touched by
    the pass. *)
Theorem js_absolute_literal_pass (base : URL) (origin : list ascii) :
  (forall content,
     rewriteJS content base origin
     = Some (jsUrlFuncPass origin
               (jsStaticImportPass base origin
                  (jsRelImportPass base origin (jsAbsPass base origin content)))))
  /\ (forall text,
        find absRegex text = None -> jsAbsPass base origin text = text)
  /\ (forall text pre m sub rest,
        find absRegex text = Some (pre, m, sub, rest) ->
        exists q scheme d q',
          m = q ++ (scheme ++ d) ++ q'
          /\ (q = [dquote] \/ q = [squote])
          /\ (scheme = bs "http://" \/ scheme = bs "https://")
          /\ d <> [] /\ Forall (fun x => notQuote x = true) d
          /\ (q' = [dquote] \/ q' = [squote])
          /\ jsAbsPass base origin text
             = pre
               ++ match URL_Parse base (scheme ++ d) with
                  | Some resolved =>
                      q ++ origin ++ bs "/" ++ encoded resolved ++ bs "?browse=1" ++ q'
                  | None => m
                  end
               ++ jsAbsPass base origin rest)
  /\ (forall pre q scheme d q' post,
        unmatched absRegex pre (([q] ++ (scheme ++ d) ++ [q']) ++ post) ->
        isQuote q = true -> isQuote q' = true ->
        scheme = bs "http://" \/ scheme = bs "https://" ->
        d <> [] -> Forall (fun x => notQuote x = true) d ->
        jsAbsPass base origin (pre ++ ([q] ++ (scheme ++ d) ++ [q']) ++ post)
        = pre
          ++ match URL_Parse base (scheme ++ d) with
             | Some resolved =>
                 [q] ++ origin ++ bs "/" ++ encoded resolved ++ bs "?browse=1" ++ [q']
             | None => [q] ++ (scheme ++ d) ++ [q']
             end
          ++ jsAbsPass base origin post)
  /\ (forall pre tail,
        Forall (fun x => notQuote x = true) pre -> unmatched absRegex pre tail)
  /\ (forall pre q scheme q' post,
        Forall (fun x => notQuote x = true) pre ->
        scheme = bs "http://" \/ scheme = bs "https://" ->
        isQuote q' = true ->
        jsAbsPass base origin (pre ++ [q] ++ scheme ++ [q'] ++ post)
        = pre ++ [q] ++ scheme ++ jsAbsPass base origin ([q'] ++ post))
  /\ (forall pre q scheme q' post,
        Forall (fun x => notQuote x = true) pre ->
        scheme = bs "http://" \/ scheme = bs "https://" ->
        isQuote q' = true ->
        Forall (fun x => notQuote x = true) post ->
        jsAbsPass base origin (pre ++ [q] ++ scheme ++ [q'] ++ post)
        = pre ++ [q] ++ scheme ++ [q'] ++ post)
  /\ (forall pre q c q' post,
        Forall (fun x => notQuote x = true) pre ->
        Forall (fun x => notQuote x = true) c ->
        HasPrefix c (bs "http://") = false ->
        HasPrefix c (bs "https://") = false ->
        isQuote q' = true ->
        Forall (fun x => notQuote x = true) post ->
        jsAbsPass base origin (pre ++ [q] ++ c ++ [q'] ++ post)
        = pre ++ [q] ++ c ++ [q'] ++ post).
Proof.
  split; [intros content; reflexivity |].
  split; [intros text H; apply ReplaceAll_no_match, H |].
  split; [intros text pre m sub rest H; exact (jsAbsPass_step base origin _ _ _ _ _ H) |].
  split; [intros *; apply jsAbsPass_literal |].
  split; [intros pre tail H; apply unmatched_abs_nonquote, H |].
  split; [intros *; apply jsAbsPass_bare_scheme |].
  split.
  - intros pre q scheme q' post Hpre Hs Hq' Hpost.
    rewrite (jsAbsPass_bare_scheme base origin pre scheme post q q' Hpre Hs Hq').
    rewrite (jsAbsPass_closing_quote base origin post q' Hpost). reflexivity.
  - intros pre q c q' post Hpre Hc H1 H2 Hq' Hpost.
    unfold jsAbsPass. apply ReplaceAll_no_match, find_abs_no_scheme; assumption.
Qed.

End ProxyFacts.

(* ================================================================== *)
(** * The statements at work

    The program runs on the stand-ins of [Sample]: the proxy is reached
    at http://proxy.test and the page comes from
    https://example.org/a/b. *)
(* ================================================================== *)

Abbreviation sample_cssUrlPass :=
  (@cssUrlPass (sampleEnv None) Sample.base Sample.origin).
Abbreviation sample_rewriteCSS content :=
  (@rewriteCSS (sampleEnv None) content Sample.base Sample.origin).
Abbreviation sample_jsAbsPass :=
  (@jsAbsPass (sampleEnv None) Sample.base Sample.origin).
Abbreviation sample_rewriteJS content :=
  (@rewriteJS (sampleEnv None) content Sample.base Sample.origin).
Abbreviation sample_traverse :=
  (@traverse (sampleEnv None) Sample.base Sample.origin).

(** ** CSS *)

(** An unresolvable value stays as it is and the pass goes on. *)
Lemma css_unresolvable_reference_kept_witness :
  sample_cssUrlPass (bs "a{background:url(%zz)} b{background:url( '/y.png' )}")
  = bs "a{background:" ++ bs "url(%zz)"
    ++ sample_cssUrlPass (bs "} b{background:url( '/y.png' )}").
Proof.
  apply (proj1 (proj2 (css_unresolvable_reference_kept
                         (env := sampleEnv None) Sample.base Sample.origin))
           (bs "a{background:url(%zz)} b{background:url( '/y.png' )}")
           (bs "a{background:") (bs "url(%zz)")
           [bs "url(%zz)"; []; bs "%zz"; []]
           (bs "} b{background:url( '/y.png' )}")).
  - vm_compute. reflexivity.
  - vm_compute. reflexivity.
Defined.

Example css_whole_document :
  sample_rewriteCSS (bs "a{background:url(%zz)} b{background:url( '/y.png' )}")
  = Some (bs "a{background:url(%zz)} b{background:url('http://proxy.test/aHR0cHM6Ly9leGFtcGxlLm9yZy95LnBuZw==?browse=1')}").
Proof. vm_compute. reflexivity. Qed.

(** Single quotes stay single, and the white space inside the
    parentheses goes. *)
Lemma css_url_construct_rewritten_witness :
  sample_rewriteCSS
    (bs "a{background:" ++ bs "url(" ++ bs " " ++ [squote] ++ bs "/x.png" ++ [squote]
       ++ bs " " ++ bs ")" ++ bs "}")
  = Some (bs "a{background:url('http://proxy.test/aHR0cHM6Ly9leGFtcGxlLm9yZy94LnBuZw==?browse=1')}").
Proof.
  destruct (css_url_construct_rewritten
              (env := sampleEnv None) Sample.base Sample.origin)
    as (_ & _ & _ & _ & Hsheet & _).
  rewrite (Hsheet (bs "a{background:") (bs " ") [squote] (bs "/x.png") [squote]
             (bs " ") (bs "}")
             {| Sample.Scheme := bs "https"; Sample.Slashes := true;
                Sample.Host := bs "example.org"; Sample.Tail := bs "/x.png" |}).
  - vm_compute. reflexivity.
  - repeat constructor.
  - repeat constructor.
  - repeat constructor.
  - repeat constructor.
  - repeat constructor.
  - repeat constructor.
  - right. right. reflexivity.
  - right. right. reflexivity.
  - discriminate.
  - repeat constructor.
  - intros H. discriminate H.
  - repeat constructor.
  - intros H. discriminate H.
  - vm_compute. reflexivity.
Defined.

(** C8, the claim as stated, fails.  The value /it's.png resolves
    against the base, and the rewriter leaves the construct as it is.
    The blank before the parenthesis of an unquoted construct is part
    of the value, and the link is that of the value with the blank,
    not that of /x.png. *)
Lemma css_value_with_quote_not_rewritten :
  Sample.URL_Parse Sample.base (bs "/it's.png")
  = Some {| Sample.Scheme := bs "https"; Sample.Slashes := true;
            Sample.Host := bs "example.org"; Sample.Tail := bs "/it's.png" |}
  /\ sample_rewriteCSS
       (bs "a{background:url(" ++ [dquote] ++ bs "/it's.png" ++ [dquote] ++ bs ")}")
     = Some (bs "a{background:url(" ++ [dquote] ++ bs "/it's.png" ++ [dquote] ++ bs ")}")
  /\ FindStringSubmatch urlRegex (bs "url(/x.png )")
     = [bs "url(/x.png )"; []; bs "/x.png "; []]
  /\ sample_rewriteCSS (bs "a{background:url(/x.png )}")
     = Some (bs "a{background:url(http://proxy.test/aHR0cHM6Ly9leGFtcGxlLm9yZy94LnBuZyA=?browse=1)}")
  /\ sample_rewriteCSS (bs "a{background:url(/x.png)}")
     = Some (bs "a{background:url(http://proxy.test/aHR0cHM6Ly9leGFtcGxlLm9yZy94LnBuZw==?browse=1)}").
Proof. repeat split; vm_compute; reflexivity. Qed.

Example css_double_quotes_stay_double :
  sample_rewriteCSS (bs "a{background:url(" ++ [dquote] ++ bs "/x.png" ++ [dquote] ++ bs ")}")
  = Some (bs "a{background:url(" ++ [dquote]
            ++ bs "http://proxy.test/aHR0cHM6Ly9leGFtcGxlLm9yZy94LnBuZw==?browse=1"
            ++ [dquote] ++ bs ")}").
Proof. vm_compute. reflexivity. Qed.

Example css_unquoted_stays_unquoted :
  sample_rewriteCSS (bs "a{background:url(/x.png)}")
  = Some (bs "a{background:url(http://proxy.test/aHR0cHM6Ly9leGFtcGxlLm9yZy94LnBuZw==?browse=1)}").
Proof. vm_compute. reflexivity. Qed.

(** ** JavaScript *)

(** A literal with a scheme is replaced between its quotes. *)
Lemma js_absolute_literal_pass_witness :
  sample_jsAbsPass
    (bs "fetch(" ++ ([dquote] ++ (bs "https://" ++ bs "example.com/api") ++ [dquote])
       ++ bs ")")
  = bs "fetch("
    ++ ([dquote] ++ bs "http://proxy.test" ++ bs "/"
          ++ bs "aHR0cHM6Ly9leGFtcGxlLmNvbS9hcGk=" ++ bs "?browse=1" ++ [dquote])
    ++ bs ")".
Proof.
  destruct (js_absolute_literal_pass
              (env := sampleEnv None) Sample.base Sample.origin)
    as (_ & _ & _ & Hliteral & Hquotes & _).
  rewrite (Hliteral (bs "fetch(") dquote (bs "https://") (bs "example.com/api")
             dquote (bs ")")).
  - vm_compute. reflexivity.
  - apply Hquotes. repeat constructor.
  - reflexivity.
  - reflexivity.
  - right. reflexivity.
  - discriminate.
  - repeat constructor.
Defined.

(** The quotes of a match need not be those of one literal of the
    script: the quote in the comment opens a match that ends at the
    opening quote of the literal, and the literal is not rewritten. *)
Example js_literal_after_stray_quote :
  sample_jsAbsPass (bs "/* see 'http://foo */ x = 'https://e.com/api'")
  = bs "/* see 'http://proxy.test/aHR0cDovL2ZvbyAqLyB4ID0g?browse=1'https://e.com/api'".
Proof. vm_compute. reflexivity. Qed.

Example js_literal_without_scheme :
  sample_jsAbsPass (bs "fetch(" ++ [dquote] ++ bs "/api" ++ [dquote] ++ bs ")")
  = bs "fetch(" ++ [dquote] ++ bs "/api" ++ [dquote] ++ bs ")".
Proof. vm_compute. reflexivity. Qed.

(** C9, the claim as stated, fails: the content of the literal below
    begins with http:// and resolves, and the first pass leaves the
    literal as it is. *)
Lemma js_bare_scheme_literal_not_rewritten :
  HasPrefix (bs "http://") (bs "http://") = true
  /\ Sample.URL_Parse Sample.base (bs "http://")
     = Some {| Sample.Scheme := bs "http"; Sample.Slashes := true;
               Sample.Host := []; Sample.Tail := [] |}
  /\ sample_jsAbsPass (bs "u.startsWith(" ++ [dquote] ++ bs "http://" ++ [dquote] ++ bs ")")
     = bs "u.startsWith(" ++ [dquote] ++ bs "http://" ++ [dquote] ++ bs ")".
Proof. repeat split; vm_compute; reflexivity. Qed.

(** ** HTML *)

(** The mailto: link of the sample document is proxied like any other
    value of href, and the rewriter prints the walk of the page. *)
Lemma html_attribute_rewritten_witness :
  @rewriteHTML samplePageEnv SamplePage.page Sample.base Sample.origin
  = Some (SamplePage.html_Render
            (@traverse samplePageEnv Sample.base Sample.origin false
                       SampleData.document))
  /\ exists e',
       subnode [0] (@traverse samplePageEnv Sample.base Sample.origin false
                              SampleData.document) = Some e'
       /\ Attr e' !! 0
          = Some (SampleData.attribute
                    (bs "href")
                    (bs "http://proxy.test/bWFpbHRvOmFAYi50ZXN0?browse=1")).
Proof.
  destruct (html_attribute_rewritten
              (env := samplePageEnv) Sample.base Sample.origin
              SampleData.document [0] SampleData.link 0
              (SampleData.attribute (bs "href") (bs "mailto:a@b.test"))
              {| Sample.Scheme := bs "mailto"; Sample.Slashes := false;
                 Sample.Host := []; Sample.Tail := bs "a@b.test" |})
    as [Hprint Hattr].
  - reflexivity.
  - reflexivity.
  - reflexivity.
  - vm_compute. reflexivity.
  - reflexivity.
  - vm_compute. reflexivity.
  - split; [| exact Hattr].
    apply (Hprint SamplePage.page). vm_compute. reflexivity.
Defined.

Example html_page_rewritten :
  @rewriteHTML samplePageEnv
    (bs "<a href='mailto:a@b.test' alt='/x' src='data:image/png;base64,AAAA'></a><script>import('https://cdn.test/app.js')</script>")
    Sample.base Sample.origin
  = Some (bs "<a href='http://proxy.test/bWFpbHRvOmFAYi50ZXN0?browse=1' alt='/x' src='data:image/png;base64,AAAA'></a><script>import('http://proxy.test/aHR0cHM6Ly9jZG4udGVzdC9hcHAuanM=?browse=1')</script>").
Proof. vm_compute. reflexivity. Qed.

(** Its alt attribute and its data: URI are as they were, and the
    rewrite set on ASCII names is the one of the specification. *)
Lemma html_rewrite_scope_witness :
  (exists e',
     subnode [0] (sample_traverse false SampleData.document) = Some e'
     /\ Attr e' !! 1 = Some (SampleData.attribute (bs "alt") (bs "/x"))
     /\ Attr e' !! 2
        = Some (SampleData.attribute (bs "src") (bs "data:image/png;base64,AAAA")))
  /\ @inRewriteSet (sampleEnv None) (bs "FormAction") = true
  /\ @inRewriteSet (sampleEnv None) (bs "alt") = false.
Proof.
  destruct (html_rewrite_scope (env := sampleEnv None) Sample.base Sample.origin)
    as (_ & Hwalk & Hascii & _).
  split; [| split].
  - destruct (Hwalk SampleData.document [0] SampleData.link eq_refl)
      as (e' & He' & _ & _ & Hattr).
    exists e'. split; [exact He' |]. split.
    + destruct (Hattr 1 (SampleData.attribute (bs "alt") (bs "/x")) eq_refl)
        as (a' & Ha' & _ & _ & _ & _ & Hspec).
      rewrite Ha'. f_equal. apply Hspec; reflexivity.
    + destruct (Hattr 2 (SampleData.attribute (bs "src") (bs "data:image/png;base64,AAAA"))
                  eq_refl)
        as (a' & Ha' & _ & _ & _ & Hdata & _).
      rewrite Ha'. f_equal. apply Hdata. reflexivity.
  - rewrite Hascii by reflexivity. reflexivity.
  - rewrite Hascii by reflexivity. reflexivity.
Defined.

(** C6, the claim as stated, fails: the name below is none of the four
    names, whatever the case of its letters, and the walk rewrites the
    attribute: [strings.ToLower] makes the letter i of the capital I
    with a dot above. *)
Lemma dotted_capital_i_name_is_rewritten :
  specRewriteSet SamplePage.dotted_name = false
  /\ forallb (fun name => negb (bytes_eqb SamplePage.dotted_name name)) rewriteNames = true
  /\ @inRewriteSet samplePageEnv SamplePage.dotted_name = true
  /\ Attr (@traverse samplePageEnv Sample.base Sample.origin false
                     SamplePage.dotted_form)
     = [SampleData.attribute
          SamplePage.dotted_name
          (bs "http://proxy.test/aHR0cHM6Ly9leGFtcGxlLm9yZy9zZW5k?browse=1")].
Proof. repeat split; vm_compute; reflexivity. Qed.

Example html_inline_script_rewritten :
  option_map Children (subnode [1] (sample_traverse false SampleData.document))
  = Some [mkNode TextNode
            (bs "import('http://proxy.test/aHR0cHM6Ly9jZG4udGVzdC9hcHAuanM=?browse=1')")
            [] [] []].
Proof. vm_compute. reflexivity. Qed.

Example html_rewrite_set :
  @inRewriteSet (sampleEnv None) (bs "HREF") = true
  /\ @inRewriteSet (sampleEnv None) (bs "formaction") = true
  /\ @inRewriteSet (sampleEnv None) (bs "alt") = false
  /\ @inRewriteSet (sampleEnv None) (bs "srcset") = false.
Proof. repeat split; vm_compute; reflexivity. Qed.

(** ** The handler *)

(** The plain handler rejects the address of a rewritten link; the
    handler with rewriting decodes it and goes on to the upstream,
    which is absent here. *)
Example plain_handler_rejects_rewritten_link :
  @proxyHandler_plain (sampleEnv None) SampleData.request_for_rewritten_link
  = HttpError (bs "Invalid base64 encoding: ") StatusBadRequest
  /\ @proxyHandler (sampleEnv None) SampleData.request_for_rewritten_link
     = HttpError (bs "Upstream request failed: ") StatusInternalServerError.
Proof. split; vm_compute; reflexivity. Qed.

(** Without an encoded target the answer is the handler's 400; an
    image with status 200 is relayed with that status, though its body
    breaks; a style sheet with status 200 is rewritten and sent with
    that status. *)
Lemma handler_status_codes_witness :
  (exists msg,
     @proxyHandler (sampleEnv (Some SampleData.css_answer))
                   SampleData.request_without_target
     = HttpError msg StatusBadRequest)
  /\ @proxyHandler (sampleEnv (Some SampleData.broken_answer)) (SampleData.request [])
     = Written (SampleData.header [(bs "Content-Type", [bs "image/png"])])
               200 (bs "partial")
  /\ @proxyHandler (sampleEnv (Some SampleData.css_answer))
                   (SampleData.request (bs "browse=1"))
     = Written (SampleData.header [(bs "Content-Type", [bs "text/css"])])
               200
               (bs "a{background:url(http://proxy.test/aHR0cDovL2gveC5wbmc=?browse=1)}").
Proof.
  split; [| split].
  - apply (proj2 (proj1 (handler_status_codes
                           (env := sampleEnv (Some SampleData.css_answer))
                           SampleData.request_without_target))).
    left. vm_compute. reflexivity.
  - destruct (handler_status_codes (env := sampleEnv (Some SampleData.broken_answer))
                                   (SampleData.request []))
      as (_ & _ & _ & _ & Hpass & _).
    rewrite (Hpass (bs "http://h")
                   {| Sample.Scheme := bs "http"; Sample.Slashes := true;
                      Sample.Host := bs "h"; Sample.Tail := [] |}
                   SampleData.broken_answer).
    + vm_compute. reflexivity.
    + vm_compute. repeat split; discriminate.
    + reflexivity.
    + reflexivity.
    + reflexivity.
    + reflexivity.
  - destruct (handler_status_codes (env := sampleEnv (Some SampleData.css_answer))
                                   (SampleData.request (bs "browse=1")))
      as (_ & _ & _ & _ & _ & Hrewrite).
    rewrite (Hrewrite (bs "http://h")
                      {| Sample.Scheme := bs "http"; Sample.Slashes := true;
                         Sample.Host := bs "h"; Sample.Tail := [] |}
                      SampleData.css_answer
                      (bs "a{background:url(/x.png)}")
                      (bs "a{background:url(http://proxy.test/aHR0cDovL2gveC5wbmc=?browse=1)}")).
    + vm_compute. reflexivity.
    + vm_compute. repeat split; discriminate.
    + reflexivity.
    + reflexivity.
    + reflexivity.
    + vm_compute. discriminate.
    + reflexivity.
    + vm_compute. reflexivity.
Defined.

(** The codes that [w.WriteHeader] takes. *)
Example three_digit_status_codes :
  checkWriteHeaderCode 99 = false /\ checkWriteHeaderCode 100 = true
  /\ checkWriteHeaderCode 999 = true /\ checkWriteHeaderCode 1000 = false.
Proof. repeat split. Qed.

(** C4, the claim as stated, fails: the body of the upstream response
    breaks, so reading it fails, and the status is the upstream's 200,
    not 500. *)
Lemma streaming_failure_keeps_upstream_status :
  broken (Body SampleData.broken_answer) = true
  /\ io_ReadAll (Body SampleData.broken_answer) = None
  /\ @proxyHandler (sampleEnv (Some SampleData.broken_answer)) (SampleData.request [])
     = Written (SampleData.header [(bs "Content-Type", [bs "image/png"])])
               200 (bs "partial")
  /\ status_of (@proxyHandler (sampleEnv (Some SampleData.broken_answer))
                              (SampleData.request []))
     <> StatusInternalServerError.
Proof.
  split; [reflexivity |]. split; [reflexivity |].
  split; [vm_compute; reflexivity |].
  vm_compute. discriminate.
Qed.

(** C2, the claim as stated, fails: TEXT/HTML has the prefix text/html
    up to case, the classifier of the specification selects the HTML
    rewriter, and the handler, browsing, streams the page through
    unchanged. *)
Lemma upper_case_media_type_passes_through :
  HasPrefixFold (bs "TEXT/HTML") (bs "text/html") = true
  /\ classify_spec (bs "TEXT/HTML") true = RewriteHtml
  /\ classify (bs "TEXT/HTML") true = PassThrough
  /\ @browseEnabled (sampleEnv (Some SampleData.upper_case_html_answer))
                    (SampleData.request (bs "browse=1")) = true
  /\ @proxyHandler (sampleEnv (Some SampleData.upper_case_html_answer))
                   (SampleData.request (bs "browse=1"))
     = Written (SampleData.header [(bs "Content-Type", [bs "TEXT/HTML"])])
               200 (bs "<a href=/page>").
Proof. repeat split; vm_compute; reflexivity. Qed.

(** Browsing, Host and Accept-Encoding are not forwarded and
    Content-Length is not relayed; the other headers are. *)
Lemma headers_forwarded_witness :
  (oHeader (@upstreamRequest (sampleEnv (Some SampleData.css_answer))
                             (SampleData.request (bs "browse=1")) (bs "http://h"))
     !! bs "Host" = None
   /\ oHeader (@upstreamRequest (sampleEnv (Some SampleData.css_answer))
                                (SampleData.request (bs "browse=1")) (bs "http://h"))
        !! bs "Accept-Encoding" = None
   /\ oHeader (@upstreamRequest (sampleEnv (Some SampleData.css_answer))
                                (SampleData.request (bs "browse=1")) (bs "http://h"))
        !! bs "Accept" = Some [bs "text/css"; bs "*/*"])
  /\ exists hdr status body,
       @proxyHandler (sampleEnv (Some SampleData.css_answer))
                     (SampleData.request (bs "browse=1"))
       = Written hdr status body
       /\ hdr !! bs "Content-Length" = None
       /\ hdr !! bs "Content-Type" = Some [bs "text/css"].
Proof.
  destruct (headers_forwarded (env := sampleEnv (Some SampleData.css_answer))
                              (SampleData.request (bs "browse=1")))
    as [Hrequest Hresponse].
  - apply canonicalHeaderb_true. vm_compute. reflexivity.
  - intros req resp [= <-]. apply canonicalHeaderb_true. vm_compute. reflexivity.
  - split.
    + rewrite !Hrequest. repeat split; vm_compute; reflexivity.
    + eexists _, _, _. split; [vm_compute; reflexivity |].
      destruct (Hresponse _ _ _ eq_refl) as (u & p & resp & _ & [= <-] & Hk).
      rewrite !Hk. split; vm_compute; reflexivity.
Defined.

Example css_answer_rewritten :
  @proxyHandler (sampleEnv (Some SampleData.css_answer))
                (SampleData.request (bs "browse=1"))
  = Written (SampleData.header [(bs "Content-Type", [bs "text/css"])]) 200
            (bs "a{background:url(http://proxy.test/aHR0cDovL2gveC5wbmc=?browse=1)}").
Proof. vm_compute. reflexivity. Qed.

(* ================================================================== *)
(** * More statements at work *)
(* ================================================================== *)

(** ** The other passes *)

(** The closing quote of an import gives way to the opening one, and
    the white space to one space. *)
Lemma css_import_rewritten_witness :
  @cssImportPass (sampleEnv None) Sample.base Sample.origin
    (bs "a{} " ++ (bs "@import" ++ bs "  " ++ [dquote] ++ bs "/print.css" ++ [squote])
       ++ bs ";")
  = bs "a{} "
    ++ (bs "@import " ++ [dquote] ++ bs "http://proxy.test" ++ bs "/"
          ++ bs "aHR0cHM6Ly9leGFtcGxlLm9yZy9wcmludC5jc3M=" ++ bs "?browse=1" ++ [dquote])
    ++ bs ";".
Proof.
  rewrite (proj2 (css_import_rewritten (env := sampleEnv None) Sample.base Sample.origin)
             (bs "a{} ") (bs "  ") dquote (bs "/print.css") squote (bs ";")
             {| Sample.Scheme := bs "https"; Sample.Slashes := true;
                Sample.Host := bs "example.org"; Sample.Tail := bs "/print.css" |}).
  - vm_compute. reflexivity.
  - repeat split; vm_compute; reflexivity.
  - discriminate.
  - repeat constructor.
  - reflexivity.
  - reflexivity.
  - discriminate.
  - repeat constructor.
  - vm_compute. reflexivity.
Defined.

Lemma js_dynamic_import_rewritten_witness :
  @jsRelImportPass sampleEnvRel Sample.base Sample.origin
    (bs "x=" ++ (bs "import(" ++ bs " " ++ [squote] ++ (bs "." ++ bs "/" ++ bs "m.js")
                   ++ [squote]) ++ bs ")")
  = bs "x="
    ++ (bs "import(" ++ [squote] ++ bs "http://proxy.test" ++ bs "/"
          ++ bs "aHR0cHM6Ly9leGFtcGxlLm9yZy9hL20uanM=" ++ bs "?browse=1" ++ [squote])
    ++ bs ")".
Proof.
  rewrite (proj2 (js_dynamic_import_rewritten (env := sampleEnvRel) Sample.base Sample.origin)
             (bs "x=") (bs " ") squote (bs ".") (bs "m.js") squote (bs ")")
             {| Sample.Scheme := bs "https"; Sample.Slashes := true;
                Sample.Host := bs "example.org"; Sample.Tail := bs "/a/m.js" |}).
  - vm_compute. reflexivity.
  - repeat split; vm_compute; reflexivity.
  - repeat constructor.
  - reflexivity.
  - reflexivity.
  - left. reflexivity.
  - discriminate.
  - repeat constructor.
  - vm_compute. reflexivity.
Defined.

(** A static import without a space before the quote gets one. *)
Lemma js_static_import_rewritten_witness :
  @jsStaticImportPass sampleEnvRel Sample.base Sample.origin
    (bs "import u " ++ (bs "from" ++ [] ++ [dquote] ++ (bs "." ++ bs "/" ++ bs "util.js")
                          ++ [dquote]) ++ bs ";")
  = bs "import u "
    ++ (bs "from " ++ [dquote]
          ++ (bs "http://proxy.test" ++ bs "/"
                ++ bs "aHR0cHM6Ly9leGFtcGxlLm9yZy9hL3V0aWwuanM=" ++ bs "?browse=1")
          ++ [dquote])
    ++ bs ";".
Proof.
  rewrite (proj2 (js_static_import_rewritten (env := sampleEnvRel) Sample.base Sample.origin)
             (bs "import u ") [] dquote (bs ".") (bs "util.js") dquote (bs ";")
             {| Sample.Scheme := bs "https"; Sample.Slashes := true;
                Sample.Host := bs "example.org"; Sample.Tail := bs "/a/util.js" |}).
  - vm_compute. reflexivity.
  - repeat split; vm_compute; reflexivity.
  - constructor.
  - reflexivity.
  - reflexivity.
  - left. reflexivity.
  - discriminate.
  - repeat constructor.
  - vm_compute. reflexivity.
Defined.

(** The path of a call of URL gets the origin in front and nothing
    else. *)
Lemma js_url_call_prefixed_witness :
  jsUrlFuncPass Sample.origin
    (bs "new " ++ (bs "URL(" ++ bs " " ++ [dquote] ++ (bs "/" ++ bs "api") ++ [dquote]
                     ++ bs " " ++ bs ")") ++ bs ";")
  = bs "new "
    ++ (bs "URL(" ++ [dquote] ++ bs "http://proxy.test" ++ (bs "/" ++ bs "api") ++ [dquote]
          ++ bs ")")
    ++ bs ";".
Proof.
  rewrite (proj2 (js_url_call_prefixed Sample.origin)
             (bs "new ") (bs " ") dquote (bs "api") dquote (bs " ") (bs ";")).
  - vm_compute. reflexivity.
  - repeat split; vm_compute; reflexivity.
  - repeat constructor.
  - repeat constructor.
  - reflexivity.
  - reflexivity.
  - repeat constructor.
Defined.

(** ** Texts the rewriters leave alone *)

(** A template literal is not a string literal for the rewriter. *)
Lemma js_without_quotes_unchanged_witness :
  @rewriteJS (sampleEnv None) (bs "fetch(`https://example.com/api`)")
             Sample.base Sample.origin
  = Some (bs "fetch(`https://example.com/api`)").
Proof.
  apply (js_without_quotes_unchanged (env := sampleEnv None)).
  repeat constructor.
Defined.

Lemma css_without_paren_and_at_unchanged_witness :
  @rewriteCSS (sampleEnv None) (bs "a{color:red}") Sample.base Sample.origin
  = Some (bs "a{color:red}").
Proof.
  apply (css_without_paren_and_at_unchanged (env := sampleEnv None));
    repeat constructor.
Defined.

(** ** Whole scripts and style sheets *)

Lemma js_script_with_absolute_literal_witness :
  @rewriteJS (sampleEnv None)
             (bs "fetch(" ++ [dquote] ++ (bs "https://" ++ bs "example.com/api")
                ++ [dquote] ++ bs ")")
             Sample.base Sample.origin
  = Some (bs "fetch(" ++ [dquote]
            ++ (bs "http://proxy.test" ++ bs "/" ++ bs "aHR0cHM6Ly9leGFtcGxlLmNvbS9hcGk="
                  ++ bs "?browse=1")
            ++ [dquote] ++ bs ")").
Proof.
  rewrite (js_script_with_absolute_literal
             (env := sampleEnv None) Sample.base Sample.origin (bs "fetch(") (bs ")")
             dquote dquote (bs "https://") (bs "example.com/api")
             {| Sample.Scheme := bs "https"; Sample.Slashes := true;
                Sample.Host := bs "example.com"; Sample.Tail := bs "/api" |}).
  - vm_compute. reflexivity.
  - reflexivity.
  - repeat constructor.
  - repeat constructor.
  - repeat constructor.
  - reflexivity.
  - reflexivity.
  - right. reflexivity.
  - discriminate.
  - repeat constructor.
  - vm_compute. reflexivity.
Defined.

Lemma js_script_with_dynamic_import_witness :
  @rewriteJS sampleEnvRel
             (bs "x=" ++ bs "import(" ++ bs " " ++ [squote]
                ++ (bs "." ++ bs "/" ++ bs "m.js") ++ [squote] ++ bs ")")
             Sample.base Sample.origin
  = Some (bs "x=" ++ bs "import(" ++ [squote]
            ++ (bs "http://proxy.test" ++ bs "/"
                  ++ bs "aHR0cHM6Ly9leGFtcGxlLm9yZy9hL20uanM=" ++ bs "?browse=1")
            ++ [squote] ++ bs ")").
Proof.
  rewrite (js_script_with_dynamic_import
             (env := sampleEnvRel) Sample.base Sample.origin (bs "x=") (bs ")")
             (bs " ") squote squote (bs ".") (bs "m.js")
             {| Sample.Scheme := bs "https"; Sample.Slashes := true;
                Sample.Host := bs "example.org"; Sample.Tail := bs "/a/m.js" |}).
  - vm_compute. reflexivity.
  - reflexivity.
  - repeat constructor.
  - repeat constructor.
  - repeat constructor.
  - repeat constructor.
  - reflexivity.
  - reflexivity.
  - left. reflexivity.
  - discriminate.
  - repeat constructor.
  - vm_compute. reflexivity.
Defined.

Lemma js_script_with_static_import_witness :
  @rewriteJS sampleEnvRel
             (bs "import u " ++ bs "from" ++ [] ++ [dquote]
                ++ (bs "." ++ bs "/" ++ bs "util.js") ++ [dquote] ++ bs ";")
             Sample.base Sample.origin
  = Some (bs "import u " ++ bs "from " ++ [dquote]
            ++ (bs "http://proxy.test" ++ bs "/"
                  ++ bs "aHR0cHM6Ly9leGFtcGxlLm9yZy9hL3V0aWwuanM=" ++ bs "?browse=1")
            ++ [dquote] ++ bs ";").
Proof.
  rewrite (js_script_with_static_import
             (env := sampleEnvRel) Sample.base Sample.origin (bs "import u ") (bs ";")
             [] dquote dquote (bs ".") (bs "util.js")
             {| Sample.Scheme := bs "https"; Sample.Slashes := true;
                Sample.Host := bs "example.org"; Sample.Tail := bs "/a/util.js" |}).
  - vm_compute. reflexivity.
  - reflexivity.
  - repeat constructor.
  - repeat constructor.
  - repeat constructor.
  - constructor.
  - reflexivity.
  - reflexivity.
  - left. reflexivity.
  - discriminate.
  - repeat constructor.
  - vm_compute. reflexivity.
Defined.

Lemma js_script_with_url_call_witness :
  @rewriteJS (sampleEnv None)
             (bs "new " ++ bs "URL(" ++ bs " " ++ [dquote] ++ (bs "/" ++ bs "api")
                ++ [dquote] ++ bs " " ++ bs ")" ++ bs ";")
             Sample.base Sample.origin
  = Some (bs "new " ++ bs "URL(" ++ [dquote] ++ bs "http://proxy.test"
            ++ (bs "/" ++ bs "api") ++ [dquote] ++ bs ")" ++ bs ";").
Proof.
  apply (js_script_with_url_call
           (env := sampleEnv None) Sample.base Sample.origin (bs "new ") (bs ";")
           (bs " ") (bs " ") dquote dquote (bs "api")).
  - repeat constructor.
  - repeat constructor.
  - repeat constructor.
  - repeat constructor.
  - reflexivity.
  - reflexivity.
  - repeat constructor.
Defined.

Lemma css_sheet_with_url_witness :
  @rewriteCSS (sampleEnv None)
              (bs "a{background:" ++ bs "url(" ++ [squote] ++ bs "/x.png" ++ [squote]
                 ++ bs ")" ++ bs "}")
              Sample.base Sample.origin
  = Some (bs "a{background:" ++ bs "url(" ++ [squote]
            ++ (bs "http://proxy.test" ++ bs "/"
                  ++ bs "aHR0cHM6Ly9leGFtcGxlLm9yZy94LnBuZw==" ++ bs "?browse=1")
            ++ [squote] ++ bs ")" ++ bs "}").
Proof.
  rewrite (css_sheet_with_url
             (env := sampleEnv None) Sample.base Sample.origin (bs "a{background:")
             (bs "}") [squote] (bs "/x.png")
             {| Sample.Scheme := bs "https"; Sample.Slashes := true;
                Sample.Host := bs "example.org"; Sample.Tail := bs "/x.png" |}).
  - vm_compute. reflexivity.
  - repeat constructor.
  - repeat constructor.
  - repeat constructor.
  - repeat constructor.
  - repeat constructor.
  - right. right. reflexivity.
  - discriminate.
  - discriminate.
  - repeat constructor.
  - vm_compute. reflexivity.
Defined.

Lemma css_sheet_with_import_witness :
  @rewriteCSS (sampleEnv None)
              (bs "a{} " ++ bs "@import" ++ bs "  " ++ [dquote] ++ bs "/print.css"
                 ++ [squote] ++ bs ";")
              Sample.base Sample.origin
  = Some (bs "a{} " ++ bs "@import " ++ [dquote]
            ++ (bs "http://proxy.test" ++ bs "/"
                  ++ bs "aHR0cHM6Ly9leGFtcGxlLm9yZy9wcmludC5jc3M=" ++ bs "?browse=1")
            ++ [dquote] ++ bs ";").
Proof.
  rewrite (css_sheet_with_import
             (env := sampleEnv None) Sample.base Sample.origin (bs "a{} ") (bs ";")
             (bs "  ") (bs "/print.css") dquote squote
             {| Sample.Scheme := bs "https"; Sample.Slashes := true;
                Sample.Host := bs "example.org"; Sample.Tail := bs "/print.css" |}).
  - vm_compute. reflexivity.
  - repeat constructor.
  - repeat constructor.
  - repeat constructor.
  - repeat constructor.
  - discriminate.
  - repeat constructor.
  - reflexivity.
  - reflexivity.
  - discriminate.
  - repeat constructor.
  - repeat constructor.
  - vm_compute. reflexivity.
Defined.

(** Unlike the HTML rewriter, the CSS rewriter has no exception for
    data: URIs. *)
Example css_data_uri_is_proxied :
  @rewriteCSS (sampleEnv None) (bs "a{background:url(data:image/png;base64,AAAA)}")
              Sample.base Sample.origin
  = Some (bs "a{background:url(http://proxy.test/ZGF0YTppbWFnZS9wbmc7YmFzZTY0LEFBQUE=?browse=1)}").
Proof. vm_compute. reflexivity. Qed.

(** ** More of the HTML walk *)

(** The text of the inline script is rewritten, the text under the
    script with a src attribute is not. *)
Lemma html_inline_script_text_witness :
  (exists c',
     subnode ([0] ++ [0])
       (@traverse (sampleEnv None) Sample.base Sample.origin false SampleMore.document)
     = Some c'
     /\ Some (Data c')
        = Some (bs "import('http://proxy.test/aHR0cHM6Ly9jZG4udGVzdC9hcHAuanM=?browse=1')"))
  /\ (exists c',
        subnode ([1] ++ [0])
          (@traverse (sampleEnv None) Sample.base Sample.origin false SampleMore.document)
        = Some c'
        /\ Some (Data c') = Some (bs "import('https://cdn.test/app.js')")).
Proof.
  destruct (html_inline_script_text (env := sampleEnv None) Sample.base Sample.origin
              SampleMore.document) as (_ & Htext & _).
  split.
  - destruct (Htext [0] SampleData.script 0
                (mkNode TextNode (bs "import('https://cdn.test/app.js')") [] [] [])
                eq_refl eq_refl eq_refl) as (c' & Hc' & Hdata).
    exists c'. split; [exact Hc' |]. rewrite Hdata. vm_compute. reflexivity.
  - destruct (Htext [1] SampleMore.external_script 0
                (mkNode TextNode (bs "import('https://cdn.test/app.js')") [] [] [])
                eq_refl eq_refl eq_refl) as (c' & Hc' & Hdata).
    exists c'. split; [exact Hc' |]. rewrite Hdata. vm_compute. reflexivity.
Defined.

(** A link that does not resolve stays. *)
Lemma html_unresolvable_attribute_kept_witness :
  exists e',
    subnode [2]
      (@traverse (sampleEnv None) Sample.base Sample.origin false SampleMore.document)
    = Some e'
    /\ Attr e' !! 0 = Some (SampleData.attribute (bs "href") (bs "%zz")).
Proof.
  destruct (html_unresolvable_attribute_kept
              (env := sampleEnv None) Sample.base Sample.origin
              SampleMore.document [2] SampleMore.broken_link 0
              (SampleData.attribute (bs "href") (bs "%zz")) eq_refl eq_refl)
    as (e' & He' & Hkept & _).
  exists e'. split; [exact He' |]. apply Hkept. vm_compute. reflexivity.
Defined.

(** ** More of the handlers *)

(** A slash in the address. *)
Lemma address_with_illegal_character_rejected_witness :
  @proxyHandler (sampleEnv None) SampleMore.request_with_slash
  = HttpError (bs "Invalid base64 encoding: ") StatusBadRequest.
Proof.
  apply (proj1 (address_with_illegal_character_rejected
                  (env := sampleEnv None) SampleMore.request_with_slash "/"
                  ltac:(vm_compute; auto 10) eq_refl ltac:(discriminate))).
  reflexivity.
Defined.

(** The address of http://h without its padding sign. *)
Lemma address_length_multiple_of_four_witness :
  @proxyHandler (sampleEnv None) SampleMore.request_without_padding
  = HttpError (bs "Invalid base64 encoding: ") StatusBadRequest
  /\ @proxyHandler_plain (sampleEnv None) SampleMore.request_without_padding
     = HttpError (bs "Invalid base64 encoding: ") StatusBadRequest.
Proof.
  apply (address_length_multiple_of_four
           (env := sampleEnv None) SampleMore.request_without_padding).
  vm_compute. discriminate.
Defined.

(** The address of http://h broken into three lines. *)
Lemma address_with_line_breaks_witness :
  base64.DecodeString base64.URLEncoding
    (bs "aHR0" ++ ["010"%char] ++ bs "cDov" ++ ["013"%char; "010"%char] ++ bs "L2g=")
  = Some (bs "http://h").
Proof.
  apply address_with_line_breaks. vm_compute. reflexivity.
Defined.

Lemma handlers_agree_without_browse_witness :
  @proxyHandler (sampleEnv (Some SampleData.css_answer)) (SampleData.request [])
  = @proxyHandler_plain (sampleEnv (Some SampleData.css_answer)) (SampleData.request []).
Proof.
  apply (handlers_agree_without_browse
           (env := sampleEnv (Some SampleData.css_answer)) (SampleData.request []));
    vm_compute; reflexivity.
Defined.

Abbreviation css_env := (sampleEnv (Some SampleData.css_answer)).
Abbreviation css_request := (SampleData.request (bs "browse=1")).

(** The body of the rewritten style sheet is the output of the CSS
    rewriter on the whole body of the upstream response. *)
Lemma handler_body_witness :
  exists u p resp,
    @targetOf css_env css_request u p
    /\ @client_Do css_env (@upstreamRequest css_env css_request u) = Some resp
    /\ ((@strategyFor css_env css_request resp = PassThrough
         /\ bs "a{background:url(http://proxy.test/aHR0cDovL2gveC5wbmc=?browse=1)}"
            = delivered (Body resp))
        \/ (@strategyFor css_env css_request resp <> PassThrough
            /\ broken (Body resp) = false
            /\ @rewriterOf css_env (@strategyFor css_env css_request resp)
                 (delivered (Body resp)) p (proxyOrigin css_request)
               = Some (bs "a{background:url(http://proxy.test/aHR0cDovL2gveC5wbmc=?browse=1)}"))).
Proof.
  apply (handler_body (env := css_env) css_request
           (SampleData.header [(bs "Content-Type", [bs "text/css"])]) 200
           (bs "a{background:url(http://proxy.test/aHR0cDovL2gveC5wbmc=?browse=1)}")).
  vm_compute. reflexivity.
Defined.

(** Browsing, an answer without a Content-Type goes through as it
    is. *)
Lemma no_content_type_passes_through_witness :
  @proxyHandler (sampleEnv (Some SampleMore.untyped_answer))
                (SampleData.request (bs "browse=1"))
  = Written (@copyHeaders (sampleEnv (Some SampleMore.untyped_answer)) true
               (RespHeader SampleMore.untyped_answer))
            200 (bs "ok").
Proof.
  apply (no_content_type_passes_through
           (env := sampleEnv (Some SampleMore.untyped_answer))
           (SampleData.request (bs "browse=1")) (bs "http://h")
           {| Sample.Scheme := bs "http"; Sample.Slashes := true;
              Sample.Host := bs "h"; Sample.Tail := [] |}
           SampleMore.untyped_answer).
  - repeat split; vm_compute; (reflexivity || discriminate).
  - reflexivity.
  - reflexivity.
  - reflexivity.
  - vm_compute. reflexivity.
Defined.

(** The plain handler relays the style sheet with its Content-Length
    and does not send Host upstream. *)
Lemma plain_handler_relays_response_witness :
  oHeader (@upstreamRequest_plain (sampleEnv (Some SampleData.css_answer))
                                  (SampleData.request []) (bs "http://h"))
    !! bs "Host" = None
  /\ exists hdr status body,
       @proxyHandler_plain (sampleEnv (Some SampleData.css_answer)) (SampleData.request [])
       = Written hdr status body
       /\ hdr = RespHeader SampleData.css_answer
       /\ status = 200%Z
       /\ body = bs "a{background:url(/x.png)}".
Proof.
  destruct (plain_handler_relays_response
              (env := sampleEnv (Some SampleData.css_answer)) (SampleData.request []))
    as [Hrequest Hresponse].
  - apply canonicalHeaderb_true. vm_compute. reflexivity.
  - intros req resp [= <-]. apply canonicalHeaderb_true. vm_compute. reflexivity.
  - split.
    + rewrite Hrequest. vm_compute. reflexivity.
    + eexists _, _, _. split; [vm_compute; reflexivity |].
      destruct (Hresponse _ _ _ eq_refl) as (u & p & resp & _ & [= <-] & Hh & Hs & Hb).
      auto.
Defined.

(** The plain handler on a request without a target, and on an image
    with status 200 whose body breaks. *)
Lemma plain_handler_status_codes_witness :
  (exists msg,
     @proxyHandler_plain (sampleEnv None) SampleData.request_without_target
     = HttpError msg StatusBadRequest)
  /\ @proxyHandler_plain (sampleEnv (Some SampleData.broken_answer))
                         (SampleData.request [])
     = Written (SampleData.header [(bs "Content-Type", [bs "image/png"])])
               200 (bs "partial").
Proof.
  split.
  - apply (proj2 (proj1 (plain_handler_status_codes
                           (env := sampleEnv None) SampleData.request_without_target))).
    left. vm_compute. reflexivity.
  - destruct (plain_handler_status_codes
                (env := sampleEnv (Some SampleData.broken_answer))
                (SampleData.request []))
      as (_ & _ & _ & Hrelay).
    rewrite (Hrelay (bs "http://h")
                    {| Sample.Scheme := bs "http"; Sample.Slashes := true;
                       Sample.Host := bs "h"; Sample.Tail := [] |}
                    SampleData.broken_answer).
    + vm_compute. reflexivity.
    + vm_compute. repeat split; discriminate.
    + reflexivity.
    + reflexivity.
    + reflexivity.
Defined.

Example missing_target_on_the_root :
  @proxyHandler (sampleEnv None) SampleData.request_without_target
  = HttpError (bs "Missing encoded URL") StatusBadRequest.
Proof. vm_compute. reflexivity. Qed.

Example address_of_eight_bytes :
  length (base64.EncodeToString base64.URLEncoding (bs "http://h")) = 12.
Proof. reflexivity. Qed.
